(** * Pico1.8 watch firmware: games, pet and PRNG

  A shallow embedding of the simulation core of the watch sketch
  (the file with [rng], the four arcade games, the virtual pet,
  [handle_touch] and [loop]) together with the properties its
  specification states about it and further properties of the games,
  the pet, the navigation, the clock and the backlight.

  Conventions.
  - The target is an RP2350 (32-bit ARM): [int] and [long] are 32-bit
    two's complement, [unsigned long] and [uint32_t] are 32-bit,
    [uint8_t] is 8-bit.  Integers are values in [Z]; conversions and
    wrap-around are written out with the functions of [CInt].
  - [float] is IEEE-754 binary32, modelled exactly with the Standard
    Library's [SpecFloat] at precision 24 / emax 128.  The libm functions
    [cos], [sin] and [sqrt] are parameters.
  - Global variables of the sketch are fields of records; a C function
    that mutates globals is a function from records to records.
  - [millis()] and the touch controller are inputs of the functions that
    read them.  Drawing code only writes the framebuffer and is left out. *)

From Stdlib Require Import ZArith Lia QArith Qabs Lqa.
From Stdlib Require Import Floats.SpecFloat.
From Stdlib Require Import String.
From stdpp Require Import base list.

Local Open Scope Z_scope.

(** * Part I: the embedding *)

(** ** Machine integers *)

Module CInt.

Definition to_ulong (z : Z) : Z := z mod 2 ^ 32.

Definition to_long (z : Z) : Z :=
  let u := z mod 2 ^ 32 in if u <? 2 ^ 31 then u else u - 2 ^ 32.

Definition to_u8 (z : Z) : Z := z mod 2 ^ 8.

Definition to_i8 (z : Z) : Z :=
  let u := z mod 2 ^ 8 in if u <? 2 ^ 7 then u else u - 2 ^ 8.

Definition is_ulong (z : Z) : Prop := 0 <= z < 2 ^ 32.
Definition is_long (z : Z) : Prop := - 2 ^ 31 <= z < 2 ^ 31.
Definition is_u8 (z : Z) : Prop := 0 <= z < 2 ^ 8.

End CInt.

(** ** The linear congruential generator

  [static unsigned long rng_seed = 1;]  The state is the value of
  [rng_seed]. *)

Module Rng.
Import CInt.

Definition rng_state := Z.

Definition initial : rng_state := 1.

(** [void seed_rng(unsigned long seed) { rng_seed = seed; }] *)
Definition seed_rng (seed : Z) (_ : rng_state) : rng_state := to_ulong seed.

(** [long rng(long max_val)]: the multiplication and addition are
    [unsigned long] (wrap at 2^32), [&] masks to 31 bits, and in
    [rng_seed % max_val] the [long] operand is converted to
    [unsigned long].  [max_val = 0] is a division by zero in C; here
    [Z.modulo] by 0 returns the dividend. *)
Definition rng1 (max_val : Z) (st : rng_state) : Z * rng_state :=
  let st' := Z.land (to_ulong (st * 1103515245 + 12345)) 2147483647 in
  (to_long (st' mod to_ulong max_val), st').

(** [long rng(long min_val, long max_val)] *)
Definition rng2 (min_val max_val : Z) (st : rng_state) : Z * rng_state :=
  let '(r, st') := rng1 (to_long (max_val - min_val)) st in
  (to_long (min_val + r), st').

(** A run: the outputs of successive two-argument calls. *)
Fixpoint run (calls : list (Z * Z)) (st : rng_state) : list Z * rng_state :=
  match calls with
  | [] => ([], st)
  | (mn, mx) :: rest =>
      let '(x, st1) := rng2 mn mx st in
      let '(xs, st2) := run rest st1 in
      (x :: xs, st2)
  end.

(** The recurrence as the specification writes it. *)
Definition lcg_next (st : Z) : Z := (st * 1103515245 + 12345) mod 2 ^ 31.

Definition call_ok (c : Z * Z) : Prop :=
  is_long (fst c) /\ is_long (snd c) /\ fst c < snd c.

Definition in_range (c : Z * Z) (x : Z) : Prop := fst c <= x < snd c.

(** The sequence the recurrence yields for a list of calls. *)
Fixpoint lcg_outputs (calls : list (Z * Z)) (st : Z) : list Z :=
  match calls with
  | [] => []
  | (mn, mx) :: rest =>
      let st' := lcg_next st in
      (mn + st' mod (mx - mn)) :: lcg_outputs rest st'
  end.

End Rng.

(** ** The display ([AMOLED_1in8.h]) *)

Module Display.

Definition AMOLED_1IN8_WIDTH : Z := 368.
Definition AMOLED_1IN8_HEIGHT : Z := 448.

End Display.

(** ** Single-precision floats

  [float] is IEEE-754 binary32: the operations of [SpecFloat] at
  precision 24 and maximal exponent 128, rounding to nearest even. *)

Module F32.

Definition prec : Z := 24.
Definition emax : Z := 128.

Definition float : Type := spec_float.

(** Conversion of an integer to [float]. *)
Definition of_int (z : Z) : float := binary_normalize prec emax z 0 false.

Definition fadd : float -> float -> float := SFadd prec emax.
Definition fsub : float -> float -> float := SFsub prec emax.
Definition fmul : float -> float -> float := SFmul prec emax.
Definition fdiv : float -> float -> float := SFdiv prec emax.
Definition fneg : float -> float := SFopp.

(** [a < b], [a <= b], [a > b], [a >= b]; all false on a NaN. *)
Definition flt (a b : float) : bool := SFltb a b.
Definition fle (a b : float) : bool := SFleb a b.
Definition fgt (a b : float) : bool := SFltb b a.
Definition fge (a b : float) : bool := SFleb b a.

(** The decimal literal [num/den] for integers that are floats
    themselves: the correctly rounded quotient, e.g. [lit 12 10] for
    [1.2f]. *)
Definition lit (num den : Z) : float := fdiv (of_int num) (of_int den).

Definition zero : float := of_int 0.

(** The Arduino core macro [abs(x)], [((x)>0?(x):-(x))]. *)
Definition arduino_abs (x : float) : float :=
  if fgt x (of_int 0) then x else fneg x.

(** The rational number a finite float stands for (0 for the others). *)
Definition to_Q (x : float) : Q :=
  match x with
  | S754_finite s m e =>
      let v := if s then Z.neg m else Z.pos m in
      if 0 <=? e then inject_Z (v * 2 ^ e)
      else Qmake v (Z.to_pos (2 ^ (- e)))
  | _ => 0%Q
  end.

Definition is_finite (x : float) : bool :=
  match x with
  | S754_finite _ _ _ | S754_zero _ => true
  | _ => false
  end.

Definition is_nan (x : float) : bool :=
  match x with S754_nan => true | _ => false end.

(** A float in canonical form, as every result of an operation is. *)
Definition valid (x : float) : bool := valid_binary prec emax x.

(** The value of a finite float in units of [2^-149], the smallest
    positive binary32 number. *)
Definition scaled (x : float) : Z :=
  match x with
  | S754_finite s m e =>
      (if s then Z.neg m else Z.pos m) * 2 ^ (e + 149)
  | _ => 0
  end.

(** Equality of representations. *)
Definition float_eqb (x y : float) : bool :=
  match x, y with
  | S754_zero a, S754_zero b => Bool.eqb a b
  | S754_infinity a, S754_infinity b => Bool.eqb a b
  | S754_nan, S754_nan => true
  | S754_finite a m e, S754_finite b n f =>
      Bool.eqb a b && (Z.pos m =? Z.pos n) && (e =? f)
  | _, _ => false
  end.

End F32.

(** ** The virtual pet

  [struct Tamagotchi] and the code that changes it: [init_pet], the
  [SCR_GAME_TAMAGOTCHI] branch of [handle_touch] and the pet section
  of [loop]. *)

Module Pet.
Import CInt Display.

Inductive PetMood := HAPPY | NEUTRAL | SAD | SICK | SLEEPING.
Inductive PetStage := EGG | BABY | CHILD | TEEN | ADULT.

(** The [uint8_t], [uint16_t], [uint32_t] and [int8_t] members hold
    values in [Z]; every assignment converts with [to_u8], [to_ulong]
    or [to_i8]. *)
Record Tamagotchi := mkPet {
  name : string;
  stage : PetStage;
  mood : PetMood;
  hunger : Z;
  happiness : Z;
  health : Z;
  cleanliness : Z;
  age_hours : Z;
  age_days : Z;
  is_sleeping : bool;
  needs_cleanup : bool;
  last_poop_time : Z;
  petting_count : Z;
  last_creature_move : Z;
  last_eye_move : Z;
  creature_offset_x : Z;
  creature_offset_y : Z;
  eye_offset_x : Z;
  eye_offset_y : Z
}.

Definition set_stage (v : PetStage) (p : Tamagotchi) : Tamagotchi :=
  {| name := name p; stage := v; mood := mood p; hunger := hunger p;
     happiness := happiness p; health := health p;
     cleanliness := cleanliness p; age_hours := age_hours p;
     age_days := age_days p; is_sleeping := is_sleeping p;
     needs_cleanup := needs_cleanup p; last_poop_time := last_poop_time p;
     petting_count := petting_count p;
     last_creature_move := last_creature_move p;
     last_eye_move := last_eye_move p;
     creature_offset_x := creature_offset_x p;
     creature_offset_y := creature_offset_y p;
     eye_offset_x := eye_offset_x p; eye_offset_y := eye_offset_y p |}.

Definition set_hunger (v : Z) (p : Tamagotchi) : Tamagotchi :=
  {| name := name p; stage := stage p; mood := mood p; hunger := v;
     happiness := happiness p; health := health p;
     cleanliness := cleanliness p; age_hours := age_hours p;
     age_days := age_days p; is_sleeping := is_sleeping p;
     needs_cleanup := needs_cleanup p; last_poop_time := last_poop_time p;
     petting_count := petting_count p;
     last_creature_move := last_creature_move p;
     last_eye_move := last_eye_move p;
     creature_offset_x := creature_offset_x p;
     creature_offset_y := creature_offset_y p;
     eye_offset_x := eye_offset_x p; eye_offset_y := eye_offset_y p |}.

Definition set_happiness (v : Z) (p : Tamagotchi) : Tamagotchi :=
  {| name := name p; stage := stage p; mood := mood p; hunger := hunger p;
     happiness := v; health := health p; cleanliness := cleanliness p;
     age_hours := age_hours p; age_days := age_days p;
     is_sleeping := is_sleeping p; needs_cleanup := needs_cleanup p;
     last_poop_time := last_poop_time p; petting_count := petting_count p;
     last_creature_move := last_creature_move p;
     last_eye_move := last_eye_move p;
     creature_offset_x := creature_offset_x p;
     creature_offset_y := creature_offset_y p;
     eye_offset_x := eye_offset_x p; eye_offset_y := eye_offset_y p |}.

Definition set_health (v : Z) (p : Tamagotchi) : Tamagotchi :=
  {| name := name p; stage := stage p; mood := mood p; hunger := hunger p;
     happiness := happiness p; health := v; cleanliness := cleanliness p;
     age_hours := age_hours p; age_days := age_days p;
     is_sleeping := is_sleeping p; needs_cleanup := needs_cleanup p;
     last_poop_time := last_poop_time p; petting_count := petting_count p;
     last_creature_move := last_creature_move p;
     last_eye_move := last_eye_move p;
     creature_offset_x := creature_offset_x p;
     creature_offset_y := creature_offset_y p;
     eye_offset_x := eye_offset_x p; eye_offset_y := eye_offset_y p |}.

Definition set_cleanliness (v : Z) (p : Tamagotchi) : Tamagotchi :=
  {| name := name p; stage := stage p; mood := mood p; hunger := hunger p;
     happiness := happiness p; health := health p; cleanliness := v;
     age_hours := age_hours p; age_days := age_days p;
     is_sleeping := is_sleeping p; needs_cleanup := needs_cleanup p;
     last_poop_time := last_poop_time p; petting_count := petting_count p;
     last_creature_move := last_creature_move p;
     last_eye_move := last_eye_move p;
     creature_offset_x := creature_offset_x p;
     creature_offset_y := creature_offset_y p;
     eye_offset_x := eye_offset_x p; eye_offset_y := eye_offset_y p |}.

Definition set_petting_count (v : Z) (p : Tamagotchi) : Tamagotchi :=
  {| name := name p; stage := stage p; mood := mood p; hunger := hunger p;
     happiness := happiness p; health := health p;
     cleanliness := cleanliness p; age_hours := age_hours p;
     age_days := age_days p; is_sleeping := is_sleeping p;
     needs_cleanup := needs_cleanup p; last_poop_time := last_poop_time p;
     petting_count := v; last_creature_move := last_creature_move p;
     last_eye_move := last_eye_move p;
     creature_offset_x := creature_offset_x p;
     creature_offset_y := creature_offset_y p;
     eye_offset_x := eye_offset_x p; eye_offset_y := eye_offset_y p |}.

Definition set_last_creature_move (v : Z) (p : Tamagotchi) : Tamagotchi :=
  {| name := name p; stage := stage p; mood := mood p; hunger := hunger p;
     happiness := happiness p; health := health p;
     cleanliness := cleanliness p; age_hours := age_hours p;
     age_days := age_days p; is_sleeping := is_sleeping p;
     needs_cleanup := needs_cleanup p; last_poop_time := last_poop_time p;
     petting_count := petting_count p; last_creature_move := v;
     last_eye_move := last_eye_move p;
     creature_offset_x := creature_offset_x p;
     creature_offset_y := creature_offset_y p;
     eye_offset_x := eye_offset_x p; eye_offset_y := eye_offset_y p |}.

Definition set_last_eye_move (v : Z) (p : Tamagotchi) : Tamagotchi :=
  {| name := name p; stage := stage p; mood := mood p; hunger := hunger p;
     happiness := happiness p; health := health p;
     cleanliness := cleanliness p; age_hours := age_hours p;
     age_days := age_days p; is_sleeping := is_sleeping p;
     needs_cleanup := needs_cleanup p; last_poop_time := last_poop_time p;
     petting_count := petting_count p;
     last_creature_move := last_creature_move p; last_eye_move := v;
     creature_offset_x := creature_offset_x p;
     creature_offset_y := creature_offset_y p;
     eye_offset_x := eye_offset_x p; eye_offset_y := eye_offset_y p |}.

Definition set_creature_offset_x (v : Z) (p : Tamagotchi) : Tamagotchi :=
  {| name := name p; stage := stage p; mood := mood p; hunger := hunger p;
     happiness := happiness p; health := health p;
     cleanliness := cleanliness p; age_hours := age_hours p;
     age_days := age_days p; is_sleeping := is_sleeping p;
     needs_cleanup := needs_cleanup p; last_poop_time := last_poop_time p;
     petting_count := petting_count p;
     last_creature_move := last_creature_move p;
     last_eye_move := last_eye_move p; creature_offset_x := v;
     creature_offset_y := creature_offset_y p;
     eye_offset_x := eye_offset_x p; eye_offset_y := eye_offset_y p |}.

Definition set_creature_offset_y (v : Z) (p : Tamagotchi) : Tamagotchi :=
  {| name := name p; stage := stage p; mood := mood p; hunger := hunger p;
     happiness := happiness p; health := health p;
     cleanliness := cleanliness p; age_hours := age_hours p;
     age_days := age_days p; is_sleeping := is_sleeping p;
     needs_cleanup := needs_cleanup p; last_poop_time := last_poop_time p;
     petting_count := petting_count p;
     last_creature_move := last_creature_move p;
     last_eye_move := last_eye_move p;
     creature_offset_x := creature_offset_x p; creature_offset_y := v;
     eye_offset_x := eye_offset_x p; eye_offset_y := eye_offset_y p |}.

Definition set_eye_offset_x (v : Z) (p : Tamagotchi) : Tamagotchi :=
  {| name := name p; stage := stage p; mood := mood p; hunger := hunger p;
     happiness := happiness p; health := health p;
     cleanliness := cleanliness p; age_hours := age_hours p;
     age_days := age_days p; is_sleeping := is_sleeping p;
     needs_cleanup := needs_cleanup p; last_poop_time := last_poop_time p;
     petting_count := petting_count p;
     last_creature_move := last_creature_move p;
     last_eye_move := last_eye_move p;
     creature_offset_x := creature_offset_x p;
     creature_offset_y := creature_offset_y p; eye_offset_x := v;
     eye_offset_y := eye_offset_y p |}.

Definition set_eye_offset_y (v : Z) (p : Tamagotchi) : Tamagotchi :=
  {| name := name p; stage := stage p; mood := mood p; hunger := hunger p;
     happiness := happiness p; health := health p;
     cleanliness := cleanliness p; age_hours := age_hours p;
     age_days := age_days p; is_sleeping := is_sleeping p;
     needs_cleanup := needs_cleanup p; last_poop_time := last_poop_time p;
     petting_count := petting_count p;
     last_creature_move := last_creature_move p;
     last_eye_move := last_eye_move p;
     creature_offset_x := creature_offset_x p;
     creature_offset_y := creature_offset_y p;
     eye_offset_x := eye_offset_x p; eye_offset_y := v |}.

(** [void init_pet()]; [now] is the value of [millis()]. *)
Definition init_pet (now : Z) : Tamagotchi :=
  {| name := "Buddy"; stage := EGG; mood := NEUTRAL;
     hunger := 50; happiness := 50; health := 100; cleanliness := 100;
     age_hours := 0; age_days := 0;
     is_sleeping := false; needs_cleanup := false;
     last_poop_time := to_ulong now; petting_count := 0;
     last_creature_move := to_ulong now; last_eye_move := to_ulong now;
     creature_offset_x := 0; creature_offset_y := 0;
     eye_offset_x := 0; eye_offset_y := 0 |}.

(** The four buttons of the bottom row.  The operands are promoted to
    [int], [min] and [max] are taken there, and the result is stored
    back into a [uint8_t]. *)
Definition feed (p : Tamagotchi) : Tamagotchi :=
  let p1 := set_hunger (to_u8 (Z.min 100 (hunger p + 20))) p in
  set_happiness (to_u8 (Z.min 100 (happiness p1 + 5))) p1.

Definition play (p : Tamagotchi) : Tamagotchi :=
  let p1 := set_happiness (to_u8 (Z.min 100 (happiness p + 20))) p in
  set_hunger (to_u8 (Z.max 0 (hunger p1 - 5))) p1.

Definition clean (p : Tamagotchi) : Tamagotchi :=
  let p1 := set_cleanliness 100 p in
  set_happiness (to_u8 (Z.min 100 (happiness p1 + 10))) p1.

Definition medicine (p : Tamagotchi) : Tamagotchi :=
  set_health (to_u8 (Z.min 100 (health p + 30))) p.

(** Touching the creature in the centre area. *)
Definition petting (p : Tamagotchi) : Tamagotchi :=
  let p1 := set_happiness (to_u8 (Z.min 100 (happiness p + 3))) p in
  set_petting_count (to_u8 (petting_count p1 + 1)) p1.

Definition is_egg (s : PetStage) : bool :=
  match s with EGG => true | _ => false end.

(** The [SCR_GAME_TAMAGOTCHI] branch of [handle_touch]; [tx], [ty] are
    the [uint16_t] coordinates read from the touch controller. *)
Definition pet_touch (tx ty : Z) (p : Tamagotchi) : Tamagotchi :=
  if is_egg (stage p) then set_stage BABY p
  else if (410 <=? ty) && (ty <=? 445) then
    let btn_w := 70 in
    let btn_spacing := 5 in
    let total_width := btn_w * 4 + btn_spacing * 3 in
    let start_x := Z.quot (AMOLED_1IN8_WIDTH - total_width) 2 in
    if (start_x <=? tx) && (tx <=? start_x + btn_w) then feed p
    else if (start_x + btn_w + btn_spacing <=? tx)
            && (tx <=? start_x + btn_w * 2 + btn_spacing) then play p
    else if (start_x + btn_w * 2 + btn_spacing * 2 <=? tx)
            && (tx <=? start_x + btn_w * 3 + btn_spacing * 2) then clean p
    else if (start_x + btn_w * 3 + btn_spacing * 3 <=? tx)
            && (tx <=? start_x + btn_w * 4 + btn_spacing * 3) then medicine p
    else p
  else if (80 <? ty) && (ty <? 280) then petting p
  else p.

(** The body of [if (now - last_stat_decay > 30000)] in [loop], after
    the timestamp update. *)
Definition decay (p : Tamagotchi) : Tamagotchi :=
  let p1 := if 0 <? hunger p
            then set_hunger (to_u8 (Z.max 0 (hunger p - 2))) p else p in
  let p2 := if 0 <? happiness p1
            then set_happiness (to_u8 (Z.max 0 (happiness p1 - 1))) p1
            else p1 in
  let p3 := if 0 <? cleanliness p2
            then set_cleanliness (to_u8 (Z.max 0 (cleanliness p2 - 1))) p2
            else p2 in
  if (hunger p3 <? 20) || (happiness p3 <? 20) || (cleanliness p3 <? 30)
  then set_health (to_u8 (Z.max 0 (health p3 - 3))) p3
  else p3.

(** The trailing guards of the pet section ([if (pet.hunger < 0) ...]). *)
Definition floor_stats (p : Tamagotchi) : Tamagotchi :=
  let p1 := if hunger p <? 0 then set_hunger 0 p else p in
  let p2 := if happiness p1 <? 0 then set_happiness 0 p1 else p1 in
  if health p2 <? 0 then set_health 0 p2 else p2.

(** The function-local [static] timestamps of [loop]. *)
Record PetTimers := mkPetTimers {
  last_stat_decay : Z;
  last_redraw : Z
}.

Definition initial_timers : PetTimers :=
  {| last_stat_decay := 0; last_redraw := 0 |}.

(** The pet section of [loop] for one iteration at time [now]
    ([uint32_t] differences wrap).  It draws from the generator for the
    animation offsets, which are stored into [int8_t] members. *)
Definition loop_pet (now : Z) (st : Rng.rng_state) (tm : PetTimers)
    (p : Tamagotchi) : Rng.rng_state * PetTimers * Tamagotchi :=
  let '(st1, p1) :=
    if 3000 <? to_ulong (now - last_creature_move p) then
      let pa := set_last_creature_move now p in
      let '(ox, s1) := Rng.rng2 (-5) 6 st in
      let pb := set_creature_offset_x (to_i8 ox) pa in
      let '(oy, s2) := Rng.rng2 (-5) 6 s1 in
      (s2, set_creature_offset_y (to_i8 oy) pb)
    else (st, p) in
  let '(st2, p2) :=
    if 1000 <? to_ulong (now - last_eye_move p1) then
      let pa := set_last_eye_move now p1 in
      let '(ox, s1) := Rng.rng2 (-3) 4 st1 in
      let pb := set_eye_offset_x (to_i8 ox) pa in
      let '(oy, s2) := Rng.rng2 (-3) 4 s1 in
      (s2, set_eye_offset_y (to_i8 oy) pb)
    else (st1, p1) in
  let '(tm1, p3) :=
    if 30000 <? to_ulong (now - last_stat_decay tm) then
      ({| last_stat_decay := now; last_redraw := last_redraw tm |}, decay p2)
    else (tm, p2) in
  let tm2 :=
    if 1000 <? to_ulong (now - last_redraw tm1)
    then {| last_stat_decay := last_stat_decay tm1; last_redraw := now |}
    else tm1 in
  (st2, tm2, floor_stats p3).

(** What can happen to the pet while its screen is shown. *)
Inductive pet_event :=
| Touch (tx ty : Z)
| LoopTick (now : Z).

Definition pet_state : Type := Rng.rng_state * PetTimers * Tamagotchi.

Definition pet_step (e : pet_event) (s : pet_state) : pet_state :=
  let '(st, tm, p) := s in
  match e with
  | Touch tx ty => (st, tm, pet_touch tx ty p)
  | LoopTick now => loop_pet now st tm p
  end.

(** States reached from the boot state by any sequence of events. *)
Inductive pet_reachable : pet_state -> Prop :=
| reach_init (now : Z) (st : Rng.rng_state) :
    pet_reachable (st, initial_timers, init_pet now)
| reach_step (e : pet_event) (s : pet_state) :
    pet_reachable s -> pet_reachable (pet_step e s).

Definition stat_ok (v : Z) : Prop := 0 <= v <= 100.

Definition stats_ok (p : Tamagotchi) : Prop :=
  stat_ok (hunger p) /\ stat_ok (happiness p) /\
  stat_ok (health p) /\ stat_ok (cleanliness p).

(** The members nothing but [init_pet] writes, and the two stages a
    pet is ever in. *)
Definition never_written (p : Tamagotchi) : Prop :=
  (stage p = EGG \/ stage p = BABY) /\
  name p = "Buddy"%string /\ mood p = NEUTRAL /\
  age_hours p = 0 /\ age_days p = 0 /\
  is_sleeping p = false /\ needs_cleanup p = false.

(** The animation offsets are within the ranges they are drawn from. *)
Definition offsets_small (p : Tamagotchi) : Prop :=
  -5 <= creature_offset_x p <= 5 /\ -5 <= creature_offset_y p <= 5 /\
  -3 <= eye_offset_x p <= 3 /\ -3 <= eye_offset_y p <= 3.

(** [n] decay periods in a row. *)
Definition neglect (n : nat) (p : Tamagotchi) : Tamagotchi :=
  Nat.iter n decay p.

End Pet.

(** ** State shared by the four arcade games

  [rng_seed], [game_over], [game_score] and [high_scores[4]]
  (asteroids, tetris, snake, breakout).  [int] values that stay far
  from the 32-bit limits are plain integers. *)

Module Arcade.

Record Shared := mkShared {
  rng_seed : Rng.rng_state;
  game_over : bool;
  game_score : Z;
  high_scores : list Z
}.

Definition set_rng (v : Rng.rng_state) (sh : Shared) : Shared :=
  {| rng_seed := v; game_over := game_over sh;
     game_score := game_score sh; high_scores := high_scores sh |}.

Definition set_game_over (v : bool) (sh : Shared) : Shared :=
  {| rng_seed := rng_seed sh; game_over := v;
     game_score := game_score sh; high_scores := high_scores sh |}.

Definition set_game_score (v : Z) (sh : Shared) : Shared :=
  {| rng_seed := rng_seed sh; game_over := game_over sh;
     game_score := v; high_scores := high_scores sh |}.

Definition set_high_scores (v : list Z) (sh : Shared) : Shared :=
  {| rng_seed := rng_seed sh; game_over := game_over sh;
     game_score := game_score sh; high_scores := v |}.

(** [high_scores[i]] for a constant index [i] in [0..3]. *)
Definition high_score (i : nat) (sh : Shared) : Z :=
  default 0 (high_scores sh !! i).

(** [game_over = true; if (game_score > high_scores[i]) high_scores[i] =
    game_score;] as it ends each of the four games. *)
Definition end_game (i : nat) (sh : Shared) : Shared :=
  let sh1 := set_game_over true sh in
  if high_score i sh1 <? game_score sh1
  then set_high_scores (<[i := game_score sh1]> (high_scores sh1)) sh1
  else sh1.

(** Reading [a[i]] and [a[i][j]] from arrays of [int] at an [int]
    index.  The code only reads inside the bounds; outside them this
    model yields [0]. *)
Definition get (a : list Z) (i : Z) : Z :=
  if i <? 0 then 0 else default 0 (a !! Z.to_nat i).

Definition get_row (a : list (list Z)) (i : Z) : list Z :=
  if i <? 0 then [] else default [] (a !! Z.to_nat i).

Definition get2 (a : list (list Z)) (i j : Z) : Z := get (get_row a i) j.

(** [a[i] = v] and [a[i][j] = v]. *)
Definition put {A} (a : list A) (i : Z) (v : A) : list A :=
  if i <? 0 then a else <[Z.to_nat i := v]> a.

Definition put2 (a : list (list Z)) (i j : Z) (v : Z) : list (list Z) :=
  put a i (put (get_row a i) j v).

(** C truth value of an [int]. *)
Definition truthy (v : Z) : bool := negb (v =? 0).

End Arcade.

(** ** Tetris *)

Module Tetris.
Import Arcade.

Definition GRID_W : Z := 10.
Definition GRID_H : Z := 20.

(** [tetris_grid[GRID_H][GRID_W]] is a list of rows, row 0 on top;
    [tetris_current_piece[4][4]] likewise. *)
Record State := mkState {
  tetris_grid : list (list Z);
  tetris_current_piece : list (list Z);
  tetris_current_type : Z;
  tetris_next_type : Z;
  tetris_piece_x : Z;
  tetris_piece_y : Z;
  tetris_last_drop : Z;
  tetris_drop_speed : Z;
  tetris_lines_cleared : Z;
  tetris_piece_placed : bool
}.

Definition set_grid (v : list (list Z)) (t : State) : State :=
  {| tetris_grid := v; tetris_current_piece := tetris_current_piece t;
     tetris_current_type := tetris_current_type t;
     tetris_next_type := tetris_next_type t;
     tetris_piece_x := tetris_piece_x t; tetris_piece_y := tetris_piece_y t;
     tetris_last_drop := tetris_last_drop t;
     tetris_drop_speed := tetris_drop_speed t;
     tetris_lines_cleared := tetris_lines_cleared t;
     tetris_piece_placed := tetris_piece_placed t |}.

Definition set_piece (v : list (list Z)) (t : State) : State :=
  {| tetris_grid := tetris_grid t; tetris_current_piece := v;
     tetris_current_type := tetris_current_type t;
     tetris_next_type := tetris_next_type t;
     tetris_piece_x := tetris_piece_x t; tetris_piece_y := tetris_piece_y t;
     tetris_last_drop := tetris_last_drop t;
     tetris_drop_speed := tetris_drop_speed t;
     tetris_lines_cleared := tetris_lines_cleared t;
     tetris_piece_placed := tetris_piece_placed t |}.

Definition set_types (cur next : Z) (t : State) : State :=
  {| tetris_grid := tetris_grid t;
     tetris_current_piece := tetris_current_piece t;
     tetris_current_type := cur; tetris_next_type := next;
     tetris_piece_x := tetris_piece_x t; tetris_piece_y := tetris_piece_y t;
     tetris_last_drop := tetris_last_drop t;
     tetris_drop_speed := tetris_drop_speed t;
     tetris_lines_cleared := tetris_lines_cleared t;
     tetris_piece_placed := tetris_piece_placed t |}.

Definition set_pos (x y : Z) (t : State) : State :=
  {| tetris_grid := tetris_grid t;
     tetris_current_piece := tetris_current_piece t;
     tetris_current_type := tetris_current_type t;
     tetris_next_type := tetris_next_type t;
     tetris_piece_x := x; tetris_piece_y := y;
     tetris_last_drop := tetris_last_drop t;
     tetris_drop_speed := tetris_drop_speed t;
     tetris_lines_cleared := tetris_lines_cleared t;
     tetris_piece_placed := tetris_piece_placed t |}.

Definition set_last_drop (v : Z) (t : State) : State :=
  {| tetris_grid := tetris_grid t;
     tetris_current_piece := tetris_current_piece t;
     tetris_current_type := tetris_current_type t;
     tetris_next_type := tetris_next_type t;
     tetris_piece_x := tetris_piece_x t; tetris_piece_y := tetris_piece_y t;
     tetris_last_drop := v;
     tetris_drop_speed := tetris_drop_speed t;
     tetris_lines_cleared := tetris_lines_cleared t;
     tetris_piece_placed := tetris_piece_placed t |}.

Definition set_speed (speed lines : Z) (t : State) : State :=
  {| tetris_grid := tetris_grid t;
     tetris_current_piece := tetris_current_piece t;
     tetris_current_type := tetris_current_type t;
     tetris_next_type := tetris_next_type t;
     tetris_piece_x := tetris_piece_x t; tetris_piece_y := tetris_piece_y t;
     tetris_last_drop := tetris_last_drop t;
     tetris_drop_speed := speed;
     tetris_lines_cleared := lines;
     tetris_piece_placed := tetris_piece_placed t |}.

(** [const int tetris_pieces[7][4][4]]: I, O, S, Z, T, L, J. *)
Definition tetris_pieces : list (list (list Z)) :=
  [ [[0;1;0;0]; [0;1;0;0]; [0;1;0;0]; [0;1;0;0]];
    [[1;1;0;0]; [1;1;0;0]; [0;0;0;0]; [0;0;0;0]];
    [[0;1;1;0]; [1;1;0;0]; [0;0;0;0]; [0;0;0;0]];
    [[1;1;0;0]; [0;1;1;0]; [0;0;0;0]; [0;0;0;0]];
    [[1;1;1;0]; [0;1;0;0]; [0;0;0;0]; [0;0;0;0]];
    [[1;0;0;0]; [1;0;0;0]; [1;1;0;0]; [0;0;0;0]];
    [[0;1;0;0]; [0;1;0;0]; [1;1;0;0]; [0;0;0;0]] ].

Definition piece_pattern (type : Z) : list (list Z) :=
  if type <? 0 then [] else default [] (tetris_pieces !! Z.to_nat type).

Definition empty_row : list Z := replicate (Z.to_nat GRID_W) 0.
Definition empty_grid : list (list Z) := replicate (Z.to_nat GRID_H) empty_row.

(** The copy loop [tetris_current_piece[y][x] = tetris_pieces[type][y][x]]. *)
Definition copy_pattern (type : Z) : list (list Z) :=
  map (fun y => map (fun x => get2 (piece_pattern type) y x) (seqZ 0 4))
      (seqZ 0 4).

(** The globals at program start. *)
Definition boot : State :=
  {| tetris_grid := empty_grid;
     tetris_current_piece := replicate 4 (replicate 4 0);
     tetris_current_type := 0; tetris_next_type := 0;
     tetris_piece_x := 3; tetris_piece_y := 0;
     tetris_last_drop := 0; tetris_drop_speed := 500;
     tetris_lines_cleared := 0; tetris_piece_placed := false |}.

(** [void init_tetris()] *)
Definition init_tetris (now : Z) (sh : Shared) (t : State) : Shared * State :=
  let sh1 := set_game_over false (set_game_score 0 sh) in
  let '(cur, s1) := Rng.rng1 7 (rng_seed sh1) in
  let '(next, s2) := Rng.rng1 7 s1 in
  (set_rng s2 sh1,
   {| tetris_grid := empty_grid;
      tetris_current_piece := copy_pattern cur;
      tetris_current_type := cur; tetris_next_type := next;
      tetris_piece_x := 3; tetris_piece_y := 0;
      tetris_last_drop := now; tetris_drop_speed := 500;
      tetris_lines_cleared := 0; tetris_piece_placed := false |}).

(** One cell of the double loop of [tetris_can_place_piece]: [true]
    when the loop goes on, [false] when it returns [false]. *)
Definition cell_ok (grid : list (list Z)) (px py : Z) (piece : list (list Z))
    (y x : Z) : bool :=
  if truthy (get2 piece y x) then
    let nx := px + x in
    let ny := py + y in
    if (nx <? 0) || (GRID_W <=? nx) || (GRID_H <=? ny) then false
    else if (0 <=? ny) && truthy (get2 grid ny nx) then false
    else true
  else true.

(** [bool tetris_can_place_piece(int px, int py, int piece[4][4])] *)
Definition tetris_can_place_piece (grid : list (list Z)) (px py : Z)
    (piece : list (list Z)) : bool :=
  forallb (fun y => forallb (fun x => cell_ok grid px py piece y x) (seqZ 0 4))
          (seqZ 0 4).

(** [void tetris_place_piece()]: the cells of the piece, row by row. *)
Definition place_cell (t : State) (grid : list (list Z)) (yx : Z * Z)
    : list (list Z) :=
  let '(y, x) := yx in
  if truthy (get2 (tetris_current_piece t) y x) then
    let nx := tetris_piece_x t + x in
    let ny := tetris_piece_y t + y in
    if (0 <=? ny) && (ny <? GRID_H) && (0 <=? nx) && (nx <? GRID_W)
    then put2 grid ny nx (tetris_current_type t + 1)
    else grid
  else grid.

Definition cells44 : list (Z * Z) :=
  y ← seqZ 0 4; x ← seqZ 0 4; [(y, x)].

Definition tetris_place_piece (t : State) : State :=
  set_grid (foldl (place_cell t) (tetris_grid t) cells44) t.

(** The inner loop of [tetris_clear_lines] that decides [full]. *)
Definition row_full (r : list Z) : bool :=
  forallb (fun x => truthy (get r x)) (seqZ 0 GRID_W).

(** "Move everything down": [for (move_y = y; move_y > 0; move_y--)]
    copies row [move_y - 1] into row [move_y]; [k] counts the
    iterations left, so the row written is row [k]. *)
Fixpoint move_down (k : nat) (grid : list (list Z)) : list (list Z) :=
  match k with
  | O => grid
  | S k' => move_down k' (<[S k' := default [] (grid !! k')]> grid)
  end.

(** The body of [if (full)] without the counters: move down, then
    clear the top line. *)
Definition remove_row (grid : list (list Z)) (y : Z) : list (list Z) :=
  <[O := empty_row]> (move_down (Z.to_nat y) grid).

(** The loop [for (y = GRID_H - 1; y >= 0; y--)] with its [y++] on a
    full row.  [fuel] bounds the number of iterations; [None] means the
    bound was reached. *)
Fixpoint clear_loop (fuel : nat) (grid : list (list Z)) (y lines : Z)
    : option (list (list Z) * Z) :=
  match fuel with
  | O => None
  | S fuel' =>
      if y <? 0 then Some (grid, lines)
      else if row_full (get_row grid y)
      then clear_loop fuel' (remove_row grid y) (y + 1 - 1) (lines + 1)
      else clear_loop fuel' grid (y - 1) lines
  end.

(** Every iteration either removes a full row or moves up one row, so
    [2 * GRID_H + 1] iterations are enough (see [clear_loop_total]). *)
Definition clear_fuel : nat := Z.to_nat (2 * GRID_H + 1).

(** [void tetris_clear_lines()] *)
Definition tetris_clear_lines (sh : Shared) (t : State)
    : option (Shared * State) :=
  '(grid, lines) ← clear_loop clear_fuel (tetris_grid t) (GRID_H - 1) 0;
  let t1 := set_grid grid t in
  if 0 <? lines then
    let total := tetris_lines_cleared t1 + lines in
    let sh1 := set_game_score (game_score sh + lines * 100) sh in
    if 10 <=? total
    then Some (sh1, set_speed (Z.max 100 (tetris_drop_speed t1 - 50)) 0 t1)
    else Some (sh1, set_speed (tetris_drop_speed t1) total t1)
  else Some (sh, t1).

(** [temp[i][j] = tetris_current_piece[3-j][i]] *)
Definition rotated (piece : list (list Z)) : list (list Z) :=
  map (fun i => map (fun j => get2 piece (3 - j) i) (seqZ 0 4)) (seqZ 0 4).

Definition kick_offsets : list (Z * Z) :=
  [(-1, 0); (1, 0); (-2, 0); (2, 0); (0, -1)].

(** The wall-kick loop, from offset [i] on. *)
Fixpoint try_kicks (offsets : list (Z * Z)) (temp : list (list Z))
    (t : State) : State :=
  match offsets with
  | [] => t
  | (dx, dy) :: rest =>
      let new_x := tetris_piece_x t + dx in
      let new_y := tetris_piece_y t + dy in
      if tetris_can_place_piece (tetris_grid t) new_x new_y temp
      then set_piece temp (set_pos new_x new_y t)
      else try_kicks rest temp t
  end.

(** [void tetris_rotate_piece()] *)
Definition tetris_rotate_piece (t : State) : State :=
  let temp := rotated (tetris_current_piece t) in
  if tetris_can_place_piece (tetris_grid t) (tetris_piece_x t)
       (tetris_piece_y t) temp
  then set_piece temp t
  else try_kicks kick_offsets temp t.

(** [void tetris_spawn_new_piece()] *)
Definition tetris_spawn_new_piece (sh : Shared) (t : State) : Shared * State :=
  let cur := tetris_next_type t in
  let '(next, s1) := Rng.rng1 7 (rng_seed sh) in
  let sh1 := set_rng s1 sh in
  let t1 := set_piece (copy_pattern cur)
              (set_pos 3 0 (set_types cur next t)) in
  if negb (tetris_can_place_piece (tetris_grid t1) (tetris_piece_x t1)
             (tetris_piece_y t1) (tetris_current_piece t1))
  then (end_game 1 sh1, t1)
  else (sh1, t1).

(** [void update_tetris()]; [now] is [millis()], and the comparison
    [now - tetris_last_drop > tetris_drop_speed] is unsigned. *)
Definition update_tetris (now : Z) (sh : Shared) (t : State)
    : option (Shared * State) :=
  if game_over sh then Some (sh, t)
  else if CInt.to_ulong (tetris_drop_speed t)
            <? CInt.to_ulong (now - tetris_last_drop t) then
    let t1 := set_last_drop now t in
    if tetris_can_place_piece (tetris_grid t1) (tetris_piece_x t1)
         (tetris_piece_y t1 + 1) (tetris_current_piece t1)
    then Some (sh, set_pos (tetris_piece_x t1) (tetris_piece_y t1 + 1) t1)
    else
      '(sh2, t2) ← tetris_clear_lines sh (tetris_place_piece t1);
      Some (tetris_spawn_new_piece sh2 t2)
  else Some (sh, t).

(** The [TETRIS] branch of [handle_touch]. *)
Definition touch_tetris (now tx : Z) (sh : Shared) (t : State)
    : Shared * State :=
  if game_over sh then init_tetris now sh t
  else
    let left := tx <? 123 in
    let middle := (123 <=? tx) && (tx <=? 245) in
    let right := 245 <? tx in
    if left then
      if tetris_can_place_piece (tetris_grid t) (tetris_piece_x t - 1)
           (tetris_piece_y t) (tetris_current_piece t)
      then (sh, set_pos (tetris_piece_x t - 1) (tetris_piece_y t) t)
      else (sh, t)
    else if middle then (sh, tetris_rotate_piece t)
    else if right then
      if tetris_can_place_piece (tetris_grid t) (tetris_piece_x t + 1)
           (tetris_piece_y t) (tetris_current_piece t)
      then (sh, set_pos (tetris_piece_x t + 1) (tetris_piece_y t) t)
      else (sh, t)
    else (sh, t).

(** A grid of [GRID_H] rows of [GRID_W] cells, as the C array is. *)
Definition grid_wf (grid : list (list Z)) : Prop :=
  length grid = Z.to_nat GRID_H /\
  Forall (fun r => length r = Z.to_nat GRID_W) grid.

(** What the specification says a line clear yields: the rows that are
    not full in their order, under as many empty rows as were removed. *)
Definition full_count (grid : list (list Z)) : nat :=
  length (filter (fun r => row_full r = true) grid).

Definition cleared (grid : list (list Z)) : list (list Z) :=
  replicate (full_count grid) empty_row
    ++ filter (fun r => row_full r <> true) grid.

(** An upright I piece against the left wall of an empty grid. *)
Definition wall_state : State :=
  {| tetris_grid := empty_grid;
     tetris_current_piece := copy_pattern 0;
     tetris_current_type := 0; tetris_next_type := 1;
     tetris_piece_x := -1; tetris_piece_y := 0;
     tetris_last_drop := 0; tetris_drop_speed := 500;
     tetris_lines_cleared := 0; tetris_piece_placed := false |}.


Definition two_lines_shared : Shared :=
  {| rng_seed := Rng.initial; game_over := false; game_score := 300;
     high_scores := [0; 0; 0; 0] |}.

(** What can happen to a Tetris game while it is the selected game: a
    touch at column [tx] or an advance from [loop], both at time
    [now]. *)
Inductive event :=
| Touch (now tx : Z)
| Tick (now : Z).

Definition step (e : event) (g : Shared * State) : option (Shared * State) :=
  match e with
  | Touch now tx => Some (touch_tetris now tx (fst g) (snd g))
  | Tick now => update_tetris now (fst g) (snd g)
  end.

(** The states a game goes through after it was started with
    [init_tetris]. *)
Inductive reachable : Shared * State -> Prop :=
| reach_init (now : Z) (sh : Shared) (t : State) :
    reachable (init_tetris now sh t)
| reach_step (e : event) (g g' : Shared * State) :
    reachable g -> step e g = Some g' -> reachable g'.

(** The current piece has a block on the grid cell in row [r], column
    [c]. *)
Definition covers (t : State) (r c : Z) : bool :=
  (0 <=? r - tetris_piece_y t) && (r - tetris_piece_y t <? 4)
  && (0 <=? c - tetris_piece_x t) && (c - tetris_piece_x t <? 4)
  && truthy (get2 (tetris_current_piece t)
               (r - tetris_piece_y t) (c - tetris_piece_x t)).

(** The number of blocks of a piece. *)
Definition blocks (piece : list (list Z)) : Z :=
  foldr Z.add 0
    (map (fun yx : Z * Z => if truthy (get2 piece yx.1 yx.2) then 1 else 0)
       cells44).

(** A 4 by 4 array. *)
Definition piece_wf (piece : list (list Z)) : Prop :=
  length piece = 4%nat /\ Forall (fun r => length r = 4%nat) piece.

(** The tests of [tetris_can_place_piece] pass for the current piece
    where it is. *)
Definition piece_fits (t : State) : Prop :=
  tetris_can_place_piece (tetris_grid t) (tetris_piece_x t)
    (tetris_piece_y t) (tetris_current_piece t) = true.

(** The current piece is the pattern of its type, turned [k] times. *)
Definition piece_shape (t : State) (k : nat) : Prop :=
  tetris_current_piece t
    = Nat.iter k rotated (copy_pattern (tetris_current_type t)).

(** What holds in every state of a game. *)
Definition game_inv (g : Shared * State) : Prop :=
  grid_wf (tetris_grid g.2) /\
  0 <= tetris_current_type g.2 < 7 /\
  0 <= tetris_next_type g.2 < 7 /\
  (exists k, piece_shape g.2 k) /\
  (game_over g.1 = false -> piece_fits g.2).

(** A game started at time 0 from the program's start state. *)
Definition started : Shared * State := init_tetris 0 two_lines_shared boot.

End Tetris.

(** ** Snake *)

Module Snake.
Import Arcade.

Definition SNAKE_MAX_LENGTH : Z := 100.
Definition SNAKE_GRID_W : Z := 20.
Definition SNAKE_GRID_H : Z := 30.

(** [snake_x] and [snake_y] are the arrays of [SNAKE_MAX_LENGTH]
    cells; only the first [snake_length] cells are the snake, the rest
    keeps whatever was stored there before. *)
Record State := mkState {
  snake_x : list Z;
  snake_y : list Z;
  snake_length : Z;
  snake_dir : Z;
  snake_food_x : Z;
  snake_food_y : Z;
  snake_last_move : Z;
  snake_speed : Z
}.

Definition set_dir (v : Z) (s : State) : State :=
  {| snake_x := snake_x s; snake_y := snake_y s;
     snake_length := snake_length s; snake_dir := v;
     snake_food_x := snake_food_x s; snake_food_y := snake_food_y s;
     snake_last_move := snake_last_move s; snake_speed := snake_speed s |}.

Definition set_last_move (v : Z) (s : State) : State :=
  {| snake_x := snake_x s; snake_y := snake_y s;
     snake_length := snake_length s; snake_dir := snake_dir s;
     snake_food_x := snake_food_x s; snake_food_y := snake_food_y s;
     snake_last_move := v; snake_speed := snake_speed s |}.

Definition set_food (fx fy : Z) (s : State) : State :=
  {| snake_x := snake_x s; snake_y := snake_y s;
     snake_length := snake_length s; snake_dir := snake_dir s;
     snake_food_x := fx; snake_food_y := fy;
     snake_last_move := snake_last_move s; snake_speed := snake_speed s |}.

Definition set_growth (len speed : Z) (s : State) : State :=
  {| snake_x := snake_x s; snake_y := snake_y s;
     snake_length := len; snake_dir := snake_dir s;
     snake_food_x := snake_food_x s; snake_food_y := snake_food_y s;
     snake_last_move := snake_last_move s; snake_speed := speed |}.

Definition set_body (xs ys : list Z) (s : State) : State :=
  {| snake_x := xs; snake_y := ys;
     snake_length := snake_length s; snake_dir := snake_dir s;
     snake_food_x := snake_food_x s; snake_food_y := snake_food_y s;
     snake_last_move := snake_last_move s; snake_speed := snake_speed s |}.

(** The arrays at program start (zero-initialised globals). *)
Definition boot : State :=
  {| snake_x := replicate (Z.to_nat SNAKE_MAX_LENGTH) 0;
     snake_y := replicate (Z.to_nat SNAKE_MAX_LENGTH) 0;
     snake_length := 4; snake_dir := 0;
     snake_food_x := 0; snake_food_y := 0;
     snake_last_move := 0; snake_speed := 300 |}.

(** [bool snake_check_collision(int x, int y)] *)
Definition snake_check_collision (s : State) (x y : Z) : bool :=
  if (x <? 0) || (SNAKE_GRID_W <=? x) || (y <? 0) || (SNAKE_GRID_H <=? y)
  then true
  else existsb (fun i => (get (snake_x s) i =? x) && (get (snake_y s) i =? y))
         (seqZ 0 (snake_length s)).

(** The [do ... while] of [init_snake]; each round draws two numbers.
    [fuel] bounds the number of rounds, [None] means it was reached. *)
Fixpoint init_food (fuel : nat) (st : Rng.rng_state) (s : State)
    : option (Rng.rng_state * Z * Z) :=
  match fuel with
  | O => None
  | S fuel' =>
      let '(fx, st1) := Rng.rng2 2 (SNAKE_GRID_W - 2) st in
      let '(fy, st2) := Rng.rng2 2 (SNAKE_GRID_H - 2) st1 in
      if ((fx =? get (snake_x s) 0) && (fy =? get (snake_y s) 0))
         && (fx <? SNAKE_GRID_W) && (fy <? SNAKE_GRID_H)
      then init_food fuel' st2 s
      else Some (st2, fx, fy)
  end.

(** The loop [for (i = 0; i < snake_length && i < SNAKE_MAX_LENGTH; i++)]
    of [init_snake]. *)
Definition init_body (start_x start_y : Z) (s : State) : State :=
  foldl (fun acc i =>
           set_body (put (snake_x acc) i (start_x - i))
                    (put (snake_y acc) i start_y) acc)
        s
        (filter (fun i => i < SNAKE_MAX_LENGTH) (seqZ 0 (snake_length s))).

(** [void init_snake()] *)
Definition init_snake (fuel : nat) (now : Z) (sh : Shared) (s : State)
    : option (Shared * State) :=
  let sh1 := set_game_over false (set_game_score 0 sh) in
  let s1 := set_last_move now (set_dir 0 (set_growth 4 300 s)) in
  let start_x := Z.max 4 (Z.quot SNAKE_GRID_W 2) in
  let start_y := Z.max 4 (Z.quot SNAKE_GRID_H 2) in
  let s2 := init_body start_x start_y s1 in
  '(st, fx, fy) ← init_food fuel (rng_seed sh1) s2;
  Some (set_rng st sh1, set_food fx fy s2).

(** The [switch (snake_dir)] that computes the new head. *)
Definition next_head (dir x y : Z) : Z * Z :=
  if dir =? 0 then (x + 1, y)
  else if dir =? 1 then (x, y + 1)
  else if dir =? 2 then (x - 1, y)
  else if dir =? 3 then (x, y - 1)
  else (x, y).

(** The [do ... while (snake_check_collision(...))] that places new
    food; the check reads the arrays as they are at that point. *)
Fixpoint place_food (fuel : nat) (st : Rng.rng_state) (s : State)
    : option (Rng.rng_state * Z * Z) :=
  match fuel with
  | O => None
  | S fuel' =>
      let '(fx, st1) := Rng.rng1 SNAKE_GRID_W st in
      let '(fy, st2) := Rng.rng1 SNAKE_GRID_H st1 in
      if snake_check_collision s fx fy
      then place_food fuel' st2 s
      else Some (st2, fx, fy)
  end.

(** "Move snake": [for (i = snake_length - 1; i > 0; i--)
    a[i] = a[i-1];] on one array; [k] counts the iterations left. *)
Fixpoint shift_body (k : nat) (a : list Z) : list Z :=
  match k with
  | O => a
  | S k' => shift_body k' (put a (Z.of_nat (S k')) (get a (Z.of_nat k')))
  end.

(** [void update_snake()]; [now] is [millis()].  [snake_speed] is
    converted to unsigned for the comparison with the elapsed time. *)
Definition update_snake (fuel : nat) (now : Z) (sh : Shared) (s : State)
    : option (Shared * State) :=
  if game_over sh then Some (sh, s)
  else if CInt.to_ulong (now - snake_last_move s)
            <? CInt.to_ulong (snake_speed s) then Some (sh, s)
  else
    let s1 := set_last_move now s in
    let '(new_x, new_y) :=
      next_head (snake_dir s1) (get (snake_x s1) 0) (get (snake_y s1) 0) in
    if snake_check_collision s1 new_x new_y then Some (end_game 2 sh, s1)
    else
      let ate_food :=
        (new_x =? snake_food_x s1) && (new_y =? snake_food_y s1) in
      '(sh2, s2) ←
        (if ate_food then
           let sh' := set_game_score (game_score sh + 10) sh in
           let s' := set_growth (snake_length s1 + 1)
                       (Z.max 100 (snake_speed s1 - 5)) s1 in
           '(st, fx, fy) ← place_food fuel (rng_seed sh') s';
           Some (set_rng st sh', set_food fx fy s')
         else Some (sh, s1));
      let k := Z.to_nat (snake_length s2 - 1) in
      let xs := put (shift_body k (snake_x s2)) 0 new_x in
      let ys := put (shift_body k (snake_y s2)) 0 new_y in
      Some (sh2, set_body xs ys s2).

(** The direction a touch at [(tx, ty)] selects. *)
Definition touch_dir (tx ty : Z) : Z :=
  if tx <? Z.quot Display.AMOLED_1IN8_WIDTH 3 then 2
  else if Z.quot (Display.AMOLED_1IN8_WIDTH * 2) 3 <? tx then 0
  else if ty <? Z.quot Display.AMOLED_1IN8_HEIGHT 2 then 3
  else 1.

(** The [SNAKE] branch of [handle_touch]. *)
Definition touch_snake (fuel : nat) (now tx ty : Z) (sh : Shared) (s : State)
    : option (Shared * State) :=
  if game_over sh then init_snake fuel now sh s
  else Some (sh, set_dir (touch_dir tx ty) s).

(** The cells of the snake: the first [snake_length] entries. *)
Definition segments (s : State) : list (Z * Z) :=
  map (fun i => (get (snake_x s) i, get (snake_y s) i))
      (seqZ 0 (snake_length s)).

(** The direction opposite to [dir]. *)
Definition opposite (dir : Z) : Z := (dir + 2) mod 4.

(** The two arrays have their declared size. *)
Definition arrays_wf (s : State) : Prop :=
  length (snake_x s) = Z.to_nat SNAKE_MAX_LENGTH /\
  length (snake_y s) = Z.to_nat SNAKE_MAX_LENGTH.

(** A tick is due at [now]: the early return of [update_snake] on the
    elapsed time is not taken. *)
Definition tick_due (now : Z) (s : State) : Prop :=
  (CInt.to_ulong (now - snake_last_move s)
     <? CInt.to_ulong (snake_speed s)) = false.

(** A snake of length 4 heading right along row 15 with the food in
    the cell ahead of its head, and the generator in its start state. *)
Definition eat_state : State :=
  {| snake_x := [9; 8; 7; 6] ++ replicate 96 0;
     snake_y := [15; 15; 15; 15] ++ replicate 96 0;
     snake_length := 4; snake_dir := 0;
     snake_food_x := 10; snake_food_y := 15;
     snake_last_move := 0; snake_speed := 300 |}.

Definition eat_shared : Shared :=
  {| rng_seed := Rng.initial; game_over := false; game_score := 0;
     high_scores := [0; 0; 0; 0] |}.

(** The shared state after [seed_rng(25045)], before any game. *)
Definition seeded_shared : Shared :=
  {| rng_seed := Rng.seed_rng 25045 Rng.initial; game_over := false;
     game_score := 0; high_scores := [0; 0; 0; 0] |}.

(** A new game started at time 0 and left alone for two ticks, at
    times 300 and 600. *)
Definition two_ticks : option (Shared * State) :=
  '(sh1, s1) ← init_snake 1 0 seeded_shared boot;
  '(sh2, s2) ← update_snake 1 300 sh1 s1;
  update_snake 1 600 sh2 s2.

(** Score and tick interval as the number of foods eaten fixes them. *)
Definition score_speed_ok (sh : Shared) (s : State) : Prop :=
  arrays_wf s /\
  4 <= snake_length s /\
  0 <= snake_dir s <= 3 /\
  game_score sh = 10 * (snake_length s - 4) /\
  snake_speed s = Z.max 100 (300 - 5 * (snake_length s - 4)).

(** What can happen to a Snake game while it is the selected game: a
    touch at [(tx, ty)] or an advance from [loop], both at time [now]. *)
Inductive event :=
| Touch (now tx ty : Z)
| Tick (now : Z).

Definition step (fuel : nat) (e : event) (g : Shared * State)
    : option (Shared * State) :=
  match e with
  | Touch now tx ty => touch_snake fuel now tx ty g.1 g.2
  | Tick now => update_snake fuel now g.1 g.2
  end.

End Snake.

(** ** Breakout *)

Module Breakout.
Import Arcade F32 Display.

Definition BRICK_ROWS : Z := 6.
Definition BRICK_COLS : Z := 8.
Definition BRICK_W : Z := 25.
Definition BRICK_H : Z := 12.

(** [paddle_y], [paddle_w], [paddle_h] and [ball_radius] are globals
    that no statement assigns. *)
Definition paddle_y : Z := 400.
Definition paddle_w : Z := 60.
Definition paddle_h : Z := 8.
Definition ball_radius : Z := 4.

Record State := mkState {
  bricks : list (list bool);
  ball_x : float;
  ball_y : float;
  ball_dx : float;
  ball_dy : float;
  paddle_x : float;
  bricks_remaining : Z
}.

Definition set_ball_pos (x y : float) (b : State) : State :=
  {| bricks := bricks b; ball_x := x; ball_y := y;
     ball_dx := ball_dx b; ball_dy := ball_dy b;
     paddle_x := paddle_x b; bricks_remaining := bricks_remaining b |}.

Definition set_ball_dx (v : float) (b : State) : State :=
  {| bricks := bricks b; ball_x := ball_x b; ball_y := ball_y b;
     ball_dx := v; ball_dy := ball_dy b;
     paddle_x := paddle_x b; bricks_remaining := bricks_remaining b |}.

Definition set_ball_dy (v : float) (b : State) : State :=
  {| bricks := bricks b; ball_x := ball_x b; ball_y := ball_y b;
     ball_dx := ball_dx b; ball_dy := v;
     paddle_x := paddle_x b; bricks_remaining := bricks_remaining b |}.

Definition set_paddle_x (v : float) (b : State) : State :=
  {| bricks := bricks b; ball_x := ball_x b; ball_y := ball_y b;
     ball_dx := ball_dx b; ball_dy := ball_dy b;
     paddle_x := v; bricks_remaining := bricks_remaining b |}.

Definition set_bricks (v : list (list bool)) (n : Z) (b : State) : State :=
  {| bricks := v; ball_x := ball_x b; ball_y := ball_y b;
     ball_dx := ball_dx b; ball_dy := ball_dy b;
     paddle_x := paddle_x b; bricks_remaining := n |}.

Definition all_bricks : list (list bool) :=
  replicate (Z.to_nat BRICK_ROWS) (replicate (Z.to_nat BRICK_COLS) true).

(** The state [init_breakout] stores: every brick set, the counter at
    48, the ball at (184, 300) with velocity (2, -3), the paddle
    centred. *)
Definition fresh : State :=
  {| bricks := all_bricks;
     ball_x := of_int (Z.quot AMOLED_1IN8_WIDTH 2);
     ball_y := of_int 300;
     ball_dx := of_int 2;
     ball_dy := of_int (-3);
     paddle_x := of_int (Z.quot (AMOLED_1IN8_WIDTH - paddle_w) 2);
     bricks_remaining := BRICK_ROWS * BRICK_COLS |}.

(** [void init_breakout()] *)
Definition init_breakout (sh : Shared) (b : State) : Shared * State :=
  (set_game_over false (set_game_score 0 sh), fresh).

Definition brick (b : State) (row col : Z) : bool :=
  if (row <? 0) || (col <? 0) then false
  else default false
         (default [] (bricks b !! Z.to_nat row) !! Z.to_nat col).

(** The condition of "Ball collision with paddle". *)
Definition paddle_collides (b : State) : bool :=
  fge (fadd (ball_y b) (of_int ball_radius)) (of_int paddle_y)
  && fle (fsub (ball_y b) (of_int ball_radius)) (of_int (paddle_y + paddle_h))
  && fge (ball_x b) (paddle_x b)
  && fle (ball_x b) (fadd (paddle_x b) (of_int paddle_w)).

(** [float hit_pos = (ball_x - paddle_x) / paddle_w;] *)
Definition hit_pos (b : State) : float :=
  fdiv (fsub (ball_x b) (paddle_x b)) (of_int paddle_w).

(** The body of the paddle [if]: [ball_dy = -abs(ball_dy);
    ball_dx = (hit_pos - 0.5f) * 4;] *)
Definition paddle_bounce (b : State) : State :=
  let b1 := set_ball_dy (fneg (arduino_abs (ball_dy b))) b in
  set_ball_dx (fmul (fsub (hit_pos b1) (lit 5 10)) (of_int 4)) b1.

(** The condition of "Ball collision with bricks" for the brick at
    [(row, col)]. *)
Definition brick_collides (b : State) (row col : Z) : bool :=
  let brick_x := col * Z.quot AMOLED_1IN8_WIDTH BRICK_COLS in
  let brick_y := 50 + row * BRICK_H in
  fge (fadd (ball_x b) (of_int ball_radius)) (of_int brick_x)
  && fle (fsub (ball_x b) (of_int ball_radius)) (of_int (brick_x + BRICK_W))
  && fge (fadd (ball_y b) (of_int ball_radius)) (of_int brick_y)
  && fle (fsub (ball_y b) (of_int ball_radius)) (of_int (brick_y + BRICK_H)).

Definition clear_brick (row col : Z) (v : list (list bool))
    : list (list bool) :=
  put v row (put (default [] (v !! Z.to_nat row)) col false).

(** "Level complete": [init_breakout(); ball_dx *= 1.2f;
    ball_dy *= 1.2f;] *)
Definition level_complete (sh : Shared) (b : State) : Shared * State :=
  let '(sh1, b1) := init_breakout sh b in
  let b2 := set_ball_dx (fmul (ball_dx b1) (lit 12 10)) b1 in
  (sh1, set_ball_dy (fmul (ball_dy b2) (lit 12 10)) b2).

(** The body of the brick [if], up to its [break]. *)
Definition hit_brick (row col : Z) (sh : Shared) (b : State)
    : Shared * State :=
  let b1 := set_bricks (clear_brick row col (bricks b))
              (bricks_remaining b - 1) b in
  let sh1 := set_game_score (game_score sh + 10) sh in
  let b2 := set_ball_dy (fneg (ball_dy b1)) b1 in
  if bricks_remaining b2 =? 0 then level_complete sh1 b2 else (sh1, b2).

(** The inner loop over the columns of one row; it stops at the first
    brick that is hit. *)
Fixpoint scan_cols (cols : list Z) (row : Z) (sh : Shared) (b : State)
    : Shared * State :=
  match cols with
  | [] => (sh, b)
  | col :: rest =>
      if negb (brick b row col) then scan_cols rest row sh b
      else if brick_collides b row col then hit_brick row col sh b
      else scan_cols rest row sh b
  end.

(** The outer loop over the rows; the [break] leaves only the inner
    loop, so the following rows are still scanned. *)
Fixpoint scan_rows (rows : list Z) (sh : Shared) (b : State)
    : Shared * State :=
  match rows with
  | [] => (sh, b)
  | row :: rest =>
      let '(sh1, b1) := scan_cols (seqZ 0 BRICK_COLS) row sh b in
      scan_rows rest sh1 b1
  end.

(** "Move ball" and "Ball collision with walls". *)
Definition move_ball (b : State) : State :=
  let b1 := set_ball_pos (fadd (ball_x b) (ball_dx b))
              (fadd (ball_y b) (ball_dy b)) b in
  let b2 :=
    if fle (ball_x b1) (of_int ball_radius)
       || fge (ball_x b1) (of_int (AMOLED_1IN8_WIDTH - ball_radius))
    then set_ball_dx (fneg (ball_dx b1)) b1 else b1 in
  if fle (ball_y b2) (of_int ball_radius)
  then set_ball_dy (fneg (ball_dy b2)) b2 else b2.

(** The paddle [if] as a whole. *)
Definition paddle_stage (b : State) : State :=
  if paddle_collides b then paddle_bounce b else b.

(** [void update_breakout()] *)
Definition update_breakout (sh : Shared) (b : State) : Shared * State :=
  if game_over sh then (sh, b)
  else
    let b1 := move_ball b in
    if fge (ball_y b1) (of_int (AMOLED_1IN8_HEIGHT - ball_radius))
    then (end_game 3 sh, b1)
    else scan_rows (seqZ 0 BRICK_ROWS) sh (paddle_stage b1).

(** "Move paddle to touch X position": [paddle_x = tx - paddle_w / 2]
    is computed in [int] and stored as a [float], then clamped by the
    two [if]s; this is the value [paddle_x] ends with. *)
Definition paddle_target (tx : Z) : float :=
  let v := of_int (tx - Z.quot paddle_w 2) in
  let v1 := if flt v (of_int 0) then of_int 0 else v in
  if fgt v1 (of_int (AMOLED_1IN8_WIDTH - paddle_w))
  then of_int (AMOLED_1IN8_WIDTH - paddle_w) else v1.

(** The [BREAKOUT] branch of [handle_touch]. *)
Definition touch_breakout (tx : Z) (sh : Shared) (b : State)
    : Shared * State :=
  if game_over sh then init_breakout sh b
  else (sh, set_paddle_x (paddle_target tx) b).


(** The state after a level is completed, whatever came before. *)
Definition next_level : State :=
  set_ball_dy (fmul (of_int (-3)) (lit 12 10))
    (set_ball_dx (fmul (of_int 2) (lit 12 10)) fresh).


Definition last_brick_shared : Shared :=
  {| rng_seed := Rng.initial; game_over := false; game_score := 470;
     high_scores := [0; 0; 0; 0] |}.

(** A velocity component that is a number other than zero. *)
Definition nonzero_number (v : float) : Prop :=
  flt v zero = true \/ fgt v zero = true.

(** The paddle stands at a whole pixel between 0 and 308: the only
    values [init_breakout] and the touch handler store. *)
Definition paddle_at (p : Z) (b : State) : Prop :=
  0 <= p <= AMOLED_1IN8_WIDTH - paddle_w /\ paddle_x b = of_int p.

(** What the checks below need to know about a paddle position [p]. *)
Definition paddle_pixel_ok (p : Z) : bool :=
  valid (of_int p) && is_finite (of_int p)
  && Qeq_bool (to_Q (of_int p)) (inject_Z p)
  && valid (fadd (of_int p) (of_int paddle_w))
  && is_finite (fadd (of_int p) (of_int paddle_w))
  && Qeq_bool (to_Q (fadd (of_int p) (of_int paddle_w)))
       (inject_Z (p + paddle_w)).

(** The paddle position a touch at [tx] must give. *)
Definition touch_paddle_ok (tx : Z) : bool :=
  float_eqb (paddle_target tx)
    (of_int (Z.max 0 (Z.min (AMOLED_1IN8_WIDTH - paddle_w)
                             (tx - Z.quot paddle_w 2)))).

(** A ball that overlaps the paddle, coming down or going up. *)
Definition paddle_hit_state (dy : Z) : State :=
  {| bricks := all_bricks;
     ball_x := of_int 184; ball_y := of_int 398;
     ball_dx := of_int 1; ball_dy := of_int dy;
     paddle_x := of_int 154;
     bricks_remaining := 48 |}.

(** The 48 positions of the brick array. *)
Definition brick_cells : list (Z * Z) :=
  row ← seqZ 0 BRICK_ROWS; col ← seqZ 0 BRICK_COLS; [(row, col)].

(** The number of bricks that stand. *)
Definition standing (b : State) : Z :=
  foldr Z.add 0
    (map (fun rc : Z * Z => if brick b rc.1 rc.2 then 1 else 0) brick_cells).

(** [bricks] has its [BRICK_ROWS] rows of [BRICK_COLS] entries, and
    [bricks_remaining] is the number of bricks that stand. *)
Definition counter_ok (b : State) : Prop :=
  length (bricks b) = Z.to_nat BRICK_ROWS /\
  Forall (fun r => length r = Z.to_nat BRICK_COLS) (bricks b) /\
  bricks_remaining b = standing b.

(** The outcome of a tick that completed the level. *)
Definition level_reset (g : Shared * State) : Prop :=
  g.2 = next_level /\ game_score g.1 = 0.

End Breakout.

(** ** The Asteroids game *)

Module Asteroids.
Import Arcade F32 Display.

(** [cos], [sin] and [sqrt] at [float] arguments, with their results
    as [float]: parameters of the model. *)
Record Libm := mkLibm {
  fcos : float -> float;
  fsin : float -> float;
  fsqrt : float -> float
}.

Record Ship := mkShip {
  ship_x : float; ship_y : float; ship_angle : float;
  ship_dx : float; ship_dy : float;
  ship_alive : bool
}.

Record Bullet := mkBullet {
  b_x : float; b_y : float; b_dx : float; b_dy : float;
  b_active : bool;
  b_fired_time : Z
}.

Record Asteroid := mkAsteroid {
  a_x : float; a_y : float; a_dx : float; a_dy : float;
  a_angle : float; a_spin : float;
  a_size : Z;
  a_active : bool
}.

(** [ship], [bullets[5]], [asteroids[15]] and [asteroids_level]. *)
Record State := mkState {
  ship : Ship;
  bullets : list Bullet;
  asteroids : list Asteroid;
  asteroids_level : Z
}.

Definition set_ship (v : Ship) (st : State) : State :=
  {| ship := v; bullets := bullets st; asteroids := asteroids st;
     asteroids_level := asteroids_level st |}.

Definition set_bullets (v : list Bullet) (st : State) : State :=
  {| ship := ship st; bullets := v; asteroids := asteroids st;
     asteroids_level := asteroids_level st |}.

Definition set_asteroids (v : list Asteroid) (st : State) : State :=
  {| ship := ship st; bullets := bullets st; asteroids := v;
     asteroids_level := asteroids_level st |}.

Definition set_level (v : Z) (st : State) : State :=
  {| ship := ship st; bullets := bullets st; asteroids := asteroids st;
     asteroids_level := v |}.

Definition set_b_active (v : bool) (b : Bullet) : Bullet :=
  {| b_x := b_x b; b_y := b_y b; b_dx := b_dx b; b_dy := b_dy b;
     b_active := v; b_fired_time := b_fired_time b |}.

Definition set_b_pos (x y : float) (b : Bullet) : Bullet :=
  {| b_x := x; b_y := y; b_dx := b_dx b; b_dy := b_dy b;
     b_active := b_active b; b_fired_time := b_fired_time b |}.

Definition set_a_active (v : bool) (a : Asteroid) : Asteroid :=
  {| a_x := a_x a; a_y := a_y a; a_dx := a_dx a; a_dy := a_dy a;
     a_angle := a_angle a; a_spin := a_spin a; a_size := a_size a;
     a_active := v |}.

Definition set_a_size (v : Z) (a : Asteroid) : Asteroid :=
  {| a_x := a_x a; a_y := a_y a; a_dx := a_dx a; a_dy := a_dy a;
     a_angle := a_angle a; a_spin := a_spin a; a_size := v;
     a_active := a_active a |}.

Definition set_a_x (v : float) (a : Asteroid) : Asteroid :=
  {| a_x := v; a_y := a_y a; a_dx := a_dx a; a_dy := a_dy a;
     a_angle := a_angle a; a_spin := a_spin a; a_size := a_size a;
     a_active := a_active a |}.

Definition set_a_y (v : float) (a : Asteroid) : Asteroid :=
  {| a_x := a_x a; a_y := v; a_dx := a_dx a; a_dy := a_dy a;
     a_angle := a_angle a; a_spin := a_spin a; a_size := a_size a;
     a_active := a_active a |}.

Definition set_a_dx (v : float) (a : Asteroid) : Asteroid :=
  {| a_x := a_x a; a_y := a_y a; a_dx := v; a_dy := a_dy a;
     a_angle := a_angle a; a_spin := a_spin a; a_size := a_size a;
     a_active := a_active a |}.

Definition set_a_dy (v : float) (a : Asteroid) : Asteroid :=
  {| a_x := a_x a; a_y := a_y a; a_dx := a_dx a; a_dy := v;
     a_angle := a_angle a; a_spin := a_spin a; a_size := a_size a;
     a_active := a_active a |}.

Definition set_a_angle (v : float) (a : Asteroid) : Asteroid :=
  {| a_x := a_x a; a_y := a_y a; a_dx := a_dx a; a_dy := a_dy a;
     a_angle := v; a_spin := a_spin a; a_size := a_size a;
     a_active := a_active a |}.

Definition set_a_spin (v : float) (a : Asteroid) : Asteroid :=
  {| a_x := a_x a; a_y := a_y a; a_dx := a_dx a; a_dy := a_dy a;
     a_angle := a_angle a; a_spin := v; a_size := a_size a;
     a_active := a_active a |}.

(** Zero-initialised pool entries. *)
Definition no_bullet : Bullet :=
  {| b_x := zero; b_y := zero; b_dx := zero; b_dy := zero;
     b_active := false; b_fired_time := 0 |}.

Definition no_asteroid : Asteroid :=
  {| a_x := zero; a_y := zero; a_dx := zero; a_dy := zero;
     a_angle := zero; a_spin := zero; a_size := 0; a_active := false |}.

Definition BULLETS : Z := 5.
Definition ASTEROIDS : Z := 15.

Definition boot : State :=
  {| ship := {| ship_x := zero; ship_y := zero; ship_angle := zero;
                ship_dx := zero; ship_dy := zero; ship_alive := false |};
     bullets := replicate (Z.to_nat BULLETS) no_bullet;
     asteroids := replicate (Z.to_nat ASTEROIDS) no_asteroid;
     asteroids_level := 1 |}.

(** [bullets[i]] and [asteroids[i]] for [i] inside the pool. *)
Definition bullet_at (l : list Bullet) (i : Z) : Bullet :=
  if i <? 0 then no_bullet else default no_bullet (l !! Z.to_nat i).

Definition asteroid_at (l : list Asteroid) (i : Z) : Asteroid :=
  if i <? 0 then no_asteroid else default no_asteroid (l !! Z.to_nat i).

(** [asteroids[i].field = v]: a change of one entry in place. *)
Definition modify (l : list Asteroid) (i : Z) (f : Asteroid -> Asteroid)
    : list Asteroid :=
  put l i (f (asteroid_at l i)).

(** One round of the loop of [init_asteroids] that creates asteroid
    [i], with its six draws in statement order. *)
Definition create_asteroid (acc : Rng.rng_state * list Asteroid) (i : Z)
    : Rng.rng_state * list Asteroid :=
  let '(s0, l0) := acc in
  let l1 := modify l0 i (set_a_active true) in
  let l2 := modify l1 i (set_a_size 2) in
  let '(rx, s1) := Rng.rng2 50 318 s0 in
  let l3 := modify l2 i (set_a_x (of_int rx)) in
  let '(ry, s2) := Rng.rng2 50 430 s1 in
  let l4 := modify l3 i (set_a_y (of_int ry)) in
  let '(rdx, s3) := Rng.rng2 0 100 s2 in
  let l5 := modify l4 i
              (set_a_dx (fsub (fdiv (of_int rdx) (of_int 50)) (of_int 1))) in
  let '(rdy, s4) := Rng.rng2 0 100 s3 in
  let l6 := modify l5 i
              (set_a_dy (fsub (fdiv (of_int rdy) (of_int 50)) (of_int 1))) in
  let '(ra, s5) := Rng.rng2 0 360 s4 in
  let l7 := modify l6 i (set_a_angle (of_int ra)) in
  let '(rs, s6) := Rng.rng2 0 100 s5 in
  (s6, modify l7 i
         (set_a_spin (fsub (fdiv (of_int rs) (of_int 100)) (lit 5 10)))).

(** [void init_asteroids()] *)
Definition init_asteroids (sh : Shared) (st : State) : Shared * State :=
  let sh1 := set_game_over false (set_game_score 0 sh) in
  let ship1 :=
    {| ship_x := of_int 184; ship_y := of_int 260;
       ship_angle := of_int (-90);
       ship_dx := of_int 0; ship_dy := of_int 0; ship_alive := true |} in
  let bullets1 := map (set_b_active false) (bullets st) in
  let asteroids1 := map (set_a_active false) (asteroids st) in
  let num_asteroids := Z.min (3 + asteroids_level st) 10 in
  let '(s, asteroids2) :=
    foldl create_asteroid (rng_seed sh1, asteroids1)
      (seqZ 0 num_asteroids) in
  (set_rng s sh1,
   {| ship := ship1; bullets := bullets1; asteroids := asteroids2;
      asteroids_level := asteroids_level st |}).

(** "Wrap around screen" for one coordinate with bound [limit]. *)
Definition wrap (limit : Z) (v : float) : float :=
  let v1 := if flt v (of_int 0) then of_int limit else v in
  if fgt v1 (of_int limit) then of_int 0 else v1.

(** "Update ship physics with simple drag" and the wrap. *)
Definition move_ship (s : Ship) : Ship :=
  let dx := fmul (ship_dx s) (lit 98 100) in
  let dy := fmul (ship_dy s) (lit 98 100) in
  {| ship_x := wrap AMOLED_1IN8_WIDTH (fadd (ship_x s) dx);
     ship_y := wrap AMOLED_1IN8_HEIGHT (fadd (ship_y s) dy);
     ship_angle := ship_angle s; ship_dx := dx; ship_dy := dy;
     ship_alive := ship_alive s |}.

(** One round of "Update bullets"; the age test is unsigned. *)
Definition move_bullet (now : Z) (b : Bullet) : Bullet :=
  if negb (b_active b) then b
  else
    let b1 := set_b_pos (fadd (b_x b) (b_dx b)) (fadd (b_y b) (b_dy b)) b in
    if flt (b_x b1) (of_int 0) || fgt (b_x b1) (of_int AMOLED_1IN8_WIDTH)
       || flt (b_y b1) (of_int 0) || fgt (b_y b1) (of_int AMOLED_1IN8_HEIGHT)
       || (2000 <? CInt.to_ulong (now - b_fired_time b1))
    then set_b_active false b1 else b1.

(** One round of "Update asteroids". *)
Definition move_asteroid (a : Asteroid) : Asteroid :=
  if negb (a_active a) then a
  else
    {| a_x := wrap AMOLED_1IN8_WIDTH (fadd (a_x a) (a_dx a));
       a_y := wrap AMOLED_1IN8_HEIGHT (fadd (a_y a) (a_dy a));
       a_dx := a_dx a; a_dy := a_dy a;
       a_angle := fadd (a_angle a) (a_spin a); a_spin := a_spin a;
       a_size := a_size a; a_active := a_active a |}.

(** [int ar = (size == 2) ? 20 : (size == 1) ? 12 : 6;] *)
Definition radius (size : Z) : Z :=
  if size =? 2 then 20 else if size =? 1 then 12 else 6.

(** [sqrt(dx*dx + dy*dy)] for the offsets between two points. *)
Definition distance (lm : Libm) (x1 y1 x2 y2 : float) : float :=
  let dx := fsub x1 x2 in
  let dy := fsub y1 y2 in
  fsqrt lm (fadd (fmul dx dx) (fmul dy dy)).

(** The test [dist < ar] of bullet [b] against asteroid [a]. *)
Definition bullet_hits (lm : Libm) (st : State) (b a : Z) : bool :=
  let bu := bullet_at (bullets st) b in
  let ast := asteroid_at (asteroids st) a in
  flt (distance lm (b_x bu) (b_y bu) (a_x ast) (a_y ast))
      (of_int (radius (a_size ast))).

(** The body of [if (!asteroids[i].active)] in the split loop: slot
    [i] becomes a child of asteroid [a].  Every statement reads the
    pool as the statements before it left it, also when [i = a]. *)
Definition spawn_child (i a old_size : Z) (old_x old_y : float)
    (acc : Rng.rng_state * list Asteroid) : Rng.rng_state * list Asteroid :=
  let '(s0, l0) := acc in
  let l1 := put l0 i (asteroid_at l0 a) in
  let l2 := modify l1 i (set_a_size (old_size - 1)) in
  let '(rx, s1) := Rng.rng2 (-10) 10 s0 in
  let l3 := modify l2 i (set_a_x (fadd old_x (of_int rx))) in
  let '(ry, s2) := Rng.rng2 (-10) 10 s1 in
  let l4 := modify l3 i (set_a_y (fadd old_y (of_int ry))) in
  let '(rdx, s3) := Rng.rng1 100 s2 in
  let l5 := modify l4 i
              (set_a_dx (fadd (fneg (a_dx (asteroid_at l4 a)))
                           (fdiv (of_int rdx) (of_int 100)))) in
  let '(rdy, s4) := Rng.rng1 100 s3 in
  let l6 := modify l5 i
              (set_a_dy (fadd (fneg (a_dy (asteroid_at l5 a)))
                           (fdiv (of_int rdy) (of_int 100)))) in
  (s4, modify l6 i (set_a_active true)).

(** [for (i = 0; i < 15 && split_count < 2; i++)], from the slots
    [slots] on. *)
Fixpoint split_loop (slots : list Z) (split_count : Z) (a old_size : Z)
    (old_x old_y : float) (acc : Rng.rng_state * list Asteroid)
    : Rng.rng_state * list Asteroid :=
  match slots with
  | [] => acc
  | i :: rest =>
      if split_count <? 2 then
        if negb (a_active (asteroid_at (snd acc) i))
        then split_loop rest (split_count + 1) a old_size old_x old_y
               (spawn_child i a old_size old_x old_y acc)
        else split_loop rest split_count a old_size old_x old_y acc
      else acc
  end.

(** The body of [if (dist < ar)], up to its [break]. *)
Definition hit_asteroid (b a : Z) (sh : Shared) (st : State)
    : Shared * State :=
  let bullets1 := put (bullets st) b
                    (set_b_active false (bullet_at (bullets st) b)) in
  let old := asteroid_at (asteroids st) a in
  let old_size := a_size old in
  let old_x := a_x old in
  let old_y := a_y old in
  let asteroids1 := modify (asteroids st) a (set_a_active false) in
  let sh1 := set_game_score (game_score sh + (old_size + 1) * 10) sh in
  let '(s, asteroids2) :=
    if 0 <? old_size
    then split_loop (seqZ 0 ASTEROIDS) 0 a old_size old_x old_y
           (rng_seed sh1, asteroids1)
    else (rng_seed sh1, asteroids1) in
  (set_rng s sh1, set_asteroids asteroids2 (set_bullets bullets1 st)).

(** The inner loop over the asteroids for bullet [b]; it stops at the
    first asteroid that is hit. *)
Fixpoint scan_asteroids (lm : Libm) (slots : list Z) (b : Z) (sh : Shared)
    (st : State) : Shared * State :=
  match slots with
  | [] => (sh, st)
  | a :: rest =>
      if negb (a_active (asteroid_at (asteroids st) a))
      then scan_asteroids lm rest b sh st
      else if bullet_hits lm st b a then hit_asteroid b a sh st
      else scan_asteroids lm rest b sh st
  end.

(** The outer loop over the bullets. *)
Fixpoint scan_bullets (lm : Libm) (slots : list Z) (sh : Shared) (st : State)
    : Shared * State :=
  match slots with
  | [] => (sh, st)
  | b :: rest =>
      let '(sh1, st1) :=
        if negb (b_active (bullet_at (bullets st) b)) then (sh, st)
        else scan_asteroids lm (seqZ 0 ASTEROIDS) b sh st in
      scan_bullets lm rest sh1 st1
  end.

(** The test [dist < ar + 10] of the ship against asteroid [a]. *)
Definition ship_hits (lm : Libm) (st : State) (a : Z) : bool :=
  let ast := asteroid_at (asteroids st) a in
  a_active ast
  && flt (distance lm (ship_x (ship st)) (ship_y (ship st))
            (a_x ast) (a_y ast))
         (of_int (radius (a_size ast) + 10)).

Definition kill_ship (s : Ship) : Ship :=
  {| ship_x := ship_x s; ship_y := ship_y s; ship_angle := ship_angle s;
     ship_dx := ship_dx s; ship_dy := ship_dy s; ship_alive := false |}.

(** "Check ship-asteroid collisions": the first hit ends the game. *)
Definition ship_collision (lm : Libm) (sh : Shared) (st : State)
    : Shared * State :=
  if existsb (ship_hits lm st) (seqZ 0 ASTEROIDS)
  then (end_game 0 sh, set_ship (kill_ship (ship st)) st)
  else (sh, st).

(** [void update_asteroids()]; [now] is [millis()]. *)
Definition update_asteroids (lm : Libm) (now : Z) (sh : Shared) (st : State)
    : Shared * State :=
  if game_over sh || negb (ship_alive (ship st)) then (sh, st)
  else if negb (existsb (fun i => a_active (asteroid_at (asteroids st) i))
                  (seqZ 0 ASTEROIDS))
  then init_asteroids sh (set_level (asteroids_level st + 1) st)
  else
    let st1 := set_ship (move_ship (ship st)) st in
    let st2 := set_bullets (map (move_bullet now) (bullets st1)) st1 in
    let st3 := set_asteroids (map move_asteroid (asteroids st2)) st2 in
    let '(sh4, st4) := scan_bullets lm (seqZ 0 BULLETS) sh st3 in
    ship_collision lm sh4 st4.

Definition set_ship_angle (v : float) (s : Ship) : Ship :=
  {| ship_x := ship_x s; ship_y := ship_y s; ship_angle := v;
     ship_dx := ship_dx s; ship_dy := ship_dy s;
     ship_alive := ship_alive s |}.

(** "Fire bullet": the first free slot of the pool, if any. *)
Fixpoint fire (lm : Libm) (now : Z) (s : Ship) (slots : list Z)
    (l : list Bullet) : list Bullet :=
  match slots with
  | [] => l
  | i :: rest =>
      if negb (b_active (bullet_at l i)) then
        let rad := fdiv (fmul (ship_angle s) (lit 314159 100000))
                     (of_int 180) in
        put l i {| b_x := ship_x s; b_y := ship_y s;
                   b_dx := fmul (of_int 5) (fcos lm rad);
                   b_dy := fmul (of_int 5) (fsin lm rad);
                   b_active := true; b_fired_time := now |}
      else fire lm now s rest l
  end.

(** The [ASTEROIDS] branch of [handle_touch]. *)
Definition touch_asteroids (lm : Libm) (now tx : Z) (sh : Shared) (st : State)
    : Shared * State :=
  if game_over sh then init_asteroids sh (set_level 1 st)
  else if tx <? Z.quot AMOLED_1IN8_WIDTH 3 then
    (sh, set_ship (set_ship_angle (fsub (ship_angle (ship st)) (of_int 15))
                     (ship st)) st)
  else if Z.quot (AMOLED_1IN8_WIDTH * 2) 3 <? tx then
    (sh, set_ship (set_ship_angle (fadd (ship_angle (ship st)) (of_int 15))
                     (ship st)) st)
  else
    (sh, set_bullets (fire lm now (ship st) (seqZ 0 BULLETS) (bullets st)) st).

(** The pools have their declared sizes. *)
Definition pools_wf (st : State) : Prop :=
  length (bullets st) = Z.to_nat BULLETS /\
  length (asteroids st) = Z.to_nat ASTEROIDS.

(** Slot [i] of the pool [l] is free. *)
Definition inactive_in (l : list Asteroid) (i : Z) : Prop :=
  a_active (asteroid_at l i) = false.

#[global] Instance inactive_in_dec l i : Decision (inactive_in l i).
Proof. unfold inactive_in. apply _. Defined.




(** A size-2 asteroid at (100, 100) in slot 0 of an otherwise empty
    pool, and a bullet in slot 0 at the same place. *)
Definition lone_asteroid : State :=
  {| ship := {| ship_x := of_int 184; ship_y := of_int 260;
                ship_angle := of_int (-90);
                ship_dx := zero; ship_dy := zero; ship_alive := true |};
     bullets :=
       {| b_x := of_int 100; b_y := of_int 100;
          b_dx := zero; b_dy := of_int (-5);
          b_active := true; b_fired_time := 0 |}
       :: replicate 4 no_bullet;
     asteroids :=
       {| a_x := of_int 100; a_y := of_int 100;
          a_dx := of_int 1; a_dy := zero;
          a_angle := zero; a_spin := zero; a_size := 2; a_active := true |}
       :: replicate 14 no_asteroid;
     asteroids_level := 1 |}.

(** How many of the slots [slots] satisfy [f]. *)
Definition counts (f : Z -> bool) (slots : list Z) : Z :=
  foldr (fun i acc => (if f i then 1 else 0) + acc) 0 slots.

(** The number of active asteroids of size [size] in the pool. *)
Definition census (size : Z) (l : list Asteroid) : Z :=
  counts (fun i => a_active (asteroid_at l i)
                   && (a_size (asteroid_at l i) =? size))
         (seqZ 0 ASTEROIDS).

Definition lone_shared : Shared :=
  {| rng_seed := Rng.initial; game_over := false; game_score := 0;
     high_scores := [0; 0; 0; 0] |}.

(** A stand-in for libm with which examples can be run. *)
Definition sample_libm : Libm :=
  {| fcos := fun x => x; fsin := fun x => x; fsqrt := fun x => x |}.

(** An asteroid as [init_asteroids] creates it: active, of the largest
    size, at a whole pixel of the inner part of the screen. *)
Definition fresh_rock (c : Asteroid) : Prop :=
  a_active c = true /\ a_size c = 2 /\
  exists rx ry, 50 <= rx < 318 /\ 50 <= ry < 430 /\
    a_x c = of_int rx /\ a_y c = of_int ry.

(** What can happen to an Asteroids game while it is the selected
    game: a touch at column [tx] or an advance from [loop], both at
    time [now]. *)
Inductive event :=
| Touch (now tx : Z)
| Tick (now : Z).

Definition step (lm : Libm) (e : event) (g : Shared * State)
    : Shared * State :=
  match e with
  | Touch now tx => touch_asteroids lm now tx g.1 g.2
  | Tick now => update_asteroids lm now g.1 g.2
  end.

(** The states a game goes through after it was started with
    [init_asteroids]. *)
Inductive reachable (lm : Libm) : Shared * State -> Prop :=
| reach_init (sh : Shared) (st : State) :
    pools_wf st -> reachable lm (init_asteroids sh st)
| reach_step (e : event) (g : Shared * State) :
    reachable lm g -> reachable lm (step lm e g).

(** The ship stands still at its start position. *)
Definition ship_parked (s : Ship) : Prop :=
  ship_x s = of_int 184 /\ ship_y s = of_int 260 /\
  ship_dx s = of_int 0 /\ ship_dy s = of_int 0.

(** The number of bullets in flight. *)
Definition bullets_in_flight (l : list Bullet) : Z :=
  counts (fun i => b_active (bullet_at l i)) (seqZ 0 BULLETS).

(** The bullet "Fire bullet" stores: at the ship, with speed 5 along
    the heading of the ship. *)
Definition new_bullet (lm : Libm) (now : Z) (s : Ship) : Bullet :=
  let rad := fdiv (fmul (ship_angle s) (lit 314159 100000)) (of_int 180) in
  {| b_x := ship_x s; b_y := ship_y s;
     b_dx := fmul (of_int 5) (fcos lm rad);
     b_dy := fmul (of_int 5) (fsin lm rad);
     b_active := true; b_fired_time := now |}.

(** The point [(x, y)] lies on the screen, borders included. *)
Definition on_screen (x y : float) : Prop :=
  fle (of_int 0) x = true /\ fle x (of_int AMOLED_1IN8_WIDTH) = true /\
  fle (of_int 0) y = true /\ fle y (of_int AMOLED_1IN8_HEIGHT) = true.


Definition flying_bullet : Bullet :=
  {| b_x := of_int 100; b_y := of_int 100;
     b_dx := of_int 5; b_dy := zero;
     b_active := true; b_fired_time := 0 |}.

(** A game of level 1 started from the program's start state. *)
Definition started : Shared * State := init_asteroids lone_shared boot.

(** The field of [lone_asteroid] with nothing left on it, at level 3. *)
Definition cleared_field : State :=
  {| ship := ship lone_asteroid;
     bullets := bullets lone_asteroid;
     asteroids := replicate 15 no_asteroid;
     asteroids_level := 3 |}.

End Asteroids.

(** ** Navigation, touch routing and the main loop *)

Module Watch.
Import CInt Arcade Display.

Inductive VButton := BTN_UP | BTN_SELECT | BTN_DOWN | BTN_BACK.

Inductive Screen :=
| SCR_WATCHFACE | SCR_MENU | SCR_APP | SCR_TL_PAST | SCR_TL_FUTURE
| SCR_SETTINGS_MENU | SCR_SET_TIME | SCR_SET_DATE | SCR_SETTINGS_ABOUT
| SCR_GAMES_MENU | SCR_GAME_ARCADE | SCR_GAME_TAMAGOTCHI.

Inductive GameState := GAME_MENU | ASTEROIDS | TETRIS | SNAKE | BREAKOUT.

(** The globals of the screen state machine, the clock and the
    backlight; [sec_acc] is the [static] counter of [tick_time]. *)
Record Nav := mkNav {
  current_screen : Screen;
  current_game : GameState;
  menu_sel : Z;
  games_sel : Z;
  settings_sel : Z;
  set_time_field : Z;
  set_time_dirty : bool;
  last_time_button_press : Z;
  set_date_field : Z;
  set_date_dirty : bool;
  last_date_button_press : Z;
  h : Z;
  m : Z;
  day : Z;
  month : Z;
  year : Z;
  sec_acc : Z;
  last_tick_ms : Z;
  brightness_value : Z;
  last_dim_ms : Z
}.

Definition set_current_screen (v : Screen) (n : Nav) : Nav :=
  {| current_screen := v; current_game := current_game n;
     menu_sel := menu_sel n; games_sel := games_sel n;
     settings_sel := settings_sel n; set_time_field := set_time_field n;
     set_time_dirty := set_time_dirty n;
     last_time_button_press := last_time_button_press n;
     set_date_field := set_date_field n;
     set_date_dirty := set_date_dirty n;
     last_date_button_press := last_date_button_press n; h := h n;
     m := m n; day := day n; month := month n; year := year n;
     sec_acc := sec_acc n; last_tick_ms := last_tick_ms n;
     brightness_value := brightness_value n;
     last_dim_ms := last_dim_ms n |}.

Definition set_current_game (v : GameState) (n : Nav) : Nav :=
  {| current_screen := current_screen n; current_game := v;
     menu_sel := menu_sel n; games_sel := games_sel n;
     settings_sel := settings_sel n; set_time_field := set_time_field n;
     set_time_dirty := set_time_dirty n;
     last_time_button_press := last_time_button_press n;
     set_date_field := set_date_field n;
     set_date_dirty := set_date_dirty n;
     last_date_button_press := last_date_button_press n; h := h n;
     m := m n; day := day n; month := month n; year := year n;
     sec_acc := sec_acc n; last_tick_ms := last_tick_ms n;
     brightness_value := brightness_value n;
     last_dim_ms := last_dim_ms n |}.

Definition set_menu_sel (v : Z) (n : Nav) : Nav :=
  {| current_screen := current_screen n; current_game := current_game n;
     menu_sel := v; games_sel := games_sel n;
     settings_sel := settings_sel n; set_time_field := set_time_field n;
     set_time_dirty := set_time_dirty n;
     last_time_button_press := last_time_button_press n;
     set_date_field := set_date_field n;
     set_date_dirty := set_date_dirty n;
     last_date_button_press := last_date_button_press n; h := h n;
     m := m n; day := day n; month := month n; year := year n;
     sec_acc := sec_acc n; last_tick_ms := last_tick_ms n;
     brightness_value := brightness_value n;
     last_dim_ms := last_dim_ms n |}.

Definition set_games_sel (v : Z) (n : Nav) : Nav :=
  {| current_screen := current_screen n; current_game := current_game n;
     menu_sel := menu_sel n; games_sel := v;
     settings_sel := settings_sel n; set_time_field := set_time_field n;
     set_time_dirty := set_time_dirty n;
     last_time_button_press := last_time_button_press n;
     set_date_field := set_date_field n;
     set_date_dirty := set_date_dirty n;
     last_date_button_press := last_date_button_press n; h := h n;
     m := m n; day := day n; month := month n; year := year n;
     sec_acc := sec_acc n; last_tick_ms := last_tick_ms n;
     brightness_value := brightness_value n;
     last_dim_ms := last_dim_ms n |}.

Definition set_settings_sel (v : Z) (n : Nav) : Nav :=
  {| current_screen := current_screen n; current_game := current_game n;
     menu_sel := menu_sel n; games_sel := games_sel n; settings_sel := v;
     set_time_field := set_time_field n;
     set_time_dirty := set_time_dirty n;
     last_time_button_press := last_time_button_press n;
     set_date_field := set_date_field n;
     set_date_dirty := set_date_dirty n;
     last_date_button_press := last_date_button_press n; h := h n;
     m := m n; day := day n; month := month n; year := year n;
     sec_acc := sec_acc n; last_tick_ms := last_tick_ms n;
     brightness_value := brightness_value n;
     last_dim_ms := last_dim_ms n |}.

Definition set_set_time_field (v : Z) (n : Nav) : Nav :=
  {| current_screen := current_screen n; current_game := current_game n;
     menu_sel := menu_sel n; games_sel := games_sel n;
     settings_sel := settings_sel n; set_time_field := v;
     set_time_dirty := set_time_dirty n;
     last_time_button_press := last_time_button_press n;
     set_date_field := set_date_field n;
     set_date_dirty := set_date_dirty n;
     last_date_button_press := last_date_button_press n; h := h n;
     m := m n; day := day n; month := month n; year := year n;
     sec_acc := sec_acc n; last_tick_ms := last_tick_ms n;
     brightness_value := brightness_value n;
     last_dim_ms := last_dim_ms n |}.

Definition set_set_time_dirty (v : bool) (n : Nav) : Nav :=
  {| current_screen := current_screen n; current_game := current_game n;
     menu_sel := menu_sel n; games_sel := games_sel n;
     settings_sel := settings_sel n; set_time_field := set_time_field n;
     set_time_dirty := v;
     last_time_button_press := last_time_button_press n;
     set_date_field := set_date_field n;
     set_date_dirty := set_date_dirty n;
     last_date_button_press := last_date_button_press n; h := h n;
     m := m n; day := day n; month := month n; year := year n;
     sec_acc := sec_acc n; last_tick_ms := last_tick_ms n;
     brightness_value := brightness_value n;
     last_dim_ms := last_dim_ms n |}.

Definition set_last_time_button_press (v : Z) (n : Nav) : Nav :=
  {| current_screen := current_screen n; current_game := current_game n;
     menu_sel := menu_sel n; games_sel := games_sel n;
     settings_sel := settings_sel n; set_time_field := set_time_field n;
     set_time_dirty := set_time_dirty n; last_time_button_press := v;
     set_date_field := set_date_field n;
     set_date_dirty := set_date_dirty n;
     last_date_button_press := last_date_button_press n; h := h n;
     m := m n; day := day n; month := month n; year := year n;
     sec_acc := sec_acc n; last_tick_ms := last_tick_ms n;
     brightness_value := brightness_value n;
     last_dim_ms := last_dim_ms n |}.

Definition set_set_date_field (v : Z) (n : Nav) : Nav :=
  {| current_screen := current_screen n; current_game := current_game n;
     menu_sel := menu_sel n; games_sel := games_sel n;
     settings_sel := settings_sel n; set_time_field := set_time_field n;
     set_time_dirty := set_time_dirty n;
     last_time_button_press := last_time_button_press n;
     set_date_field := v; set_date_dirty := set_date_dirty n;
     last_date_button_press := last_date_button_press n; h := h n;
     m := m n; day := day n; month := month n; year := year n;
     sec_acc := sec_acc n; last_tick_ms := last_tick_ms n;
     brightness_value := brightness_value n;
     last_dim_ms := last_dim_ms n |}.

Definition set_set_date_dirty (v : bool) (n : Nav) : Nav :=
  {| current_screen := current_screen n; current_game := current_game n;
     menu_sel := menu_sel n; games_sel := games_sel n;
     settings_sel := settings_sel n; set_time_field := set_time_field n;
     set_time_dirty := set_time_dirty n;
     last_time_button_press := last_time_button_press n;
     set_date_field := set_date_field n; set_date_dirty := v;
     last_date_button_press := last_date_button_press n; h := h n;
     m := m n; day := day n; month := month n; year := year n;
     sec_acc := sec_acc n; last_tick_ms := last_tick_ms n;
     brightness_value := brightness_value n;
     last_dim_ms := last_dim_ms n |}.

Definition set_last_date_button_press (v : Z) (n : Nav) : Nav :=
  {| current_screen := current_screen n; current_game := current_game n;
     menu_sel := menu_sel n; games_sel := games_sel n;
     settings_sel := settings_sel n; set_time_field := set_time_field n;
     set_time_dirty := set_time_dirty n;
     last_time_button_press := last_time_button_press n;
     set_date_field := set_date_field n;
     set_date_dirty := set_date_dirty n; last_date_button_press := v;
     h := h n; m := m n; day := day n; month := month n; year := year n;
     sec_acc := sec_acc n; last_tick_ms := last_tick_ms n;
     brightness_value := brightness_value n;
     last_dim_ms := last_dim_ms n |}.

Definition set_h (v : Z) (n : Nav) : Nav :=
  {| current_screen := current_screen n; current_game := current_game n;
     menu_sel := menu_sel n; games_sel := games_sel n;
     settings_sel := settings_sel n; set_time_field := set_time_field n;
     set_time_dirty := set_time_dirty n;
     last_time_button_press := last_time_button_press n;
     set_date_field := set_date_field n;
     set_date_dirty := set_date_dirty n;
     last_date_button_press := last_date_button_press n; h := v; m := m n;
     day := day n; month := month n; year := year n; sec_acc := sec_acc n;
     last_tick_ms := last_tick_ms n;
     brightness_value := brightness_value n;
     last_dim_ms := last_dim_ms n |}.

Definition set_m (v : Z) (n : Nav) : Nav :=
  {| current_screen := current_screen n; current_game := current_game n;
     menu_sel := menu_sel n; games_sel := games_sel n;
     settings_sel := settings_sel n; set_time_field := set_time_field n;
     set_time_dirty := set_time_dirty n;
     last_time_button_press := last_time_button_press n;
     set_date_field := set_date_field n;
     set_date_dirty := set_date_dirty n;
     last_date_button_press := last_date_button_press n; h := h n; m := v;
     day := day n; month := month n; year := year n; sec_acc := sec_acc n;
     last_tick_ms := last_tick_ms n;
     brightness_value := brightness_value n;
     last_dim_ms := last_dim_ms n |}.

Definition set_day (v : Z) (n : Nav) : Nav :=
  {| current_screen := current_screen n; current_game := current_game n;
     menu_sel := menu_sel n; games_sel := games_sel n;
     settings_sel := settings_sel n; set_time_field := set_time_field n;
     set_time_dirty := set_time_dirty n;
     last_time_button_press := last_time_button_press n;
     set_date_field := set_date_field n;
     set_date_dirty := set_date_dirty n;
     last_date_button_press := last_date_button_press n; h := h n;
     m := m n; day := v; month := month n; year := year n;
     sec_acc := sec_acc n; last_tick_ms := last_tick_ms n;
     brightness_value := brightness_value n;
     last_dim_ms := last_dim_ms n |}.

Definition set_month (v : Z) (n : Nav) : Nav :=
  {| current_screen := current_screen n; current_game := current_game n;
     menu_sel := menu_sel n; games_sel := games_sel n;
     settings_sel := settings_sel n; set_time_field := set_time_field n;
     set_time_dirty := set_time_dirty n;
     last_time_button_press := last_time_button_press n;
     set_date_field := set_date_field n;
     set_date_dirty := set_date_dirty n;
     last_date_button_press := last_date_button_press n; h := h n;
     m := m n; day := day n; month := v; year := year n;
     sec_acc := sec_acc n; last_tick_ms := last_tick_ms n;
     brightness_value := brightness_value n;
     last_dim_ms := last_dim_ms n |}.

Definition set_year (v : Z) (n : Nav) : Nav :=
  {| current_screen := current_screen n; current_game := current_game n;
     menu_sel := menu_sel n; games_sel := games_sel n;
     settings_sel := settings_sel n; set_time_field := set_time_field n;
     set_time_dirty := set_time_dirty n;
     last_time_button_press := last_time_button_press n;
     set_date_field := set_date_field n;
     set_date_dirty := set_date_dirty n;
     last_date_button_press := last_date_button_press n; h := h n;
     m := m n; day := day n; month := month n; year := v;
     sec_acc := sec_acc n; last_tick_ms := last_tick_ms n;
     brightness_value := brightness_value n;
     last_dim_ms := last_dim_ms n |}.

Definition set_sec_acc (v : Z) (n : Nav) : Nav :=
  {| current_screen := current_screen n; current_game := current_game n;
     menu_sel := menu_sel n; games_sel := games_sel n;
     settings_sel := settings_sel n; set_time_field := set_time_field n;
     set_time_dirty := set_time_dirty n;
     last_time_button_press := last_time_button_press n;
     set_date_field := set_date_field n;
     set_date_dirty := set_date_dirty n;
     last_date_button_press := last_date_button_press n; h := h n;
     m := m n; day := day n; month := month n; year := year n;
     sec_acc := v; last_tick_ms := last_tick_ms n;
     brightness_value := brightness_value n;
     last_dim_ms := last_dim_ms n |}.

Definition set_last_tick_ms (v : Z) (n : Nav) : Nav :=
  {| current_screen := current_screen n; current_game := current_game n;
     menu_sel := menu_sel n; games_sel := games_sel n;
     settings_sel := settings_sel n; set_time_field := set_time_field n;
     set_time_dirty := set_time_dirty n;
     last_time_button_press := last_time_button_press n;
     set_date_field := set_date_field n;
     set_date_dirty := set_date_dirty n;
     last_date_button_press := last_date_button_press n; h := h n;
     m := m n; day := day n; month := month n; year := year n;
     sec_acc := sec_acc n; last_tick_ms := v;
     brightness_value := brightness_value n;
     last_dim_ms := last_dim_ms n |}.

Definition set_brightness_value (v : Z) (n : Nav) : Nav :=
  {| current_screen := current_screen n; current_game := current_game n;
     menu_sel := menu_sel n; games_sel := games_sel n;
     settings_sel := settings_sel n; set_time_field := set_time_field n;
     set_time_dirty := set_time_dirty n;
     last_time_button_press := last_time_button_press n;
     set_date_field := set_date_field n;
     set_date_dirty := set_date_dirty n;
     last_date_button_press := last_date_button_press n; h := h n;
     m := m n; day := day n; month := month n; year := year n;
     sec_acc := sec_acc n; last_tick_ms := last_tick_ms n;
     brightness_value := v; last_dim_ms := last_dim_ms n |}.

Definition set_last_dim_ms (v : Z) (n : Nav) : Nav :=
  {| current_screen := current_screen n; current_game := current_game n;
     menu_sel := menu_sel n; games_sel := games_sel n;
     settings_sel := settings_sel n; set_time_field := set_time_field n;
     set_time_dirty := set_time_dirty n;
     last_time_button_press := last_time_button_press n;
     set_date_field := set_date_field n;
     set_date_dirty := set_date_dirty n;
     last_date_button_press := last_date_button_press n; h := h n;
     m := m n; day := day n; month := month n; year := year n;
     sec_acc := sec_acc n; last_tick_ms := last_tick_ms n;
     brightness_value := brightness_value n; last_dim_ms := v |}.

Definition MENU_COUNT : Z := 5.
Definition GAMES_COUNT : Z := 2.
Definition SETTINGS_COUNT : Z := 4.

Definition boot_nav : Nav :=
  {| current_screen := SCR_WATCHFACE; current_game := GAME_MENU;
     menu_sel := 0; games_sel := 0; settings_sel := 0;
     set_time_field := 0; set_time_dirty := false;
     last_time_button_press := 0;
     set_date_field := 0; set_date_dirty := false;
     last_date_button_press := 0;
     h := 12; m := 0; day := 23; month := 10; year := 2025;
     sec_acc := 0; last_tick_ms := 0;
     brightness_value := 255; last_dim_ms := 0 |}.

Definition screen_eqb (a b : Screen) : bool :=
  match a, b with
  | SCR_WATCHFACE, SCR_WATCHFACE | SCR_MENU, SCR_MENU | SCR_APP, SCR_APP
  | SCR_TL_PAST, SCR_TL_PAST | SCR_TL_FUTURE, SCR_TL_FUTURE
  | SCR_SETTINGS_MENU, SCR_SETTINGS_MENU | SCR_SET_TIME, SCR_SET_TIME
  | SCR_SET_DATE, SCR_SET_DATE | SCR_SETTINGS_ABOUT, SCR_SETTINGS_ABOUT
  | SCR_GAMES_MENU, SCR_GAMES_MENU | SCR_GAME_ARCADE, SCR_GAME_ARCADE
  | SCR_GAME_TAMAGOTCHI, SCR_GAME_TAMAGOTCHI => true
  | _, _ => false
  end.

(** [void set_brightness_and_restart(uint8_t v)] *)
Definition set_brightness_and_restart (now v : Z) (n : Nav) : Nav :=
  set_last_dim_ms now (set_brightness_value (to_u8 v) n).

(** [open_watchface()] and [open_menu()] without their drawing. *)
Definition open_watchface (n : Nav) : Nav :=
  set_current_screen SCR_WATCHFACE n.

Definition open_menu (n : Nav) : Nav := set_current_screen SCR_MENU n.

(** [void process_button(VButton b)]; the clock fields are [uint8_t]
    and [uint16_t]. *)
Definition process_button (now : Z) (b : VButton) (n0 : Nav) : Nav :=
  let n := set_brightness_and_restart now 255 n0 in
  match current_screen n with
  | SCR_WATCHFACE =>
      match b with
      | BTN_UP => set_current_screen SCR_TL_FUTURE n
      | BTN_DOWN => set_current_screen SCR_TL_PAST n
      | BTN_SELECT => open_menu n
      | BTN_BACK => n
      end
  | SCR_MENU =>
      match b with
      | BTN_UP =>
          if 0 <? menu_sel n
          then open_menu (set_menu_sel (menu_sel n - 1) n) else n
      | BTN_DOWN =>
          if menu_sel n <? MENU_COUNT - 1
          then open_menu (set_menu_sel (menu_sel n + 1) n) else n
      | BTN_SELECT =>
          if menu_sel n =? 3 then set_current_screen SCR_GAMES_MENU n
          else if menu_sel n =? 4
          then set_current_screen SCR_SETTINGS_MENU n
          else n
      | BTN_BACK => open_watchface n
      end
  | SCR_GAMES_MENU =>
      match b with
      | BTN_UP =>
          if 0 <? games_sel n then set_games_sel (games_sel n - 1) n else n
      | BTN_DOWN =>
          if games_sel n <? GAMES_COUNT - 1
          then set_games_sel (games_sel n + 1) n else n
      | BTN_SELECT =>
          if games_sel n =? 0
          then set_current_game GAME_MENU
                 (set_current_screen SCR_GAME_ARCADE n)
          else if games_sel n =? 1
          then set_current_screen SCR_GAME_TAMAGOTCHI n
          else n
      | BTN_BACK => open_menu n
      end
  | SCR_GAME_ARCADE =>
      match current_game n, b with
      | GAME_MENU, BTN_BACK => set_current_screen SCR_GAMES_MENU n
      | GAME_MENU, _ => n
      | _, BTN_BACK => set_current_game GAME_MENU n
      | _, _ => n
      end
  | SCR_GAME_TAMAGOTCHI =>
      match b with
      | BTN_BACK => set_current_screen SCR_GAMES_MENU n
      | _ => n
      end
  | SCR_SETTINGS_MENU =>
      match b with
      | BTN_UP =>
          if 0 <? settings_sel n
          then set_settings_sel (settings_sel n - 1) n else n
      | BTN_DOWN =>
          if settings_sel n <? SETTINGS_COUNT - 1
          then set_settings_sel (settings_sel n + 1) n else n
      | BTN_SELECT =>
          if settings_sel n =? 0
          then set_set_time_dirty false
                 (set_set_time_field 0 (set_current_screen SCR_SET_TIME n))
          else if settings_sel n =? 1
          then set_set_date_dirty false
                 (set_set_date_field 0 (set_current_screen SCR_SET_DATE n))
          else if settings_sel n =? 3
          then set_current_screen SCR_SETTINGS_ABOUT n
          else n
      | BTN_BACK => open_menu n
      end
  | SCR_SET_TIME =>
      let n1 := set_last_time_button_press now n in
      match b with
      | BTN_UP =>
          set_set_time_dirty true
            (if set_time_field n1 =? 0
             then set_h (to_u8 (Z.rem (h n1 + 1) 24)) n1
             else set_m (to_u8 (Z.rem (m n1 + 1) 60)) n1)
      | BTN_DOWN =>
          set_set_time_dirty true
            (if set_time_field n1 =? 0
             then set_h (to_u8 (if h n1 =? 0 then 23 else h n1 - 1)) n1
             else set_m (to_u8 (if m n1 =? 0 then 59 else m n1 - 1)) n1)
      | BTN_SELECT => set_set_time_field (1 - set_time_field n1) n1
      | BTN_BACK => set_current_screen SCR_SETTINGS_MENU n1
      end
  | SCR_SET_DATE =>
      let n1 := set_last_date_button_press now n in
      match b with
      | BTN_UP =>
          set_set_date_dirty true
            (if set_date_field n1 =? 0
             then set_day (to_u8 (Z.rem (day n1) 31 + 1)) n1
             else if set_date_field n1 =? 1
             then set_month (to_u8 (Z.rem (month n1) 12 + 1)) n1
             else set_year ((year n1 + 1) mod 2 ^ 16) n1)
      | BTN_DOWN =>
          set_set_date_dirty true
            (if set_date_field n1 =? 0
             then set_day (to_u8 (if day n1 =? 1 then 31 else day n1 - 1)) n1
             else if set_date_field n1 =? 1
             then set_month
                    (to_u8 (if month n1 =? 1 then 12 else month n1 - 1)) n1
             else set_year ((year n1 - 1) mod 2 ^ 16) n1)
      | BTN_SELECT =>
          set_set_date_field (Z.rem (set_date_field n1 + 1) 3) n1
      | BTN_BACK => set_current_screen SCR_SETTINGS_MENU n1
      end
  | SCR_SETTINGS_ABOUT =>
      match b with
      | BTN_BACK => set_current_screen SCR_SETTINGS_MENU n
      | _ => n
      end
  | SCR_TL_PAST | SCR_TL_FUTURE =>
      match b with
      | BTN_BACK => open_watchface n
      | _ => n
      end
  | SCR_APP => n
  end.

(** [void tick_time()] *)
Definition tick_time (now : Z) (n : Nav) : Nav :=
  if 1000 <=? to_ulong (now - last_tick_ms n) then
    let n1 := set_last_tick_ms now n in
    let acc := (sec_acc n1 + 1) mod 2 ^ 16 in
    if 60 <=? acc then
      let n2 := set_sec_acc 0 n1 in
      let m1 := to_u8 (m n2 + 1) in
      if 60 <=? m1
      then set_h (to_u8 (Z.rem (h n2 + 1) 24)) (set_m 0 n2)
      else set_m m1 n2
    else set_sec_acc acc n1
  else n.

Definition DIM_STEP : Z := 64.
Definition DIM_INTERVAL : Z := 15000.

(** [void update_dimming()] *)
Definition update_dimming (now : Z) (n : Nav) : Nav :=
  if screen_eqb (current_screen n) SCR_GAME_ARCADE
     || screen_eqb (current_screen n) SCR_GAME_TAMAGOTCHI then n
  else if DIM_INTERVAL <=? to_ulong (now - last_dim_ms n) then
    let n1 := set_last_dim_ms now n in
    if DIM_STEP <=? brightness_value n1
    then set_brightness_value (to_u8 (brightness_value n1 - DIM_STEP)) n1
    else if 0 <? brightness_value n1 then set_brightness_value 0 n1
    else n1
  else n.

(** Everything the sketch keeps between loop iterations that the games,
    the pet and the navigation use; [last_touch_ms] and
    [last_game_update] are [static] locals, the three [back...] fields
    the debounce state of the physical button. *)
Record World := mkWorld {
  shared : Shared;
  nav : Nav;
  tetris : Tetris.State;
  snake : Snake.State;
  breakout : Breakout.State;
  asteroids : Asteroids.State;
  pet : Pet.Tamagotchi;
  pet_timers : Pet.PetTimers;
  last_touch_ms : Z;
  last_game_update : Z;
  backBtnState : bool;
  backLastState : bool;
  backLastDebounce : Z
}.

Definition set_shared (v : Shared) (w : World) : World :=
  {| shared := v; nav := nav w; tetris := tetris w; snake := snake w;
     breakout := breakout w; asteroids := asteroids w; pet := pet w;
     pet_timers := pet_timers w; last_touch_ms := last_touch_ms w;
     last_game_update := last_game_update w;
     backBtnState := backBtnState w; backLastState := backLastState w;
     backLastDebounce := backLastDebounce w |}.

Definition set_nav (v : Nav) (w : World) : World :=
  {| shared := shared w; nav := v; tetris := tetris w; snake := snake w;
     breakout := breakout w; asteroids := asteroids w; pet := pet w;
     pet_timers := pet_timers w; last_touch_ms := last_touch_ms w;
     last_game_update := last_game_update w;
     backBtnState := backBtnState w; backLastState := backLastState w;
     backLastDebounce := backLastDebounce w |}.

Definition set_tetris (p : Shared * Tetris.State) (w : World) : World :=
  {| shared := fst p; nav := nav w; tetris := snd p; snake := snake w;
     breakout := breakout w; asteroids := asteroids w; pet := pet w;
     pet_timers := pet_timers w; last_touch_ms := last_touch_ms w;
     last_game_update := last_game_update w;
     backBtnState := backBtnState w; backLastState := backLastState w;
     backLastDebounce := backLastDebounce w |}.

Definition set_snake (p : Shared * Snake.State) (w : World) : World :=
  {| shared := fst p; nav := nav w; tetris := tetris w; snake := snd p;
     breakout := breakout w; asteroids := asteroids w; pet := pet w;
     pet_timers := pet_timers w; last_touch_ms := last_touch_ms w;
     last_game_update := last_game_update w;
     backBtnState := backBtnState w; backLastState := backLastState w;
     backLastDebounce := backLastDebounce w |}.

Definition set_breakout (p : Shared * Breakout.State) (w : World) : World :=
  {| shared := fst p; nav := nav w; tetris := tetris w; snake := snake w;
     breakout := snd p; asteroids := asteroids w; pet := pet w;
     pet_timers := pet_timers w; last_touch_ms := last_touch_ms w;
     last_game_update := last_game_update w;
     backBtnState := backBtnState w; backLastState := backLastState w;
     backLastDebounce := backLastDebounce w |}.

Definition set_asteroids (p : Shared * Asteroids.State) (w : World) : World :=
  {| shared := fst p; nav := nav w; tetris := tetris w; snake := snake w;
     breakout := breakout w; asteroids := snd p; pet := pet w;
     pet_timers := pet_timers w; last_touch_ms := last_touch_ms w;
     last_game_update := last_game_update w;
     backBtnState := backBtnState w; backLastState := backLastState w;
     backLastDebounce := backLastDebounce w |}.

Definition set_pet (v : Pet.Tamagotchi) (w : World) : World :=
  {| shared := shared w; nav := nav w; tetris := tetris w; snake := snake w;
     breakout := breakout w; asteroids := asteroids w; pet := v;
     pet_timers := pet_timers w; last_touch_ms := last_touch_ms w;
     last_game_update := last_game_update w;
     backBtnState := backBtnState w; backLastState := backLastState w;
     backLastDebounce := backLastDebounce w |}.

Definition set_pet_loop
    (r : Rng.rng_state * Pet.PetTimers * Pet.Tamagotchi) (w : World)
    : World :=
  {| shared := set_rng (fst (fst r)) (shared w); nav := nav w;
     tetris := tetris w; snake := snake w;
     breakout := breakout w; asteroids := asteroids w; pet := snd r;
     pet_timers := snd (fst r); last_touch_ms := last_touch_ms w;
     last_game_update := last_game_update w;
     backBtnState := backBtnState w; backLastState := backLastState w;
     backLastDebounce := backLastDebounce w |}.

Definition set_last_touch_ms (v : Z) (w : World) : World :=
  {| shared := shared w; nav := nav w; tetris := tetris w; snake := snake w;
     breakout := breakout w; asteroids := asteroids w; pet := pet w;
     pet_timers := pet_timers w; last_touch_ms := v;
     last_game_update := last_game_update w;
     backBtnState := backBtnState w; backLastState := backLastState w;
     backLastDebounce := backLastDebounce w |}.

Definition set_last_game_update (v : Z) (w : World) : World :=
  {| shared := shared w; nav := nav w; tetris := tetris w; snake := snake w;
     breakout := breakout w; asteroids := asteroids w; pet := pet w;
     pet_timers := pet_timers w; last_touch_ms := last_touch_ms w;
     last_game_update := v;
     backBtnState := backBtnState w; backLastState := backLastState w;
     backLastDebounce := backLastDebounce w |}.

Definition set_back (state last : bool) (debounce : Z) (w : World) : World :=
  {| shared := shared w; nav := nav w; tetris := tetris w; snake := snake w;
     breakout := breakout w; asteroids := asteroids w; pet := pet w;
     pet_timers := pet_timers w; last_touch_ms := last_touch_ms w;
     last_game_update := last_game_update w;
     backBtnState := state; backLastState := last;
     backLastDebounce := debounce |}.

(** The state after [setup()]: [seed_rng(millis())] and [init_pet()]. *)
Definition boot (now : Z) : World :=
  {| shared := {| rng_seed := Rng.seed_rng now Rng.initial;
                  game_over := false; game_score := 0;
                  high_scores := [0; 0; 0; 0] |};
     nav := set_last_tick_ms now
              (set_brightness_and_restart now 255 boot_nav);
     tetris := Tetris.boot;
     snake := Snake.boot;
     breakout := Breakout.fresh;
     asteroids := Asteroids.boot;
     pet := Pet.init_pet now;
     pet_timers := Pet.initial_timers;
     last_touch_ms := 0; last_game_update := 0;
     backBtnState := false; backLastState := false;
     backLastDebounce := 0 |}.

(** The [SCR_GAME_ARCADE] branch of [handle_touch] for a point
    [(tx, ty)]. *)
Definition touch_arcade (lm : Asteroids.Libm) (fuel : nat) (now tx ty : Z)
    (w : World) : option World :=
  match current_game (nav w) with
  | GAME_MENU =>
      if (120 <=? ty) && (ty <=? 180) then
        Some (set_asteroids
                (Asteroids.init_asteroids (shared w)
                   (Asteroids.set_level 1 (asteroids w)))
                (set_nav (set_current_game ASTEROIDS (nav w)) w))
      else if (200 <=? ty) && (ty <=? 260) then
        Some (set_tetris (Tetris.init_tetris now (shared w) (tetris w))
                (set_nav (set_current_game TETRIS (nav w)) w))
      else if (280 <=? ty) && (ty <=? 340) then
        r ← Snake.init_snake fuel now (shared w) (snake w);
        Some (set_snake r (set_nav (set_current_game SNAKE (nav w)) w))
      else if (360 <=? ty) && (ty <=? 420) then
        Some (set_breakout (Breakout.init_breakout (shared w) (breakout w))
                (set_nav (set_current_game BREAKOUT (nav w)) w))
      else Some w
  | ASTEROIDS =>
      Some (set_asteroids
              (Asteroids.touch_asteroids lm now tx (shared w) (asteroids w)) w)
  | TETRIS =>
      Some (set_tetris (Tetris.touch_tetris now tx (shared w) (tetris w)) w)
  | SNAKE =>
      r ← Snake.touch_snake fuel now tx ty (shared w) (snake w);
      Some (set_snake r w)
  | BREAKOUT =>
      Some (set_breakout (Breakout.touch_breakout tx (shared w) (breakout w))
              w)
  end.

(** [void handle_touch()].  [flag] is [touch_flag]; [point] is what
    [FT3168_Get_Point] delivers, [None] when it fails. *)
Definition handle_touch (lm : Asteroids.Libm) (fuel : nat) (now : Z)
    (flag : bool) (point : option (Z * Z)) (w : World) : option World :=
  if negb flag then Some w
  else if to_ulong (now - last_touch_ms w) <? 60 then Some w
  else
    let w1 := set_last_touch_ms now w in
    match point with
    | None => Some w1
    | Some (tx, ty) =>
        if screen_eqb (current_screen (nav w1)) SCR_GAME_ARCADE
        then touch_arcade lm fuel now tx ty w1
        else if screen_eqb (current_screen (nav w1)) SCR_GAME_TAMAGOTCHI
        then Some (set_pet (Pet.pet_touch tx ty (pet w1)) w1)
        else
          let H := AMOLED_1IN8_HEIGHT in
          if ty <? Z.quot H 3
          then Some (set_nav (process_button now BTN_UP (nav w1)) w1)
          else if Z.quot (H * 2) 3 <? ty
          then Some (set_nav (process_button now BTN_DOWN (nav w1)) w1)
          else Some (set_nav (process_button now BTN_SELECT (nav w1)) w1)
    end.

Definition BACK_DEBOUNCE_MS : Z := 40.

(** "BACK button debounce" of [loop]; [reading] is the level of the
    pin. *)
Definition back_button (now : Z) (reading : bool) (w : World) : World :=
  let debounce :=
    if negb (Bool.eqb reading (backLastState w)) then now
    else backLastDebounce w in
  let w1 := set_back (backBtnState w) (backLastState w) debounce w in
  let w2 :=
    if BACK_DEBOUNCE_MS <? to_ulong (now - backLastDebounce w1) then
      if negb (Bool.eqb reading (backBtnState w1)) then
        let w' := set_back reading (backLastState w1)
                    (backLastDebounce w1) w1 in
        if backBtnState w' then
          set_nav (process_button now BTN_BACK
                     (set_brightness_and_restart now 255 (nav w'))) w'
        else w'
      else w1
    else w1 in
  set_back (backBtnState w2) reading (backLastDebounce w2) w2.

(** [qmi_poll_for_tap_wake()]: [tap] says whether the filtered
    acceleration passed the threshold and the debounce. *)
Definition tap_wake (now : Z) (tap : bool) (n : Nav) : Nav :=
  if tap then set_brightness_and_restart now 128 n else n.

(** "Update games" of [loop]: the advance of the selected game. *)
Definition advance_game (lm : Asteroids.Libm) (fuel : nat) (now : Z)
    (w : World) : option World :=
  match current_game (nav w) with
  | ASTEROIDS =>
      Some (set_asteroids
              (Asteroids.update_asteroids lm now (shared w) (asteroids w)) w)
  | TETRIS =>
      r ← Tetris.update_tetris now (shared w) (tetris w);
      Some (set_tetris r w)
  | SNAKE =>
      r ← Snake.update_snake fuel now (shared w) (snake w);
      Some (set_snake r w)
  | BREAKOUT =>
      Some (set_breakout
              (Breakout.update_breakout (shared w) (breakout w)) w)
  | GAME_MENU => Some w
  end.

Definition update_games (lm : Asteroids.Libm) (fuel : nat) (now : Z)
    (w : World) : option World :=
  if screen_eqb (current_screen (nav w)) SCR_GAME_ARCADE
     && (50 <? to_ulong (now - last_game_update w))
  then advance_game lm fuel now (set_last_game_update now w)
  else Some w.

(** "Tamagotchi updates" of [loop]. *)
Definition update_pet (now : Z) (w : World) : World :=
  if screen_eqb (current_screen (nav w)) SCR_GAME_TAMAGOTCHI
  then set_pet_loop
         (Pet.loop_pet now (rng_seed (shared w)) (pet_timers w) (pet w)) w
  else w.

(** What one iteration of [loop] reads from outside. *)
Record Inputs := mkInputs {
  in_now : Z;
  in_touch_flag : bool;
  in_point : option (Z * Z);
  in_back : bool;
  in_tap : bool
}.

(** [void loop()], with the sensor readings that only feed the watch
    face left out. *)
Definition loop (lm : Asteroids.Libm) (fuel : nat) (i : Inputs) (w : World)
    : option World :=
  w1 ← handle_touch lm fuel (in_now i) (in_touch_flag i) (in_point i) w;
  let w2 := back_button (in_now i) (in_back i) w1 in
  let w3 := set_nav (tick_time (in_now i) (nav w2)) w2 in
  let w4 := set_nav (update_dimming (in_now i) (nav w3)) w3 in
  let w5 := set_nav (tap_wake (in_now i) (in_tap i) (nav w4)) w4 in
  w6 ← update_games lm fuel (in_now i) w5;
  Some (update_pet (in_now i) w6).

(** The operations on the world, one at a time. *)
Inductive operation :=
| OpTouch (now : Z) (flag : bool) (point : option (Z * Z))
| OpBackButton (now : Z) (reading : bool)
| OpButton (now : Z) (b : VButton)
| OpTick (now : Z)
| OpDim (now : Z)
| OpTap (now : Z) (tap : bool)
| OpGames (now : Z)
| OpPet (now : Z).

Definition apply (lm : Asteroids.Libm) (fuel : nat) (o : operation)
    (w : World) : option World :=
  match o with
  | OpTouch now flag point => handle_touch lm fuel now flag point w
  | OpBackButton now reading => Some (back_button now reading w)
  | OpButton now b => Some (set_nav (process_button now b (nav w)) w)
  | OpTick now => Some (set_nav (tick_time now (nav w)) w)
  | OpDim now => Some (set_nav (update_dimming now (nav w)) w)
  | OpTap now tap => Some (set_nav (tap_wake now tap (nav w)) w)
  | OpGames now => update_games lm fuel now w
  | OpPet now => Some (update_pet now w)
  end.

(** A sequence of operations, stopping at the first that does not
    return. *)
Fixpoint run_ops (lm : Asteroids.Libm) (fuel : nat) (ops : list operation)
    (w : World) : option World :=
  match ops with
  | [] => Some w
  | o :: rest => w' ← apply lm fuel o w; run_ops lm fuel rest w'
  end.

(** The operations one iteration of [loop] performs, in order. *)
Definition loop_ops (i : Inputs) : list operation :=
  [ OpTouch (in_now i) (in_touch_flag i) (in_point i);
    OpBackButton (in_now i) (in_back i);
    OpTick (in_now i);
    OpDim (in_now i);
    OpTap (in_now i) (in_tap i);
    OpGames (in_now i);
    OpPet (in_now i) ].



(** The watch on the arcade screen playing Snake with 10 points, the
    snake about to run into the right wall. *)
Definition snake_world : World :=
  set_snake
    ({| rng_seed := Rng.initial; game_over := false; game_score := 10;
        high_scores := [0; 0; 0; 0] |},
     {| Snake.snake_x := [19; 18; 17; 16; 15] ++ replicate 95 0;
        Snake.snake_y := replicate 5 15 ++ replicate 95 0;
        Snake.snake_length := 5; Snake.snake_dir := 0;
        Snake.snake_food_x := 3; Snake.snake_food_y := 3;
        Snake.snake_last_move := 0; Snake.snake_speed := 295 |})
    (set_nav (set_current_game SNAKE
                (set_current_screen SCR_GAME_ARCADE boot_nav))
       (boot 0)).

(** The time of day the clock stands for, in seconds; [sec_acc] is
    the count of seconds within the minute. *)
Definition seconds_of_day (n : Nav) : Z := (h n * 60 + m n) * 60 + sec_acc n.

(** What the navigation, clock and backlight globals satisfy at every
    moment. *)
Definition nav_ok (n : Nav) : Prop :=
  current_screen n <> SCR_APP /\
  (current_game n <> GAME_MENU -> current_screen n = SCR_GAME_ARCADE) /\
  0 <= menu_sel n < MENU_COUNT /\
  0 <= games_sel n < GAMES_COUNT /\
  0 <= settings_sel n < SETTINGS_COUNT /\
  0 <= set_time_field n <= 1 /\
  0 <= set_date_field n <= 2 /\
  0 <= h n < 24 /\ 0 <= m n < 60 /\
  1 <= day n <= 31 /\ 1 <= month n <= 12 /\ 0 <= year n < 2 ^ 16 /\
  0 <= sec_acc n < 60 /\
  0 <= brightness_value n <= 255.

(** A press of BACK at time [t]. *)
Definition press_back (t : Z) (n : Nav) : Nav := process_button t BTN_BACK n.

(** The screen a game is played on, with the clock at 23:59 and 59
    seconds, and the "Set Date" screen on 31 December. *)
Definition midnight_nav : Nav :=
  set_sec_acc 59 (set_m 59 (set_h 23 boot_nav)).

Definition new_year_nav : Nav :=
  set_month 12 (set_day 31 (set_current_screen SCR_SET_DATE boot_nav)).

(** The time and date as the "Set Time" and "Set Date" screens edit
    them. *)
Definition clock_fields (n : Nav) : Z * Z * Z * Z * Z :=
  (h n, m n, day n, month n, year n).

(** [snake_world] after the game has ended. *)
Definition finished_world : World :=
  set_shared (set_game_over true (shared snake_world)) snake_world.

(** [snake_world] with the BACK pin read high in the last iteration
    and the press not yet registered. *)
Definition back_held_world : World := set_back false true 0 snake_world.




End Watch.

(** ** Date helpers *)

Module Calendar.

(** [int zellers_dow(int d, int m, int y)]: 0 = Sunday .. 6 = Saturday.
    For a day and a month of the calendar and a year of type [int] the
    sum stays below 2^28, so that the [int] arithmetic is the one of
    the integers, with [/] and [%] truncating. *)
Definition zellers_dow (d m y : Z) : Z :=
  let m1 := if m <? 3 then m + 12 else m in
  let y1 := if m <? 3 then y - 1 else y in
  let q := d in
  let K := Z.rem y1 100 in
  let J := Z.quot y1 100 in
  let hh_ :=
    Z.rem (q + Z.quot (13 * (m1 + 1)) 5 + K + Z.quot K 4 + Z.quot J 4 + 5 * J)
      7 in
  Z.rem (hh_ + 6) 7.

(** The Gregorian calendar that [zellers_dow] is compared with: leap
    years, the length of a month, the day after a date.  The sketch has
    no counterpart of these. *)
Definition leap_year (y : Z) : bool :=
  (y mod 4 =? 0) && (negb (y mod 100 =? 0) || (y mod 400 =? 0)).

Definition days_in_month (m y : Z) : Z :=
  if m =? 2 then (if leap_year y then 29 else 28)
  else if (m =? 4) || (m =? 6) || (m =? 9) || (m =? 11) then 30
  else 31.

Definition next_day (d m y : Z) : Z * Z * Z :=
  if d <? days_in_month m y then (d + 1, m, y)
  else if m <? 12 then (1, m + 1, y)
  else (1, 1, y + 1).

Definition valid_date (d m y : Z) : Prop :=
  1 <= y /\ 1 <= m <= 12 /\ 1 <= d <= days_in_month m y.

End Calendar.

(** * Part II: properties *)

(** ** Machine integers *)

Module CIntFacts.
Import CInt.

Lemma to_ulong_range z : is_ulong (to_ulong z).
Proof. unfold is_ulong, to_ulong. apply Z.mod_pos_bound. lia. Qed.

Lemma to_ulong_small z : is_ulong z -> to_ulong z = z.
Proof. unfold is_ulong, to_ulong. intros H. apply Z.mod_small. lia. Qed.

Lemma to_long_small z : is_long z -> to_long z = z.
Proof.
  unfold is_long, to_long. intros H.
  destruct (Z_lt_le_dec z 0) as [Hneg | Hpos].
  - replace (z mod 2 ^ 32) with (z + 2 ^ 32).
    + destruct (Z.ltb_spec (z + 2 ^ 32) (2 ^ 31)); lia.
    + apply Z.mod_unique with (q := -1); lia.
  - rewrite Z.mod_small by lia.
    destruct (Z.ltb_spec z (2 ^ 31)); lia.
Qed.

Lemma to_u8_small z : is_u8 z -> to_u8 z = z.
Proof. unfold is_u8, to_u8. intros H. apply Z.mod_small. lia. Qed.

Lemma to_u8_range z : is_u8 (to_u8 z).
Proof. unfold is_u8, to_u8. apply Z.mod_pos_bound. lia. Qed.

End CIntFacts.

(** ** Properties of the generator *)

Module RngFacts.
Import CInt CIntFacts Rng.

Lemma mask31 z : Z.land (to_ulong z) 2147483647 = z mod 2 ^ 31.
Proof.
  change 2147483647 with (Z.ones 31).
  rewrite Z.land_ones by lia. unfold to_ulong.
  apply Z.mod_mod_divide. exists 2. reflexivity.
Qed.

Lemma lcg_next_range st : 0 <= lcg_next st < 2 ^ 31.
Proof. unfold lcg_next. apply Z.mod_pos_bound. lia. Qed.

Lemma rng1_spec max_val st :
  0 < max_val < 2 ^ 32 ->
  rng1 max_val st = (lcg_next st mod max_val, lcg_next st).
Proof.
  intros Hm. unfold rng1. rewrite mask31. fold (lcg_next st).
  rewrite (to_ulong_small max_val) by (unfold is_ulong; lia).
  f_equal. apply to_long_small.
  pose proof (lcg_next_range st) as Hs.
  pose proof (Z.mod_pos_bound (lcg_next st) max_val ltac:(lia)) as Hr.
  assert (lcg_next st mod max_val <= lcg_next st)
    by (apply Z.mod_le; lia).
  unfold is_long. lia.
Qed.

(** In [max_val - min_val] the [long] subtraction may exceed the
    [long] range; after the conversion to [unsigned long] inside
    [rng1] the modulus is the mathematical difference again. *)
Lemma span_ulong mn mx :
  is_long mn -> is_long mx -> mn < mx ->
  to_ulong (to_long (mx - mn)) = mx - mn.
Proof.
  unfold is_long, to_ulong, to_long. intros Hmn Hmx Hlt.
  rewrite (Z.mod_small (mx - mn)) by lia.
  destruct (Z.ltb_spec (mx - mn) (2 ^ 31)).
  - apply Z.mod_small. lia.
  - symmetry. apply Z.mod_unique with (q := -1); lia.
Qed.

Lemma rng2_spec mn mx st :
  call_ok (mn, mx) ->
  rng2 mn mx st = (mn + lcg_next st mod (mx - mn), lcg_next st).
Proof.
  intros (Hmn & Hmx & Hlt). simpl in *.
  unfold rng2, rng1. rewrite mask31. fold (lcg_next st).
  rewrite span_ulong by assumption.
  pose proof (lcg_next_range st) as Hs.
  pose proof (Z.mod_pos_bound (lcg_next st) (mx - mn) ltac:(lia)) as Hr.
  assert (lcg_next st mod (mx - mn) <= lcg_next st)
    by (apply Z.mod_le; lia).
  unfold is_long in *.
  rewrite (to_long_small (lcg_next st mod (mx - mn)))
    by (unfold is_long; lia).
  rewrite to_long_small by (unfold is_long; lia).
  reflexivity.
Qed.

Lemma run_spec calls : forall st,
  Forall call_ok calls ->
  fst (run calls st) = lcg_outputs calls st /\
  Forall2 in_range calls (fst (run calls st)).
Proof.
  induction calls as [| [mn mx] rest IH]; intros st Hok; cbn [run].
  - split; [reflexivity | constructor].
  - inversion Hok as [| c cs Hc Hrest]; subst.
    rewrite (rng2_spec mn mx st Hc).
    destruct (IH (lcg_next st) Hrest) as [Heq Hin].
    destruct (run rest (lcg_next st)) as [xs st2] eqn:Hrun.
    cbn [fst snd lcg_outputs] in *.
    split; [now rewrite Heq |].
    constructor; [| exact Hin].
    destruct Hc as (Hmn & Hmx & Hlt). unfold in_range. simpl in *.
    pose proof (Z.mod_pos_bound (lcg_next st) (mx - mn) ltac:(lia)). lia.
Qed.

(** C1. Seeding overwrites the state, so two runs seeded with the same
    value give the same outputs whatever happened before; every output
    of a call with [min < max] lies in [[min, max)] and is the value
    [min + state mod (max - min)] of the recurrence
    [state = (state * 1103515245 + 12345) mod 2^31]. *)
Theorem rng_deterministic_in_range (seed : Z) (calls : list (Z * Z))
    (before1 before2 : rng_state) :
  Forall call_ok calls ->
  fst (run calls (seed_rng seed before1))
    = fst (run calls (seed_rng seed before2)) /\
  fst (run calls (seed_rng seed before1))
    = lcg_outputs calls (to_ulong seed) /\
  Forall2 in_range calls (fst (run calls (seed_rng seed before1))).
Proof.
  intros Hok. unfold seed_rng.
  destruct (run_spec calls (to_ulong seed) Hok) as [Heq Hin].
  repeat split; assumption.
Qed.

Lemma rng_deterministic_in_range_witness :
  Forall call_ok [(0, 7); (0, 7); (0, 7)] /\
  fst (run [(0, 7); (0, 7); (0, 7)] (seed_rng 42 initial))
    = fst (run [(0, 7); (0, 7); (0, 7)] (seed_rng 42 99)) /\
  fst (run [(0, 7); (0, 7); (0, 7)] (seed_rng 42 initial))
    = lcg_outputs [(0, 7); (0, 7); (0, 7)] (to_ulong 42) /\
  Forall2 in_range [(0, 7); (0, 7); (0, 7)]
    (fst (run [(0, 7); (0, 7); (0, 7)] (seed_rng 42 initial))).
Proof.
  assert (Hok : Forall call_ok [(0, 7); (0, 7); (0, 7)])
    by (repeat constructor; unfold is_long; cbn; lia).
  split; [exact Hok |].
  exact (rng_deterministic_in_range 42 [(0, 7); (0, 7); (0, 7)]
           initial 99 Hok).
Defined.

(** Scenario 1 of the specification: seed 42, three draws from [0, 7). *)
Example scenario_seed_42 :
  fst (run [(0, 7); (0, 7); (0, 7)] (seed_rng 42 initial)) = [4; 0; 6].
Proof. reflexivity. Qed.

End RngFacts.

(** ** End of a game and the high-score table *)

Module ArcadeFacts.
Import Arcade.

Lemma end_game_over i sh : game_over (end_game i sh) = true.
Proof.
  unfold end_game.
  destruct (high_score i (set_game_over true sh)
              <? game_score (set_game_over true sh)); reflexivity.
Qed.

Lemma end_game_score i sh : game_score (end_game i sh) = game_score sh.
Proof.
  unfold end_game.
  destruct (high_score i (set_game_over true sh)
              <? game_score (set_game_over true sh)); reflexivity.
Qed.

Lemma end_game_rng i sh : rng_seed (end_game i sh) = rng_seed sh.
Proof.
  unfold end_game.
  destruct (high_score i (set_game_over true sh)
              <? game_score (set_game_over true sh)); reflexivity.
Qed.


Lemma length_put {A} (a : list A) i v : length (put a i v) = length a.
Proof. unfold put. destruct (i <? 0); [reflexivity | apply length_insert]. Qed.

Lemma get_put_eq (a : list Z) i v :
  0 <= i < Z.of_nat (length a) -> get (put a i v) i = v.
Proof.
  intros Hi. unfold get, put.
  destruct (Z.ltb_spec i 0); [lia |].
  rewrite list_lookup_insert_eq by lia. reflexivity.
Qed.

Lemma get_put_ne (a : list Z) i j v :
  0 <= i -> 0 <= j -> i <> j -> get (put a i v) j = get a j.
Proof.
  intros Hi Hj Hne. unfold get, put.
  destruct (Z.ltb_spec i 0); [lia |].
  destruct (Z.ltb_spec j 0); [lia |].
  rewrite list_lookup_insert_ne by lia. reflexivity.
Qed.

End ArcadeFacts.

(** ** Single-precision floats: order and exact values *)

Module F32Facts.
Import F32.

Lemma digits2_pos_bounds (m : positive) :
  2 ^ (Z.pos (digits2_pos m) - 1) <= Z.pos m < 2 ^ Z.pos (digits2_pos m).
Proof.
  induction m as [m IH | m IH |]; cbn [digits2_pos].
  - rewrite Pos2Z.inj_succ.
    replace (Z.succ (Z.pos (digits2_pos m)) - 1)
      with (Z.succ (Z.pos (digits2_pos m) - 1)) by lia.
    rewrite !Z.pow_succ_r by lia. lia.
  - rewrite Pos2Z.inj_succ.
    replace (Z.succ (Z.pos (digits2_pos m)) - 1)
      with (Z.succ (Z.pos (digits2_pos m) - 1)) by lia.
    rewrite !Z.pow_succ_r by lia. lia.
  - cbn. lia.
Qed.

(** A canonical mantissa has at most 24 bits, and exactly 24 above the
    smallest exponent. *)
Lemma canonical_bounds m e :
  canonical_mantissa prec emax m e = true ->
  -149 <= e /\ Z.pos m < 2 ^ 24 /\ (-149 < e -> 2 ^ 23 <= Z.pos m).
Proof.
  unfold canonical_mantissa, fexp, emin, prec, emax.
  intros H. apply Z.eqb_eq in H.
  pose proof (digits2_pos_bounds m) as [Hlo Hhi].
  set (d := Z.pos (digits2_pos m)) in *.
  assert (Hd : 0 < d) by (subst d; lia).
  destruct (Z.max_spec (d + e - 24) (3 - 128 - 24)) as [[Hlt Hmax] | [Hle Hmax]];
    rewrite Hmax in H.
  - split; [lia |]. split; [| lia].
    assert (d <= 24) by lia.
    pose proof (Z.pow_le_mono_r 2 d 24 ltac:(lia) ltac:(lia)). lia.
  - assert (d = 24) by lia.
    replace d with 24 in * by lia.
    split; [lia |]. split; [exact Hhi |]. intros _. exact Hlo.
Qed.

Lemma scaled_lt_exponent m1 e1 m2 e2 :
  canonical_mantissa prec emax m1 e1 = true ->
  canonical_mantissa prec emax m2 e2 = true ->
  e1 < e2 ->
  Z.pos m1 * 2 ^ (e1 + 149) < Z.pos m2 * 2 ^ (e2 + 149).
Proof.
  intros H1 H2 Hlt.
  destruct (canonical_bounds _ _ H1) as (He1 & Hm1 & _).
  destruct (canonical_bounds _ _ H2) as (He2 & _ & Hm2).
  specialize (Hm2 ltac:(lia)).
  assert (Hpos : 0 < 2 ^ (e1 + 149)) by (apply Z.pow_pos_nonneg; lia).
  assert (Hstep : 2 * 2 ^ (e1 + 149) <= 2 ^ (e2 + 149)).
  { rewrite <- Z.pow_succ_r by lia. apply Z.pow_le_mono_r; lia. }
  change (2 ^ 24) with (2 * 2 ^ 23) in Hm1.
  nia.
Qed.

Lemma valid_canonical s m e :
  valid (S754_finite s m e) = true ->
  canonical_mantissa prec emax m e = true.
Proof.
  unfold valid, valid_binary, bounded. intros H.
  now apply andb_true_iff in H as [H _].
Qed.

Lemma compare_cont_eq m1 m2 :
  Pos.compare_cont Eq m1 m2 = (Z.pos m1 ?= Z.pos m2).
Proof. reflexivity. Qed.

(** On canonical finite floats [<=] is the order of the values. *)
Lemma fle_scaled x y :
  valid x = true -> valid y = true ->
  is_finite x = true -> is_finite y = true ->
  fle x y = true -> scaled x <= scaled y.
Proof.
  intros Hvx Hvy Hfx Hfy.
  destruct x as [sx | sx | | sx mx ex]; try discriminate Hfx;
  destruct y as [sy | sy | | sy my ey]; try discriminate Hfy;
    unfold fle, SFleb, SFcompare, scaled.
  - lia.
  - destruct sy; [discriminate |].
    intros _. pose proof (Z.pow_nonneg 2 (ey + 149) ltac:(lia)). nia.
  - destruct sx; [| discriminate].
    intros _. pose proof (Z.pow_nonneg 2 (ex + 149) ltac:(lia)). nia.
  - pose proof (valid_canonical _ _ _ Hvx) as Hcx.
    pose proof (valid_canonical _ _ _ Hvy) as Hcy.
    destruct (canonical_bounds _ _ Hcx) as (Hex & _ & _).
    destruct (canonical_bounds _ _ Hcy) as (Hey & _ & _).
    assert (Hpx : 0 < 2 ^ (ex + 149)) by (apply Z.pow_pos_nonneg; lia).
    assert (Hpy : 0 < 2 ^ (ey + 149)) by (apply Z.pow_pos_nonneg; lia).
    destruct sx, sy; try discriminate.
    + (* both negative *)
      rewrite compare_cont_eq.
      destruct (Z.compare_spec ex ey) as [Heq | Hlt | Hgt].
      * subst ey.
        destruct (Z.compare_spec (Z.pos mx) (Z.pos my)); cbn;
          intros; try discriminate; nia.
      * discriminate.
      * intros _.
        pose proof (scaled_lt_exponent _ _ _ _ Hcy Hcx Hgt). lia.
    + intros _. nia.
    + (* both positive *)
      rewrite compare_cont_eq.
      destruct (Z.compare_spec ex ey) as [Heq | Hlt | Hgt].
      * subst ey.
        destruct (Z.compare_spec (Z.pos mx) (Z.pos my)); cbn;
          intros; try discriminate; nia.
      * intros _.
        pose proof (scaled_lt_exponent _ _ _ _ Hcx Hcy Hlt). lia.
      * discriminate.
Qed.

Lemma to_Q_scaled x :
  valid x = true -> (to_Q x == Qmake (scaled x) (Z.to_pos (2 ^ 149)))%Q.
Proof.
  intros Hv. destruct x as [sx | sx | | sx mx ex]; try reflexivity.
  pose proof (valid_canonical _ _ _ Hv) as Hc.
  destruct (canonical_bounds _ _ Hc) as (Hex & _ & _).
  unfold to_Q, scaled.
  set (v := if sx then Z.neg mx else Z.pos mx).
  destruct (Z.leb_spec 0 ex) as [Hnn | Hneg].
  - unfold Qeq, inject_Z. cbn [Qnum Qden].
    rewrite Z.pow_add_r by lia.
    rewrite Z2Pos.id by (apply Z.pow_pos_nonneg; lia). lia.
  - unfold Qeq. cbn [Qnum Qden].
    rewrite !Z2Pos.id by (apply Z.pow_pos_nonneg; lia).
    replace 149 with (- ex + (ex + 149)) at 1 by lia.
    rewrite Z.pow_add_r by lia. lia.
Qed.

Lemma fle_to_Q x y :
  valid x = true -> valid y = true ->
  is_finite x = true -> is_finite y = true ->
  fle x y = true -> (to_Q x <= to_Q y)%Q.
Proof.
  intros Hvx Hvy Hfx Hfy Hle.
  rewrite (to_Q_scaled x Hvx), (to_Q_scaled y Hvy).
  unfold Qle. cbn [Qnum Qden].
  pose proof (fle_scaled x y Hvx Hvy Hfx Hfy Hle).
  apply Z.mul_le_mono_nonneg_r; [lia | assumption].
Qed.

(** A float between two finite ones is finite. *)
Lemma between_finite p x q :
  is_finite p = true -> is_finite q = true ->
  fle p x = true -> fle x q = true -> is_finite x = true.
Proof.
  destruct x as [sx | [] | | sx mx ex]; try reflexivity;
    destruct p as [sp | [] | | sp mp ep], q as [sq | [] | | sq mq eq];
    try discriminate; try reflexivity;
    unfold fle, SFleb, SFcompare; try discriminate;
    try (destruct sq; discriminate); try (destruct sp; discriminate).
Qed.

Lemma float_eqb_eq x y : float_eqb x y = true -> x = y.
Proof.
  destruct x as [a | a | | a m e], y as [b | b | | b n f];
    try discriminate; cbn [float_eqb]; intros H.
  - now apply Bool.eqb_prop in H as ->.
  - now apply Bool.eqb_prop in H as ->.
  - reflexivity.
  - apply andb_true_iff in H as [H He].
    apply andb_true_iff in H as [Hs Hm].
    apply Bool.eqb_prop in Hs. apply Z.eqb_eq in Hm, He.
    injection Hm as ->. now subst.
Qed.

End F32Facts.

(** ** The pet's stats stay in range *)

Module PetFacts.
Import CInt CIntFacts Pet.

Lemma to_u8_stat v : 0 <= v <= 100 -> to_u8 v = v.
Proof. intros H. apply to_u8_small. unfold is_u8. lia. Qed.

(** Storing a value of [0..100] into a stat keeps it. *)
Ltac stat_store :=
  repeat match goal with
  | |- context [to_u8 ?v] => rewrite (to_u8_stat v) by lia
  end.

Ltac stats_crush :=
  unfold stats_ok, stat_ok in *; cbn in *; stat_store; lia.

Lemma feed_ok p : stats_ok p -> stats_ok (feed p).
Proof. intros H. unfold feed. stats_crush. Qed.

Lemma play_ok p : stats_ok p -> stats_ok (play p).
Proof. intros H. unfold play. stats_crush. Qed.

Lemma clean_ok p : stats_ok p -> stats_ok (clean p).
Proof. intros H. unfold clean. stats_crush. Qed.

Lemma medicine_ok p : stats_ok p -> stats_ok (medicine p).
Proof. intros H. unfold medicine. stats_crush. Qed.

Lemma petting_ok p : stats_ok p -> stats_ok (petting p).
Proof. intros H. unfold petting. stats_crush. Qed.

Lemma pet_touch_ok tx ty p : stats_ok p -> stats_ok (pet_touch tx ty p).
Proof.
  intros H. unfold pet_touch.
  destruct (is_egg (stage p)); [exact H |].
  repeat match goal with
  | |- context [if ?c then _ else _] => destruct c
  end;
  auto using feed_ok, play_ok, clean_ok, medicine_ok, petting_ok.
Qed.

Lemma decay_ok p : stats_ok p -> stats_ok (decay p).
Proof.
  intros H. unfold decay. cbv zeta.
  set (p1 := if 0 <? hunger p then _ else p).
  assert (H1 : stats_ok p1)
    by (subst p1; destruct (0 <? hunger p); [stats_crush | exact H]).
  clearbody p1.
  set (p2 := if 0 <? happiness p1 then _ else p1).
  assert (H2 : stats_ok p2)
    by (subst p2; destruct (0 <? happiness p1); [stats_crush | exact H1]).
  clearbody p2.
  set (p3 := if 0 <? cleanliness p2 then _ else p2).
  assert (H3 : stats_ok p3)
    by (subst p3; destruct (0 <? cleanliness p2); [stats_crush | exact H2]).
  clearbody p3.
  destruct ((hunger p3 <? 20) || (happiness p3 <? 20) || (cleanliness p3 <? 30));
    [stats_crush | exact H3].
Qed.

Lemma floor_stats_ok p : stats_ok p -> stats_ok (floor_stats p).
Proof.
  intros H. unfold floor_stats. cbv zeta.
  set (p1 := if hunger p <? 0 then _ else p).
  assert (H1 : stats_ok p1)
    by (subst p1; destruct (hunger p <? 0); [stats_crush | exact H]).
  clearbody p1.
  set (p2 := if happiness p1 <? 0 then _ else p1).
  assert (H2 : stats_ok p2)
    by (subst p2; destruct (happiness p1 <? 0); [stats_crush | exact H1]).
  clearbody p2.
  destruct (health p2 <? 0); [stats_crush | exact H2].
Qed.

(** The animation offsets do not touch the stats. *)
Lemma loop_pet_ok now st tm p :
  stats_ok p -> stats_ok (snd (loop_pet now st tm p)).
Proof.
  intros H. unfold loop_pet.
  set (a1 := if 3000 <? to_ulong (now - last_creature_move p) then _ else _).
  assert (H1 : stats_ok (snd a1)).
  { subst a1. destruct (3000 <? to_ulong (now - last_creature_move p));
      [| exact H].
    destruct (Rng.rng2 (-5) 6 st) as [ox s1].
    destruct (Rng.rng2 (-5) 6 s1) as [oy s2]. exact H. }
  destruct a1 as [st1 p1]. cbn [snd] in H1.
  set (a2 := if 1000 <? to_ulong (now - last_eye_move p1) then _ else _).
  assert (H2 : stats_ok (snd a2)).
  { subst a2. destruct (1000 <? to_ulong (now - last_eye_move p1));
      [| exact H1].
    destruct (Rng.rng2 (-3) 4 st1) as [ox s1].
    destruct (Rng.rng2 (-3) 4 s1) as [oy s2]. exact H1. }
  destruct a2 as [st2 p2]. cbn [snd] in H2.
  destruct (30000 <? to_ulong (now - last_stat_decay tm)); cbn [snd];
    apply floor_stats_ok; [apply decay_ok |]; exact H2.
Qed.

Lemma init_pet_ok now : stats_ok (init_pet now).
Proof. unfold stats_ok, stat_ok. cbn. lia. Qed.

(** C2. In every state reached from [init_pet] by touches (feed, play,
    clean, medicine, petting, hatching) and loop iterations (which run
    the 30-second decay when it is due), hunger, happiness, health and
    cleanliness all lie in [[0, 100]]. *)
Theorem pet_stats_in_range (s : pet_state) :
  pet_reachable s -> stats_ok (snd s).
Proof.
  induction 1 as [now st | e [[st tm] p] Hreach IH].
  - apply init_pet_ok.
  - destruct e as [tx ty | now]; cbn [pet_step snd] in *.
    + apply pet_touch_ok, IH.
    + apply loop_pet_ok, IH.
Qed.

Lemma pet_stats_in_range_witness :
  pet_reachable
    (pet_step (LoopTick 40000)
       (pet_step (Touch 150 420)
          (pet_step (Touch 40 420)
             (pet_step (Touch 100 100)
                (Rng.initial, initial_timers, init_pet 0))))) /\
  stats_ok
    (snd (pet_step (LoopTick 40000)
            (pet_step (Touch 150 420)
               (pet_step (Touch 40 420)
                  (pet_step (Touch 100 100)
                     (Rng.initial, initial_timers, init_pet 0)))))).
Proof.
  assert (Hr : pet_reachable
    (pet_step (LoopTick 40000)
       (pet_step (Touch 150 420)
          (pet_step (Touch 40 420)
             (pet_step (Touch 100 100)
                (Rng.initial, initial_timers, init_pet 0))))))
    by (repeat apply reach_step; apply reach_init).
  split; [exact Hr | exact (pet_stats_in_range _ Hr)].
Defined.

End PetFacts.

(** ** Tetris: rotation *)

Module TetrisFacts.
Import Arcade Tetris.

Lemma index4 (i : Z) : 0 <= i < 4 -> i = 0 \/ i = 1 \/ i = 2 \/ i = 3.
Proof. lia. Qed.

Lemma get2_rotated piece i j :
  0 <= i < 4 -> 0 <= j < 4 ->
  get2 (rotated piece) i j = get2 piece (3 - j) i.
Proof.
  intros Hi Hj.
  destruct (index4 i Hi) as [-> | [-> | [-> | ->]]];
  destruct (index4 j Hj) as [-> | [-> | [-> | ->]]]; reflexivity.
Qed.

(** C3. [tetris_rotate_piece] builds [temp[i][j] = piece[3-j][i]];
    it stores [temp] without moving when it fits at the current
    position; otherwise it takes the first of the offsets (-1,0), (1,0),
    (-2,0), (2,0), (0,-1) at which [temp] fits, moving the piece there;
    and when none fits the whole state is unchanged. *)
Theorem rotate_piece_spec (t : State) :
  let temp := rotated (tetris_current_piece t) in
  let fits dx dy :=
    tetris_can_place_piece (tetris_grid t) (tetris_piece_x t + dx)
      (tetris_piece_y t + dy) temp in
  (forall i j, 0 <= i < 4 -> 0 <= j < 4 ->
     get2 temp i j = get2 (tetris_current_piece t) (3 - j) i) /\
  kick_offsets = [(-1, 0); (1, 0); (-2, 0); (2, 0); (0, -1)] /\
  (fits 0 0 = true -> tetris_rotate_piece t = set_piece temp t) /\
  (forall (k : nat) dx dy,
     fits 0 0 = false ->
     kick_offsets !! k = Some (dx, dy) ->
     fits dx dy = true ->
     (forall (k' : nat) dx' dy',
        (k' < k)%nat -> kick_offsets !! k' = Some (dx', dy') ->
        fits dx' dy' = false) ->
     tetris_rotate_piece t
       = set_piece temp
           (set_pos (tetris_piece_x t + dx) (tetris_piece_y t + dy) t)) /\
  (fits 0 0 = false ->
   (forall (k : nat) dx dy,
      kick_offsets !! k = Some (dx, dy) -> fits dx dy = false) ->
   tetris_rotate_piece t = t).
Proof.
  intros temp fits.
  assert (Hhere : fits 0 0 = tetris_can_place_piece (tetris_grid t)
            (tetris_piece_x t) (tetris_piece_y t) temp)
    by (unfold fits; now rewrite !Z.add_0_r).
  split; [exact (get2_rotated _) |].
  split; [reflexivity |].
  split; [| split].
  - intros Hfit. unfold tetris_rotate_piece. fold temp.
    now rewrite <- Hhere, Hfit.
  - intros k dx dy Hno Hk Hfit Hprev.
    unfold tetris_rotate_piece. fold temp. rewrite <- Hhere, Hno.
    assert (Hp : forall (k' : nat) dx' dy', (k' < k)%nat ->
              kick_offsets !! k' = Some (dx', dy') ->
              tetris_can_place_piece (tetris_grid t) (tetris_piece_x t + dx')
                (tetris_piece_y t + dy') temp = false) by exact Hprev.
    assert (Hf : tetris_can_place_piece (tetris_grid t) (tetris_piece_x t + dx)
                (tetris_piece_y t + dy) temp = true) by exact Hfit.
    clear Hprev Hfit Hhere Hno. clearbody temp. clear fits.
    destruct k as [| [| [| [| [| k]]]]]; cbn in Hk; try discriminate;
      injection Hk as <- <-; cbn [kick_offsets try_kicks];
      repeat match goal with
      | |- context [tetris_can_place_piece _ (tetris_piece_x t + ?a)
                      (tetris_piece_y t + ?b) temp] =>
          first
            [ rewrite Hf
            | match goal with
              | Hp : forall k' : nat, _ |- _ =>
                  first
                    [ rewrite (Hp 0%nat a b ltac:(lia) eq_refl)
                    | rewrite (Hp 1%nat a b ltac:(lia) eq_refl)
                    | rewrite (Hp 2%nat a b ltac:(lia) eq_refl)
                    | rewrite (Hp 3%nat a b ltac:(lia) eq_refl) ]
              end ]
      end; reflexivity.
  - intros Hno Hnone.
    unfold tetris_rotate_piece. fold temp. rewrite <- Hhere, Hno.
    cbn [kick_offsets try_kicks].
    assert (Hn : forall (k : nat) dx dy,
              kick_offsets !! k = Some (dx, dy) ->
              tetris_can_place_piece (tetris_grid t) (tetris_piece_x t + dx)
                (tetris_piece_y t + dy) temp = false) by exact Hnone.
    rewrite (Hn 0%nat (-1) 0 eq_refl), (Hn 1%nat 1 0 eq_refl),
      (Hn 2%nat (-2) 0 eq_refl), (Hn 3%nat 2 0 eq_refl),
      (Hn 4%nat 0 (-1) eq_refl).
    reflexivity.
Qed.

Lemma rotate_piece_spec_witness :
  tetris_rotate_piece wall_state
    = set_piece (rotated (tetris_current_piece wall_state))
        (set_pos 0 0 wall_state).
Proof.
  destruct (rotate_piece_spec wall_state) as (_ & _ & _ & Hkick & _).
  apply (Hkick 1%nat 1 0); try reflexivity.
  intros k' dx' dy' Hlt Hk.
  assert (k' = 0%nat) as -> by lia.
  injection Hk as <- <-. reflexivity.
Defined.

(** ** Tetris: clearing lines *)

Lemma row_full_empty_row : row_full empty_row = false.
Proof. reflexivity. Qed.

Lemma move_down_spec k : forall grid,
  (k < length grid)%nat ->
  move_down k grid = take 1 grid ++ take k grid ++ drop (S k) grid.
Proof.
  induction k as [| k IH]; intros grid Hk; cbn [move_down].
  - rewrite take_0. cbn [app]. now rewrite take_drop.
  - destruct (lookup_lt_is_Some_2 grid k ltac:(lia)) as [x Hx].
    rewrite Hx. cbn [default].
    rewrite IH by (rewrite length_insert; lia).
    rewrite !take_insert_ge by lia.
    rewrite drop_insert_ge by lia.
    replace (S k - S k)%nat with O by lia.
    destruct (lookup_lt_is_Some_2 grid (S k) Hk) as [z Hz].
    rewrite (drop_S _ _ _ Hz). cbn [list_insert insert].
    rewrite (take_S_r _ _ _ Hx). now rewrite <- !app_assoc.
Qed.

Lemma remove_row_spec (init : list (list Z)) r bot :
  remove_row (init ++ r :: bot) (Z.of_nat (length init))
    = empty_row :: init ++ bot.
Proof.
  unfold remove_row. rewrite Nat2Z.id.
  rewrite move_down_spec by (rewrite length_app; cbn; lia).
  rewrite take_app_length.
  replace (init ++ r :: bot) with ((init ++ [r]) ++ bot) at 2
    by now rewrite <- app_assoc.
  rewrite drop_app_length' by (rewrite length_app; cbn; lia).
  destruct init; reflexivity.
Qed.

Lemma full_count_snoc init r :
  full_count (init ++ [r])
    = (full_count init + if row_full r then 1 else 0)%nat.
Proof.
  unfold full_count. rewrite filter_app, length_app. f_equal.
  destruct (row_full r) eqn:Hr.
  - now rewrite filter_cons_True.
  - rewrite filter_cons_False; [reflexivity | congruence].
Qed.

Lemma replicate_shift {A} n (x : A) l :
  replicate n x ++ x :: l = x :: replicate n x ++ l.
Proof. induction n as [| n IH]; cbn; [reflexivity | now rewrite IH]. Qed.

(** The loop processes the rows [top] above and including row [y];
    the rows [bot] below are final. *)
Lemma clear_loop_spec fuel : forall top bot lines,
  (length top + full_count top < fuel)%nat ->
  clear_loop fuel (top ++ bot) (Z.of_nat (length top) - 1) lines
    = Some (replicate (full_count top) empty_row
              ++ filter (fun r => row_full r <> true) top ++ bot,
            lines + Z.of_nat (full_count top)).
Proof.
  induction fuel as [| fuel IH]; intros top bot lines Hfuel; [lia |].
  cbn [clear_loop].
  destruct (decide (top = [])) as [-> | Hne].
  - cbn. now rewrite Z.add_0_r.
  - destruct (exists_last Hne) as (init & r & ->).
    rewrite length_app in *. cbn [length] in *.
    rewrite full_count_snoc in *.
    destruct (Z.ltb_spec (Z.of_nat (length init + 1) - 1) 0); [lia |].
    replace (Z.of_nat (length init + 1) - 1) with (Z.of_nat (length init))
      by lia.
    rewrite <- app_assoc. cbn [app].
    assert (Hrow : get_row (init ++ r :: bot) (Z.of_nat (length init)) = r).
    { unfold get_row.
      destruct (Z.ltb_spec (Z.of_nat (length init)) 0); [lia |].
      now rewrite Nat2Z.id, list_lookup_middle. }
    rewrite Hrow. destruct (row_full r) eqn:Hr.
    + rewrite remove_row_spec.
      replace (Z.of_nat (length init) + 1 - 1)
        with (Z.of_nat (length (empty_row :: init)) - 1)
        by (cbn [length]; lia).
      change (empty_row :: init ++ bot) with ((empty_row :: init) ++ bot).
      assert (Hc : full_count (empty_row :: init) = full_count init).
      { unfold full_count. rewrite filter_cons_False; [reflexivity |].
        rewrite row_full_empty_row. discriminate. }
      rewrite IH by (rewrite Hc; cbn [length]; lia).
      rewrite Hc. rewrite filter_app.
      rewrite (filter_cons_False _ r) by (rewrite Hr; tauto).
      rewrite filter_nil, app_nil_r.
      rewrite (filter_cons_True _ empty_row)
        by (rewrite row_full_empty_row; discriminate).
      cbn [app]. rewrite replicate_shift.
      replace (full_count init + 1)%nat with (S (full_count init)) by lia.
      cbn [replicate app]. f_equal. f_equal. lia.
    + rewrite IH by lia.
      rewrite filter_app.
      rewrite (filter_cons_True _ r) by (rewrite Hr; discriminate).
      rewrite filter_nil. rewrite Nat.add_0_r.
      rewrite <- !app_assoc. reflexivity.
Qed.

Lemma full_count_le grid : (full_count grid <= length grid)%nat.
Proof. unfold full_count. apply length_filter. Qed.

(** The fixed bound is enough for a grid of [GRID_H] rows. *)
Lemma clear_loop_total grid :
  length grid = Z.to_nat GRID_H ->
  clear_loop clear_fuel grid (GRID_H - 1) 0
    = Some (cleared grid, Z.of_nat (full_count grid)).
Proof.
  intros Hlen.
  pose proof (clear_loop_spec clear_fuel grid [] 0) as Hspec.
  rewrite !app_nil_r in Hspec.
  replace (Z.of_nat (length grid) - 1) with (GRID_H - 1) in Hspec
    by (rewrite Hlen; reflexivity).
  rewrite Hspec; [reflexivity |].
  pose proof (full_count_le grid).
  rewrite Hlen in *. unfold clear_fuel, GRID_H in *. lia.
Qed.



End TetrisFacts.

(** ** Snake *)

Module SnakeFacts.
Import CInt Arcade Snake.

Lemma collision_segment s i x y :
  0 <= i < snake_length s ->
  get (snake_x s) i = x -> get (snake_y s) i = y ->
  snake_check_collision s x y = true.
Proof.
  intros Hi Hx Hy. unfold snake_check_collision.
  destruct ((x <? 0) || (SNAKE_GRID_W <=? x) || (y <? 0)
            || (SNAKE_GRID_H <=? y)); [reflexivity |].
  apply existsb_exists. exists i. split.
  - apply list_elem_of_In, elem_of_seqZ. lia.
  - rewrite Hx, Hy, !Z.eqb_refl. reflexivity.
Qed.

Lemma next_head_opposite d x0 y0 x1 y1 :
  0 <= d <= 3 ->
  next_head d x1 y1 = (x0, y0) ->
  next_head (opposite d) x0 y0 = (x1, y1).
Proof.
  intros Hd.
  assert (Hcases : d = 0 \/ d = 1 \/ d = 2 \/ d = 3) by lia.
  destruct Hcases as [-> | [-> | [-> | ->]]]; cbn;
    intros [= <- <-]; vm_compute opposite; cbn; f_equal; lia.
Qed.

(** C10. A touch overwrites [snake_dir] with the direction of its zone
    whatever the snake is doing.  When that direction is the opposite
    of the direction [d] in which a snake of length at least 2 has just
    moved (its second segment lies one step behind the head), the head
    computed at the next due tick is the cell of the second segment,
    and [update_snake] ends the game on that tick. *)
Theorem reversal_ends_game (fuel : nat) (now0 now tx ty d : Z)
    (sh : Shared) (s : State) :
  game_over sh = false ->
  2 <= snake_length s ->
  0 <= d <= 3 ->
  next_head d (get (snake_x s) 1) (get (snake_y s) 1)
    = (get (snake_x s) 0, get (snake_y s) 0) ->
  touch_dir tx ty = opposite d ->
  tick_due now s ->
  exists s1 sh2 s2,
    touch_snake fuel now0 tx ty sh s = Some (sh, s1) /\
    snake_dir s1 = opposite d /\
    next_head (snake_dir s1) (get (snake_x s1) 0) (get (snake_y s1) 0)
      = (get (snake_x s1) 1, get (snake_y s1) 1) /\
    update_snake fuel now sh s1 = Some (sh2, s2) /\
    game_over sh2 = true.
Proof.
  intros Hover Hlen Hd Htravel Htouch Hdue.
  exists (set_dir (touch_dir tx ty) s).
  pose proof (next_head_opposite d _ _ _ _ Hd Htravel) as Hback.
  unfold touch_snake. rewrite Hover.
  eexists _, _. split; [reflexivity |].
  split; [cbn; exact Htouch |].
  split; [cbn [snake_dir snake_x snake_y set_dir]; now rewrite Htouch |].
  unfold update_snake. rewrite Hover.
  unfold tick_due in Hdue.
  cbn [snake_last_move snake_speed set_dir]. rewrite Hdue.
  cbn [snake_dir snake_x snake_y set_dir set_last_move].
  rewrite Htouch, Hback.
  rewrite (collision_segment _ 1 (get (snake_x s) 1) (get (snake_y s) 1));
    [| cbn; lia | reflexivity | reflexivity].
  split; [reflexivity |].
  apply ArcadeFacts.end_game_over.
Qed.

Lemma reversal_ends_game_witness :
  exists s1 sh2 s2,
    touch_snake 1 0 50 200 eat_shared eat_state = Some (eat_shared, s1) /\
    snake_dir s1 = opposite 0 /\
    next_head (snake_dir s1) (get (snake_x s1) 0) (get (snake_y s1) 0)
      = (get (snake_x s1) 1, get (snake_y s1) 1) /\
    update_snake 1 300 eat_shared s1 = Some (sh2, s2) /\
    game_over sh2 = true.
Proof.
  apply (reversal_ends_game 1 0 300 50 200 0 eat_shared eat_state);
    first [reflexivity | cbn; lia].
Defined.

(** *** Eating *)

Lemma place_food_free fuel : forall st s st' fx fy,
  place_food fuel st s = Some (st', fx, fy) ->
  snake_check_collision s fx fy = false.
Proof.
  induction fuel as [| fuel IH]; intros st s st' fx fy; cbn [place_food];
    [discriminate |].
  destruct (Rng.rng1 SNAKE_GRID_W st) as [x st1].
  destruct (Rng.rng1 SNAKE_GRID_H st1) as [y st2].
  destruct (snake_check_collision s x y) eqn:Hc.
  - apply IH.
  - now intros [= <- <- <-].
Qed.

(** What a tick that eats does when the food loop ends: the length
    grows by one, the interval drops by 5 with floor 100, the score
    grows by 10, and the new food cell passed the collision check
    against the arrays as they were before the snake moved (with the
    length already incremented). *)
Lemma length_shift_body k : forall a, length (shift_body k a) = length a.
Proof.
  induction k as [| k IH]; intros a; cbn [shift_body]; [reflexivity |].
  now rewrite IH, ArcadeFacts.length_put.
Qed.

Lemma update_snake_eat fuel now sh s sh' s' :
  arrays_wf s ->
  game_over sh = false ->
  tick_due now s ->
  next_head (snake_dir s) (get (snake_x s) 0) (get (snake_y s) 0)
    = (snake_food_x s, snake_food_y s) ->
  snake_check_collision s (snake_food_x s) (snake_food_y s) = false ->
  update_snake fuel now sh s = Some (sh', s') ->
  snake_length s' = snake_length s + 1 /\
  snake_speed s' = Z.max 100 (snake_speed s - 5) /\
  game_score sh' = game_score sh + 10 /\
  get (snake_x s') 0 = snake_food_x s /\
  get (snake_y s') 0 = snake_food_y s /\
  snake_check_collision
    (set_growth (snake_length s + 1) (snake_speed s) s)
    (snake_food_x s') (snake_food_y s') = false.
Proof.
  intros [Hwx Hwy] Hover Hdue Hahead Hfree.
  unfold update_snake, tick_due in *.
  rewrite Hover, Hdue.
  cbn [snake_dir snake_x snake_y snake_food_x snake_food_y snake_length
       snake_speed set_last_move].
  rewrite Hahead.
  change (snake_check_collision (set_last_move now s) (snake_food_x s)
            (snake_food_y s))
    with (snake_check_collision s (snake_food_x s) (snake_food_y s)).
  rewrite Hfree, !Z.eqb_refl. cbn [andb].
  destruct (place_food fuel _ _) as [[[st fx] fy] |] eqn:Hfood;
    cbn [mbind option_bind]; [| discriminate].
  intros [= <- <-].
  apply place_food_free in Hfood.
  cbn [snake_length snake_speed snake_food_x snake_food_y snake_x snake_y
       set_body set_food set_growth set_last_move game_score set_rng
       set_game_score].
  repeat split; try reflexivity.
  - apply ArcadeFacts.get_put_eq.
    rewrite length_shift_body, Hwx. unfold SNAKE_MAX_LENGTH. lia.
  - apply ArcadeFacts.get_put_eq.
    rewrite length_shift_body, Hwy. unfold SNAKE_MAX_LENGTH. lia.
  - exact Hfood.
Qed.

(** C4 at a concrete run.  With the generator seeded with 25045 a new
    game puts the food at (12, 15), two cells ahead of the head at
    (10, 15).  The second tick eats it: the length becomes 5 and the
    interval 295, but the two draws give (12, 15) again, the check
    against the segments as they are before the move passes, and after
    the move the food lies under the new head. *)
Theorem food_lands_on_head :
  exists sh1 s1 sh3 s3,
    init_snake 1 0 seeded_shared boot = Some (sh1, s1) /\
    (snake_food_x s1, snake_food_y s1) = (12, 15) /\
    (get (snake_x s1) 0, get (snake_y s1) 0) = (10, 15) /\
    two_ticks = Some (sh3, s3) /\
    snake_length s3 = 5 /\ snake_speed s3 = 295 /\ game_score sh3 = 10 /\
    (snake_food_x s3, snake_food_y s3) = (12, 15) /\
    (get (snake_x s3) 0, get (snake_y s3) 0) = (12, 15) /\
    In (snake_food_x s3, snake_food_y s3) (segments s3).
Proof.
  eexists _, _, _, _.
  split; [vm_compute; reflexivity |].
  split; [reflexivity |]. split; [reflexivity |].
  split; [vm_compute; reflexivity |].
  vm_compute. repeat split; auto.
Qed.

End SnakeFacts.

(** ** Breakout *)

Module BreakoutFacts.
Import Arcade F32 F32Facts Display Breakout.

(** *** The paddle *)

Lemma neg_abs_negative (v : float) :
  nonzero_number v -> flt (fneg (arduino_abs v)) zero = true.
Proof.
  intros [H | H]; destruct v as [[] | [] | | [] m e];
    try discriminate H; reflexivity.
Qed.

Lemma paddle_pixels :
  forallb paddle_pixel_ok (seqZ 0 (AMOLED_1IN8_WIDTH - paddle_w + 1)) = true.
Proof. vm_compute. reflexivity. Qed.

Lemma paddle_pixel p :
  0 <= p <= AMOLED_1IN8_WIDTH - paddle_w -> paddle_pixel_ok p = true.
Proof.
  intros Hp. pose proof paddle_pixels as H.
  rewrite forallb_forall in H. apply H.
  apply list_elem_of_In, elem_of_seqZ. lia.
Qed.

(** The exact strike offset across the paddle lies in [[0, 1]]. *)
Lemma strike_offset_range b p :
  paddle_at p b -> valid (ball_x b) = true ->
  paddle_collides b = true ->
  (0 <= (to_Q (ball_x b) - to_Q (paddle_x b)) / inject_Z paddle_w)%Q /\
  ((to_Q (ball_x b) - to_Q (paddle_x b)) / inject_Z paddle_w <= 1)%Q.
Proof.
  intros [Hp Hpx] Hvx Hcol.
  pose proof (paddle_pixel p Hp) as Hok. unfold paddle_pixel_ok in Hok.
  apply andb_true_iff in Hok as [Hok Hqs].
  apply andb_true_iff in Hok as [Hok Hfs].
  apply andb_true_iff in Hok as [Hok Hvs].
  apply andb_true_iff in Hok as [Hok Hqp].
  apply andb_true_iff in Hok as [Hvp Hfp].
  apply Qeq_bool_eq in Hqs, Hqp.
  unfold paddle_collides in Hcol. rewrite Hpx in Hcol.
  apply andb_true_iff in Hcol as [Hcol Hr].
  apply andb_true_iff in Hcol as [_ Hl].
  change (fle (of_int p) (ball_x b) = true) in Hl.
  assert (Hfin : is_finite (ball_x b) = true)
    by exact (F32Facts.between_finite _ _ _ Hfp Hfs Hl Hr).
  pose proof (F32Facts.fle_to_Q _ _ Hvp Hvx Hfp Hfin Hl) as Hlo.
  pose proof (F32Facts.fle_to_Q _ _ Hvx Hvs Hfin Hfs Hr) as Hhi.
  rewrite Hpx. rewrite Hqp in *. rewrite Hqs in Hhi.
  rewrite inject_Z_plus in Hhi.
  change (inject_Z paddle_w) with (60 # 1)%Q in *.
  split.
  - apply Qle_shift_div_l; [reflexivity | lra].
  - apply Qle_shift_div_r; [reflexivity | lra].
Qed.

(** C8. When the ball overlaps the paddle and its vertical velocity is
    a number other than zero, the paddle block leaves a negative
    (upward) vertical velocity whatever the sign was, and sets the
    horizontal velocity to [(hit_pos - 0.5f) * 4] where [hit_pos] is
    [(ball_x - paddle_x) / paddle_w] in single precision; the strike
    offset itself, [(ball_x - paddle_x) / paddle_w] as a real number,
    lies in [[0, 1]]. *)
Theorem paddle_bounce_up (b : State) (p : Z) :
  paddle_at p b ->
  valid (ball_x b) = true ->
  nonzero_number (ball_dy b) ->
  paddle_collides b = true ->
  let b' := paddle_stage b in
  flt (ball_dy b') zero = true /\
  hit_pos b = fdiv (fsub (ball_x b) (paddle_x b)) (of_int paddle_w) /\
  ball_dx b' = fmul (fsub (hit_pos b) (lit 5 10)) (of_int 4) /\
  (0 <= (to_Q (ball_x b) - to_Q (paddle_x b)) / inject_Z paddle_w)%Q /\
  ((to_Q (ball_x b) - to_Q (paddle_x b)) / inject_Z paddle_w <= 1)%Q.
Proof.
  intros Hpad Hvx Hdy Hcol b'. subst b'.
  unfold paddle_stage. rewrite Hcol.
  split; [exact (neg_abs_negative _ Hdy) |].
  split; [reflexivity |].
  split; [reflexivity |].
  exact (strike_offset_range b p Hpad Hvx Hcol).
Qed.

Lemma paddle_bounce_up_witness :
  flt (ball_dy (paddle_stage (paddle_hit_state 3))) zero = true /\
  flt (ball_dy (paddle_stage (paddle_hit_state (-3)))) zero = true /\
  ball_dx (paddle_stage (paddle_hit_state 3)) = of_int 0.
Proof.
  assert (Hpad : forall dy, paddle_at 154 (paddle_hit_state dy))
    by (intros dy; split; [vm_compute; split; discriminate | reflexivity]).
  destruct (paddle_bounce_up (paddle_hit_state 3) 154 (Hpad 3)
              eq_refl (or_intror eq_refl) eq_refl) as (Hup & _ & Hdx & _).
  destruct (paddle_bounce_up (paddle_hit_state (-3)) 154 (Hpad (-3))
              eq_refl (or_introl eq_refl) eq_refl) as (Hup' & _).
  split; [exact Hup |]. split; [exact Hup' |].
  rewrite Hdx. vm_compute. reflexivity.
Defined.

(** The paddle only ever stands at a whole pixel in [[0, 308]]: checked
    for every touch abscissa below 1024 (the panel is 368 wide). *)
Lemma touch_paddle_pixels :
  forallb touch_paddle_ok (seqZ 0 1024) = true.
Proof. vm_compute. reflexivity. Qed.

Lemma touch_breakout_paddle tx sh b :
  0 <= tx < 1024 -> game_over sh = false ->
  paddle_at (Z.max 0 (Z.min (AMOLED_1IN8_WIDTH - paddle_w)
                        (tx - Z.quot paddle_w 2)))
    (snd (touch_breakout tx sh b)).
Proof.
  intros Htx Hover. split.
  - unfold AMOLED_1IN8_WIDTH, paddle_w. lia.
  - pose proof touch_paddle_pixels as H.
    rewrite forallb_forall in H.
    specialize (H tx ltac:(apply list_elem_of_In, elem_of_seqZ; lia)).
    apply float_eqb_eq in H.
    unfold touch_breakout. rewrite Hover. exact H.
Qed.

(** *** Level completion *)

(** With the ball at its start position no brick is touched. *)
Lemma next_level_clear_of_bricks :
  forallb (fun row =>
    forallb (fun col => negb (brick_collides next_level row col))
      (seqZ 0 BRICK_COLS)) (seqZ 0 BRICK_ROWS) = true.
Proof. vm_compute. reflexivity. Qed.

Lemma next_level_no_hit row col :
  0 <= row < BRICK_ROWS -> 0 <= col < BRICK_COLS ->
  brick_collides next_level row col = false.
Proof.
  intros Hr Hc.
  pose proof next_level_clear_of_bricks as H.
  rewrite forallb_forall in H.
  specialize (H row). rewrite forallb_forall in H.
  apply negb_true_iff, H; apply list_elem_of_In, elem_of_seqZ; lia.
Qed.


Definition in_cols (cols : list Z) : Prop :=
  Forall (fun col => 0 <= col < BRICK_COLS) cols.

Definition in_rows (rows : list Z) : Prop :=
  Forall (fun row => 0 <= row < BRICK_ROWS) rows.

Lemma scan_cols_next_level cols row sh :
  0 <= row < BRICK_ROWS -> in_cols cols ->
  scan_cols cols row sh next_level = (sh, next_level).
Proof.
  intros Hr. induction 1 as [| col cols Hc _ IH]; cbn [scan_cols];
    [reflexivity |].
  rewrite (next_level_no_hit row col Hr Hc), IH.
  now destruct (negb (brick next_level row col)).
Qed.


Lemma scan_rows_next_level rows : forall sh,
  in_rows rows -> scan_rows rows sh next_level = (sh, next_level).
Proof.
  induction rows as [| row rows IH]; intros sh Hrows; cbn [scan_rows];
    [reflexivity |].
  inversion Hrows as [| r rs Hr Hrest]; subst.
  rewrite scan_cols_next_level; [apply IH, Hrest | exact Hr |].
  apply Forall_forall. intros col Hcol.
  apply elem_of_seqZ in Hcol. lia.
Qed.


Lemma move_ball_counter b :
  bricks_remaining (move_ball b) = bricks_remaining b.
Proof.
  unfold move_ball. cbv zeta.
  repeat match goal with
  | |- context [if ?c then _ else _] => destruct c
  end; reflexivity.
Qed.

Lemma paddle_stage_counter b :
  bricks_remaining (paddle_stage b) = bricks_remaining b.
Proof. unfold paddle_stage. now destruct (paddle_collides b). Qed.







End BreakoutFacts.

(** ** Asteroids: a bullet hits an asteroid *)

Module AsteroidsFacts.
Import Arcade ArcadeFacts F32 Asteroids.

Lemma asteroid_at_put_eq (l : list Asteroid) i v :
  0 <= i < Z.of_nat (length l) -> asteroid_at (put l i v) i = v.
Proof.
  intros Hi. unfold asteroid_at, put.
  destruct (Z.ltb_spec i 0); [lia |].
  now rewrite list_lookup_insert_eq by lia.
Qed.

Lemma asteroid_at_put_ne (l : list Asteroid) i j v :
  0 <= j -> i <> j -> asteroid_at (put l i v) j = asteroid_at l j.
Proof.
  intros Hj Hne. unfold asteroid_at, put.
  destruct (Z.ltb_spec i 0); [reflexivity |].
  destruct (Z.ltb_spec j 0); [reflexivity |].
  now rewrite list_lookup_insert_ne by lia.
Qed.

Lemma length_modify l i f : length (modify l i f) = length l.
Proof. apply length_put. Qed.

Lemma asteroid_at_modify_eq l i f :
  0 <= i < Z.of_nat (length l) ->
  asteroid_at (modify l i f) i = f (asteroid_at l i).
Proof. intros Hi. now apply asteroid_at_put_eq. Qed.

Lemma asteroid_at_modify_ne l i j f :
  0 <= j -> i <> j -> asteroid_at (modify l i f) j = asteroid_at l j.
Proof. intros Hj Hne. now apply asteroid_at_put_ne. Qed.


Section Split.

Variables (a old_size : Z) (old_x old_y : float).




End Split.

Lemma bullet_at_put_eq (l : list Bullet) i v :
  0 <= i < Z.of_nat (length l) -> bullet_at (put l i v) i = v.
Proof.
  intros Hi. unfold bullet_at, put.
  destruct (Z.ltb_spec i 0); [lia |].
  now rewrite list_lookup_insert_eq by lia.
Qed.





(** *** Counting asteroids *)

Lemma counts_shift (f' f g h : Z -> bool) slots :
  (forall i, i ∈ slots ->
     (if f' i then 1 else 0)
       = (if f i then 1 else 0) + (if g i then 1 else 0)
         - (if h i then 1 else 0)) ->
  counts f' slots = counts f slots + counts g slots - counts h slots.
Proof.
  induction slots as [| i slots IH]; intros Hpt; cbn [counts foldr];
    [reflexivity |].
  fold (counts f' slots) (counts f slots) (counts g slots) (counts h slots).
  rewrite IH by (intros j Hj; apply Hpt; now right).
  rewrite (Hpt i) by left. lia.
Qed.

Lemma counts_none slots : counts (fun _ => false) slots = 0.
Proof. induction slots as [| i slots IH]; cbn; [reflexivity | exact IH]. Qed.

Lemma counts_ext (f g : Z -> bool) slots :
  (forall i, i ∈ slots -> f i = g i) -> counts f slots = counts g slots.
Proof.
  induction slots as [| i slots IH]; intros Hpt; cbn [counts foldr];
    [reflexivity |].
  fold (counts f slots) (counts g slots).
  rewrite IH by (intros j Hj; apply Hpt; now right).
  now rewrite (Hpt i) by left.
Qed.

Lemma counts_one a slots :
  NoDup slots -> a ∈ slots -> counts (fun i => i =? a) slots = 1.
Proof.
  induction slots as [| i slots IH]; intros Hnd Hin; [inversion Hin |].
  apply NoDup_cons in Hnd as [Hfresh Hnd].
  cbn [counts foldr]. fold (counts (fun i => i =? a) slots).
  destruct (Z.eqb_spec i a) as [-> | Hne].
  - rewrite (counts_ext _ (fun _ => false)), counts_none; [reflexivity |].
    intros j Hj. apply Z.eqb_neq. intros ->. contradiction.
  - apply elem_of_cons in Hin as [-> | Hin]; [contradiction |].
    now rewrite IH.
Qed.





End AsteroidsFacts.

(** ** The table of high scores *)

Module WatchFacts.
Import Arcade ArcadeFacts Watch.



(** *** Tetris *)






(** *** Snake *)




(** *** Breakout *)






(** *** Asteroids *)







(** *** The whole watch *)








(** One iteration of [loop] is the sequence [loop_ops] of operations. *)
Lemma loop_run_ops lm fuel i w :
  loop lm fuel i w = run_ops lm fuel (loop_ops i) w.
Proof.
  unfold loop, loop_ops. cbn [run_ops apply].
  destruct (handle_touch lm fuel (in_now i) (in_touch_flag i) (in_point i) w)
    as [w1 |]; cbn [mbind option_bind]; [| reflexivity].
  destruct (update_games lm fuel (in_now i) _) as [w6 |];
    cbn [mbind option_bind]; reflexivity.
Qed.



End WatchFacts.
(** ** Tetris: the falling piece and the stack *)

Module TetrisPlay.
Import Arcade Tetris.

Lemma in_seqZ4 (x : Z) : In x (seqZ 0 4) <-> 0 <= x < 4.
Proof.
  rewrite <- list_elem_of_In, elem_of_seqZ. lia.
Qed.

(** [tetris_can_place_piece] is the conjunction of its cell tests. *)
Lemma can_place_cells grid px py piece :
  tetris_can_place_piece grid px py piece = true <->
  (forall y x, 0 <= y < 4 -> 0 <= x < 4 ->
     cell_ok grid px py piece y x = true).
Proof.
  unfold tetris_can_place_piece. rewrite forallb_forall. split.
  - intros H y x Hy Hx.
    pose proof (H y (proj2 (in_seqZ4 y) Hy)) as Hrow.
    rewrite forallb_forall in Hrow. apply Hrow, in_seqZ4, Hx.
  - intros H y Hy. apply forallb_forall. intros x Hx.
    apply H; now apply in_seqZ4.
Qed.

(** What a passed cell test says about a block of the piece. *)
Lemma cell_ok_block grid px py piece y x :
  cell_ok grid px py piece y x = true ->
  get2 piece y x <> 0 ->
  0 <= px + x < GRID_W /\ py + y < GRID_H /\
  (0 <= py + y -> get2 grid (py + y) (px + x) = 0).
Proof.
  unfold cell_ok, truthy. intros H Hblock.
  destruct (get2 piece y x =? 0) eqn:Hz; [lia |]. cbn [negb] in H.
  destruct (px + x <? 0) eqn:H1; [discriminate |].
  destruct (GRID_W <=? px + x) eqn:H2; [discriminate |].
  destruct (GRID_H <=? py + y) eqn:H3; [discriminate |].
  cbn [orb] in H.
  repeat split; try lia.
  intros Hy. destruct (0 <=? py + y) eqn:H4; [| lia].
  cbn [andb] in H.
  destruct (get2 grid (py + y) (px + x) =? 0) eqn:H5; [lia | discriminate].
Qed.

Lemma rng1_7_range st : 0 <= fst (Rng.rng1 7 st) < 7.
Proof.
  rewrite RngFacts.rng1_spec by lia. cbn [fst].
  apply Z.mod_pos_bound. lia.
Qed.

Lemma pattern_fits_at_spawn cur :
  0 <= cur < 7 ->
  tetris_can_place_piece empty_grid 3 0 (copy_pattern cur) = true.
Proof.
  intros H.
  assert (Hc : cur = 0 \/ cur = 1 \/ cur = 2 \/ cur = 3 \/ cur = 4
               \/ cur = 5 \/ cur = 6) by lia.
  destruct Hc as [-> | [-> | [-> | [-> | [-> | [-> | ->]]]]]];
    vm_compute; reflexivity.
Qed.

Lemma copy_pattern_wf cur : piece_wf (copy_pattern cur).
Proof.
  unfold piece_wf, copy_pattern. split; [reflexivity |].
  apply Forall_forall. intros r Hr.
  apply list_elem_of_fmap in Hr as (y & -> & _). reflexivity.
Qed.

Lemma rotated_wf piece : piece_wf (rotated piece).
Proof.
  unfold piece_wf, rotated. split; [reflexivity |].
  apply Forall_forall. intros r Hr.
  apply list_elem_of_fmap in Hr as (y & -> & _). reflexivity.
Qed.

Lemma piece_wf_inv piece :
  piece_wf piece ->
  exists a0 a1 a2 a3 b0 b1 b2 b3 c0 c1 c2 c3 d0 d1 d2 d3,
    piece = [[a0; a1; a2; a3]; [b0; b1; b2; b3];
             [c0; c1; c2; c3]; [d0; d1; d2; d3]].
Proof.
  intros [Hlen Hrows].
  destruct piece as [| ra [| rb [| rc [| rd [| ? ?]]]]]; try discriminate.
  repeat match goal with
         | H : Forall _ (_ :: _) |- _ => apply Forall_cons in H as [? H]
         end.
  destruct ra as [| a0 [| a1 [| a2 [| a3 [| ? ?]]]]]; try discriminate.
  destruct rb as [| b0 [| b1 [| b2 [| b3 [| ? ?]]]]]; try discriminate.
  destruct rc as [| c0 [| c1 [| c2 [| c3 [| ? ?]]]]]; try discriminate.
  destruct rd as [| d0 [| d1 [| d2 [| d3 [| ? ?]]]]]; try discriminate.
  now exists a0, a1, a2, a3, b0, b1, b2, b3, c0, c1, c2, c3, d0, d1, d2, d3.
Qed.

(** Four quarter turns give the piece back. *)
Lemma rotated4 piece :
  piece_wf piece -> rotated (rotated (rotated (rotated piece))) = piece.
Proof.
  intros H.
  destruct (piece_wf_inv piece H)
    as (a0 & a1 & a2 & a3 & b0 & b1 & b2 & b3 & c0 & c1 & c2 & c3
        & d0 & d1 & d2 & d3 & ->).
  reflexivity.
Qed.

Lemma get_row_length grid r :
  grid_wf grid -> 0 <= r < GRID_H ->
  length (get_row grid r) = Z.to_nat GRID_W.
Proof.
  intros [Hlen Hrows] Hr. unfold get_row.
  destruct (Z.ltb_spec r 0); [lia |].
  destruct (grid !! Z.to_nat r) as [row |] eqn:Hrow.
  - cbn. eapply Forall_lookup_1 in Hrows; eauto.
  - apply lookup_ge_None in Hrow. unfold GRID_H in *. lia.
Qed.

Lemma put2_wf grid r c v :
  grid_wf grid -> 0 <= r < GRID_H -> grid_wf (put2 grid r c v).
Proof.
  intros Hwf Hr. pose proof (get_row_length grid r Hwf Hr) as Hrow.
  destruct Hwf as [Hlen Hrows]. unfold put2. split.
  - now rewrite ArcadeFacts.length_put.
  - unfold put at 1. destruct (Z.ltb_spec r 0); [lia |].
    apply Forall_insert; [exact Hrows |].
    now rewrite ArcadeFacts.length_put.
Qed.

Lemma get2_put2 grid r c v r' c' :
  grid_wf grid -> 0 <= r < GRID_H -> 0 <= c < GRID_W ->
  0 <= r' -> 0 <= c' ->
  get2 (put2 grid r c v) r' c'
    = if (r' =? r) && (c' =? c) then v else get2 grid r' c'.
Proof.
  intros Hwf Hr Hc Hr' Hc'.
  pose proof (get_row_length grid r Hwf Hr) as Hrow.
  destruct Hwf as [Hlen Hrows]. unfold get2, put2.
  destruct (Z.eqb_spec r' r) as [-> | Hne]; cbn [andb].
  - assert (Hget : get_row (put grid r (put (get_row grid r) c v)) r
                   = put (get_row grid r) c v).
    { unfold get_row at 1, put at 1.
      destruct (Z.ltb_spec r 0); [lia |].
      rewrite list_lookup_insert_eq by (unfold GRID_H in *; lia).
      reflexivity. }
    rewrite Hget.
    destruct (Z.eqb_spec c' c) as [-> | Hnc].
    + apply ArcadeFacts.get_put_eq. unfold GRID_W in *. lia.
    + apply ArcadeFacts.get_put_ne; lia.
  - assert (Hget : get_row (put grid r (put (get_row grid r) c v)) r'
                   = get_row grid r').
    { unfold get_row, put.
      destruct (Z.ltb_spec r 0); [lia |].
      destruct (Z.ltb_spec r' 0); [lia |].
      rewrite list_lookup_insert_ne by lia. reflexivity. }
    now rewrite Hget.
Qed.

(** The test of [place_cell] for the block [yx] of the piece landing
    on the grid cell [(r, c)]. *)
Lemma place_cells_spec t cells : forall grid,
  grid_wf grid ->
  grid_wf (foldl (place_cell t) grid cells) /\
  forall r c, 0 <= r < GRID_H -> 0 <= c < GRID_W ->
    get2 (foldl (place_cell t) grid cells) r c
      = if existsb (fun yx : Z * Z =>
                      truthy (get2 (tetris_current_piece t) yx.1 yx.2)
                      && (tetris_piece_y t + yx.1 =? r)
                      && (tetris_piece_x t + yx.2 =? c)) cells
        then tetris_current_type t + 1 else get2 grid r c.
Proof.
  induction cells as [| [y x] rest IH]; intros grid Hwf; cbn [foldl existsb].
  - split; [exact Hwf | reflexivity].
  - assert (Hstep : grid_wf (place_cell t grid (y, x)) /\
      forall r c, 0 <= r < GRID_H -> 0 <= c < GRID_W ->
        get2 (place_cell t grid (y, x)) r c
          = if truthy (get2 (tetris_current_piece t) y x)
               && (tetris_piece_y t + y =? r)
               && (tetris_piece_x t + x =? c)
            then tetris_current_type t + 1 else get2 grid r c).
    { unfold place_cell.
      destruct (truthy (get2 (tetris_current_piece t) y x)); cbn [andb].
      - destruct (Z.leb_spec 0 (tetris_piece_y t + y)); cbn [andb].
        + destruct (Z.ltb_spec (tetris_piece_y t + y) GRID_H); cbn [andb].
          * destruct (Z.leb_spec 0 (tetris_piece_x t + x)); cbn [andb].
            -- destruct (Z.ltb_spec (tetris_piece_x t + x) GRID_W).
               ++ split; [apply put2_wf; [exact Hwf | lia] |].
                  intros r c Hr Hc.
                  rewrite get2_put2 by (try exact Hwf; lia).
                  rewrite (Z.eqb_sym r), (Z.eqb_sym c). reflexivity.
               ++ split; [exact Hwf |]. intros r c Hr Hc.
                  destruct (Z.eqb_spec (tetris_piece_x t + x) c);
                    [lia | now rewrite andb_false_r].
            -- split; [exact Hwf |]. intros r c Hr Hc.
               destruct (Z.eqb_spec (tetris_piece_x t + x) c);
                 [lia | now rewrite andb_false_r].
          * split; [exact Hwf |]. intros r c Hr Hc.
            destruct (Z.eqb_spec (tetris_piece_y t + y) r);
              [lia | reflexivity].
        + split; [exact Hwf |]. intros r c Hr Hc.
          destruct (Z.eqb_spec (tetris_piece_y t + y) r);
            [lia | reflexivity].
      - split; [exact Hwf | reflexivity]. }
    destruct Hstep as [Hwf1 Hget1].
    destruct (IH _ Hwf1) as [Hwf2 Hget2].
    split; [exact Hwf2 |]. intros r c Hr Hc.
    rewrite (Hget2 r c Hr Hc), (Hget1 r c Hr Hc). cbn [fst snd].
    destruct (truthy (get2 (tetris_current_piece t) y x)
              && (tetris_piece_y t + y =? r)
              && (tetris_piece_x t + x =? c)); cbn [orb].
    + now destruct (existsb _ rest).
    + reflexivity.
Qed.

Lemma in_cells44 y x : In (y, x) cells44 <-> 0 <= y < 4 /\ 0 <= x < 4.
Proof.
  split.
  - intros H. vm_compute in H.
    repeat (destruct H as [[= <- <-] | H]; [lia |]). contradiction.
  - intros [Hy Hx].
    destruct (TetrisFacts.index4 y Hy) as [-> | [-> | [-> | ->]]];
      destruct (TetrisFacts.index4 x Hx) as [-> | [-> | [-> | ->]]];
      vm_compute; tauto.
Qed.

Lemma covers_cells t r c :
  existsb (fun yx : Z * Z =>
             truthy (get2 (tetris_current_piece t) yx.1 yx.2)
             && (tetris_piece_y t + yx.1 =? r)
             && (tetris_piece_x t + yx.2 =? c)) cells44
    = covers t r c.
Proof.
  apply Bool.eq_true_iff_eq. rewrite existsb_exists. unfold covers. split.
  - intros ([y x] & Hin & Hcond). apply in_cells44 in Hin. cbn [fst snd] in Hcond.
    apply andb_true_iff in Hcond as [Hcond Hx].
    apply andb_true_iff in Hcond as [Hblock Hy].
    apply Z.eqb_eq in Hx, Hy.
    replace (r - tetris_piece_y t) with y by lia.
    replace (c - tetris_piece_x t) with x by lia.
    rewrite Hblock.
    destruct (Z.leb_spec 0 y); [| lia].
    destruct (Z.ltb_spec y 4); [| lia].
    destruct (Z.leb_spec 0 x); [| lia].
    destruct (Z.ltb_spec x 4); [| lia]. reflexivity.
  - intros H.
    apply andb_true_iff in H as [H Hblock].
    apply andb_true_iff in H as [H Hx4].
    apply andb_true_iff in H as [H Hx0].
    apply andb_true_iff in H as [Hy0 Hy4].
    exists (r - tetris_piece_y t, c - tetris_piece_x t). split.
    + apply in_cells44. lia.
    + cbn [fst snd]. rewrite Hblock. cbn [andb].
      apply andb_true_iff. split; apply Z.eqb_eq; lia.
Qed.

Lemma blocks_rotated piece :
  piece_wf piece -> blocks (rotated piece) = blocks piece.
Proof.
  intros H.
  destruct (piece_wf_inv piece H)
    as (a0 & a1 & a2 & a3 & b0 & b1 & b2 & b3 & c0 & c1 & c2 & c3
        & d0 & d1 & d2 & d3 & ->).
  unfold blocks.
  let c := eval vm_compute in cells44 in change cells44 with c.
  match goal with
  | |- context [rotated ?p] =>
      let r := eval vm_compute in (rotated p) in change (rotated p) with r
  end.
  cbn [map foldr fst snd].
  repeat match goal with
         | |- context [get2 ?p ?i ?j] =>
             let v := eval vm_compute in (get2 p i j) in
             change (get2 p i j) with v
         end.
  repeat match goal with
         | |- context [truthy ?a] =>
             let v := fresh "v" in
             set (v := if truthy a then 1 else 0) in *; clearbody v
         end.
  lia.
Qed.

Lemma blocks_pattern cur : 0 <= cur < 7 -> blocks (copy_pattern cur) = 4.
Proof.
  intros H.
  assert (Hc : cur = 0 \/ cur = 1 \/ cur = 2 \/ cur = 3 \/ cur = 4
               \/ cur = 5 \/ cur = 6) by lia.
  destruct Hc as [-> | [-> | [-> | [-> | [-> | [-> | ->]]]]]]; reflexivity.
Qed.

Lemma turned_wf cur k : piece_wf (Nat.iter k rotated (copy_pattern cur)).
Proof.
  destruct k as [| k]; [apply copy_pattern_wf |].
  rewrite Nat.iter_succ. apply rotated_wf.
Qed.

Lemma blocks_turned cur k :
  0 <= cur < 7 -> blocks (Nat.iter k rotated (copy_pattern cur)) = 4.
Proof.
  intros H. induction k as [| k IH]; [now apply blocks_pattern |].
  rewrite Nat.iter_succ, blocks_rotated by apply turned_wf. exact IH.
Qed.

Lemma filter_split_length {A} (f : A -> bool) (l : list A) :
  (length (filter (fun r => f r = true) l)
   + length (filter (fun r => f r <> true) l) = length l)%nat.
Proof.
  induction l as [| x l IH]; [reflexivity |].
  rewrite !filter_cons.
  destruct (decide (f x = true)), (decide (f x <> true));
    cbn [length]; try lia; contradiction.
Qed.

Lemma cleared_wf grid : grid_wf grid -> grid_wf (cleared grid).
Proof.
  intros [Hlen Hrows]. unfold cleared, full_count. split.
  - rewrite length_app, length_replicate, filter_split_length. exact Hlen.
  - apply Forall_app. split.
    + apply Forall_replicate. reflexivity.
    + apply Forall_forall. intros r Hr.
      apply list_elem_of_filter in Hr as [_ Hr].
      exact (proj1 (Forall_forall _ _) Hrows r Hr).
Qed.

(** On a well-formed grid the line-clear step returns, and it leaves
    the piece alone. *)
Lemma clear_lines_returns sh t :
  grid_wf (tetris_grid t) ->
  exists sh' t',
    tetris_clear_lines sh t = Some (sh', t') /\
    tetris_grid t' = cleared (tetris_grid t) /\
    tetris_next_type t' = tetris_next_type t /\
    game_over sh' = game_over sh.
Proof.
  intros [Hlen Hrows]. unfold tetris_clear_lines.
  rewrite TetrisFacts.clear_loop_total by exact Hlen.
  cbn [mbind option_bind].
  destruct (0 <? Z.of_nat (full_count (tetris_grid t)));
    [destruct (10 <=? _) |]; eexists _, _;
    (split; [reflexivity |]); repeat split; reflexivity.
Qed.

Lemma set_pos_same t : set_pos (tetris_piece_x t) (tetris_piece_y t) t = t.
Proof. now destruct t. Qed.

(** A rotation leaves the state alone or stores the turned piece at a
    position where it passed the placement test. *)
Lemma try_kicks_cases offsets temp t :
  try_kicks offsets temp t = t \/
  exists x y,
    try_kicks offsets temp t = set_piece temp (set_pos x y t) /\
    tetris_can_place_piece (tetris_grid t) x y temp = true.
Proof.
  induction offsets as [| [dx dy] rest IH]; cbn [try_kicks]; [now left |].
  destruct (tetris_can_place_piece (tetris_grid t) (tetris_piece_x t + dx)
              (tetris_piece_y t + dy) temp) eqn:Hfit; [| exact IH].
  right. now eexists _, _.
Qed.

Lemma rotate_cases t :
  tetris_rotate_piece t = t \/
  exists x y,
    tetris_rotate_piece t
      = set_piece (rotated (tetris_current_piece t)) (set_pos x y t) /\
    tetris_can_place_piece (tetris_grid t) x y
      (rotated (tetris_current_piece t)) = true.
Proof.
  unfold tetris_rotate_piece.
  destruct (tetris_can_place_piece (tetris_grid t) (tetris_piece_x t)
              (tetris_piece_y t) (rotated (tetris_current_piece t)))
    eqn:Hfit; [| apply try_kicks_cases].
  right. exists (tetris_piece_x t), (tetris_piece_y t).
  now rewrite set_pos_same.
Qed.

Lemma empty_grid_wf : grid_wf empty_grid.
Proof.
  split; [reflexivity |]. apply Forall_replicate. reflexivity.
Qed.

Lemma init_tetris_inv now sh t : game_inv (init_tetris now sh t).
Proof.
  unfold init_tetris.
  pose proof (rng1_7_range (rng_seed (set_game_over false
                                        (set_game_score 0 sh)))) as Hcur.
  destruct (Rng.rng1 7 _) as [cur s1]. cbn [fst] in Hcur.
  pose proof (rng1_7_range s1) as Hnext.
  destruct (Rng.rng1 7 s1) as [next s2]. cbn [fst] in Hnext.
  unfold game_inv, piece_shape, piece_fits. cbn.
  split; [apply empty_grid_wf |].
  split; [exact Hcur |]. split; [exact Hnext |].
  split; [now exists 0%nat |].
  intros _. now apply pattern_fits_at_spawn.
Qed.

Lemma touch_tetris_inv now tx g :
  game_inv g -> game_inv (touch_tetris now tx g.1 g.2).
Proof.
  destruct g as [sh t]. cbn [fst snd].
  intros (Hwf & Hcur & Hnext & [k Hshape] & Hfits). cbn [fst snd] in *.
  unfold touch_tetris.
  destruct (game_over sh) eqn:Hover; [apply init_tetris_inv |].
  specialize (Hfits eq_refl).
  assert (Hsame : game_inv (sh, t)).
  { unfold game_inv. cbn [fst snd]. eauto 10. }
  destruct (tx <? 123).
  - destruct (tetris_can_place_piece _ (tetris_piece_x t - 1) _ _) eqn:Hl;
      [| exact Hsame].
    unfold game_inv, piece_shape, piece_fits. cbn. eauto 10.
  - destruct ((123 <=? tx) && (tx <=? 245)).
    + destruct (rotate_cases t) as [-> | (x & y & -> & Hfit)];
        [exact Hsame |].
      unfold game_inv, piece_shape, piece_fits. cbn.
      split; [exact Hwf |]. split; [exact Hcur |]. split; [exact Hnext |].
      split; [| intros _; exact Hfit].
      exists (S k). rewrite Nat.iter_succ. now rewrite <- Hshape.
    + destruct (245 <? tx); [| exact Hsame].
      destruct (tetris_can_place_piece _ (tetris_piece_x t + 1) _ _) eqn:Hr;
        [| exact Hsame].
      unfold game_inv, piece_shape, piece_fits. cbn. eauto 10.
Qed.

Lemma place_piece_wf t :
  grid_wf (tetris_grid t) -> grid_wf (tetris_grid (tetris_place_piece t)).
Proof.
  intros Hwf. unfold tetris_place_piece. cbn [tetris_grid set_grid].
  now apply place_cells_spec.
Qed.

Lemma spawn_inv sh t :
  grid_wf (tetris_grid t) -> 0 <= tetris_next_type t < 7 ->
  game_inv (tetris_spawn_new_piece sh t).
Proof.
  intros Hwf Hnext. unfold tetris_spawn_new_piece.
  pose proof (rng1_7_range (rng_seed sh)) as Hnew.
  destruct (Rng.rng1 7 (rng_seed sh)) as [next s1]. cbn [fst] in Hnew.
  cbn [tetris_grid tetris_piece_x tetris_piece_y tetris_current_piece
       set_piece set_pos set_types].
  destruct (tetris_can_place_piece (tetris_grid t) 3 0
              (copy_pattern (tetris_next_type t))) eqn:Hfit; cbn [negb];
    unfold game_inv, piece_shape, piece_fits; cbn;
    (split; [exact Hwf |]); (split; [exact Hnext |]);
    (split; [exact Hnew |]); (split; [now exists 0%nat |]).
  - intros _. exact Hfit.
  - intros Hover. now rewrite ArcadeFacts.end_game_over in Hover.
Qed.

Lemma update_tetris_inv now g :
  game_inv g ->
  exists g', update_tetris now g.1 g.2 = Some g' /\ game_inv g'.
Proof.
  destruct g as [sh t]. cbn [fst snd].
  intros Hinv. pose proof Hinv as (Hwf & Hcur & Hnext & [k Hshape] & Hfits).
  cbn [fst snd] in *.
  unfold update_tetris.
  destruct (game_over sh) eqn:Hover; [now exists (sh, t) |].
  destruct (_ <? _); [| now exists (sh, t)].
  cbn [tetris_grid tetris_piece_x tetris_piece_y tetris_current_piece
       set_last_drop].
  destruct (tetris_can_place_piece (tetris_grid t) (tetris_piece_x t)
              (tetris_piece_y t + 1) (tetris_current_piece t)) eqn:Hdown.
  - eexists. split; [reflexivity |].
    unfold game_inv, piece_shape, piece_fits. cbn. eauto 10.
  - destruct (clear_lines_returns sh (tetris_place_piece (set_last_drop now t)))
      as (sh2 & t2 & Hclear & Hgrid & Htype & _).
    { apply (place_piece_wf (set_last_drop now t)). exact Hwf. }
    rewrite Hclear. cbn [mbind option_bind].
    eexists. split; [reflexivity |].
    apply spawn_inv.
    + rewrite Hgrid. apply cleared_wf.
      apply (place_piece_wf (set_last_drop now t)). exact Hwf.
    + rewrite Htype. exact Hnext.
Qed.

Lemma reachable_inv g : reachable g -> game_inv g.
Proof.
  induction 1 as [now sh t | e g g' _ IH Hstep].
  - apply init_tetris_inv.
  - destruct e as [now tx | now]; cbn [step] in Hstep.
    + injection Hstep as <-. now apply touch_tetris_inv.
    + destruct (update_tetris_inv now g IH) as (g2 & Hupd & Hinv).
      rewrite Hupd in Hstep. now injection Hstep as <-.
Qed.

Lemma turned_mod4 cur k :
  Nat.iter k rotated (copy_pattern cur)
    = Nat.iter (k mod 4) rotated (copy_pattern cur).
Proof.
  induction k as [k IH] using lt_wf_ind.
  destruct k as [| [| [| [| j]]]]; try reflexivity.
  rewrite !Nat.iter_succ, rotated4 by apply turned_wf.
  rewrite IH by lia. f_equal.
  replace (S (S (S (S j)))) with (j + 1 * 4)%nat by lia.
  now rewrite Nat.Div0.mod_add.
Qed.

(** X1. In every state of a Tetris game that is not over, each block
    of the falling piece lies between the two walls and above the
    floor, and the grid cell under it, when it is on the grid, is
    empty. *)
Theorem falling_piece_stays_inside (sh : Shared) (t : State) (y x : Z) :
  reachable (sh, t) -> game_over sh = false ->
  0 <= y < 4 -> 0 <= x < 4 ->
  get2 (tetris_current_piece t) y x <> 0 ->
  0 <= tetris_piece_x t + x < GRID_W /\
  tetris_piece_y t + y < GRID_H /\
  (0 <= tetris_piece_y t + y ->
     get2 (tetris_grid t) (tetris_piece_y t + y) (tetris_piece_x t + x) = 0).
Proof.
  intros Hreach Hover Hy Hx Hblock.
  destruct (reachable_inv _ Hreach) as (_ & _ & _ & _ & Hfits).
  specialize (Hfits Hover). cbn [fst snd] in Hfits.
  apply (cell_ok_block _ _ _ (tetris_current_piece t)); [| exact Hblock].
  now apply (proj1 (can_place_cells _ _ _ _) Hfits).
Qed.

Lemma falling_piece_stays_inside_witness :
  0 <= tetris_piece_x started.2 + 1 < GRID_W /\
  tetris_piece_y started.2 + 0 < GRID_H /\
  (0 <= tetris_piece_y started.2 + 0 ->
     get2 (tetris_grid started.2) (tetris_piece_y started.2 + 0)
       (tetris_piece_x started.2 + 1) = 0).
Proof.
  apply (falling_piece_stays_inside started.1 started.2 0 1).
  - rewrite <- surjective_pairing. apply reach_init.
  - reflexivity.
  - lia.
  - lia.
  - vm_compute. discriminate.
Defined.

(** X2. In every state of a Tetris game the current and the next type
    are among the seven pieces, the current piece is the pattern of its
    type turned 0, 1, 2 or 3 times, and it has exactly four blocks. *)
Theorem piece_keeps_shape (sh : Shared) (t : State) :
  reachable (sh, t) ->
  0 <= tetris_current_type t < 7 /\
  0 <= tetris_next_type t < 7 /\
  (exists k, (k < 4)%nat /\ piece_shape t k) /\
  blocks (tetris_current_piece t) = 4.
Proof.
  intros Hreach.
  destruct (reachable_inv _ Hreach) as (_ & Hcur & Hnext & [k Hshape] & _).
  cbn [fst snd] in *. unfold piece_shape in *.
  split; [exact Hcur |]. split; [exact Hnext |]. split.
  - exists (k mod 4)%nat. split; [apply Nat.mod_upper_bound; lia |].
    now rewrite <- turned_mod4.
  - rewrite Hshape. now apply blocks_turned.
Qed.

Lemma piece_keeps_shape_witness :
  0 <= tetris_current_type started.2 < 7 /\
  0 <= tetris_next_type started.2 < 7 /\
  (exists k, (k < 4)%nat /\ piece_shape started.2 k) /\
  blocks (tetris_current_piece started.2) = 4.
Proof.
  apply (piece_keeps_shape started.1 started.2).
  rewrite <- surjective_pairing. apply reach_init.
Defined.

(** X3. In every state of a Tetris game the grid has its 20 rows of 10
    cells, and both a touch and an advance return a state: the
    line-clear loop of the advance always comes to its end. *)
Theorem tetris_game_goes_on (g : Shared * State) (e : event) :
  reachable g ->
  grid_wf (tetris_grid g.2) /\
  exists g', step e g = Some g' /\ reachable g'.
Proof.
  intros Hreach. pose proof (reachable_inv _ Hreach) as Hinv.
  split; [apply Hinv |].
  assert (Hstep : exists g', step e g = Some g').
  { destruct e as [now tx | now]; cbn [step]; [now eexists |].
    destruct (update_tetris_inv now g Hinv) as (g' & Hupd & _).
    now exists g'. }
  destruct Hstep as [g' Hstep]. exists g'. split; [exact Hstep |].
  now apply (reach_step e g g').
Qed.

Lemma tetris_game_goes_on_witness :
  grid_wf (tetris_grid started.2) /\
  exists g', step (Tick 1000) started = Some g' /\ reachable g'.
Proof.
  apply (tetris_game_goes_on started (Tick 1000)). apply reach_init.
Defined.

(** X4. [tetris_place_piece] on a well-formed grid writes
    [tetris_current_type + 1] into the grid cells under the blocks of
    the piece and leaves every other cell as it was; when the piece
    passed the placement test, no cell that held a block is changed. *)
Theorem place_piece_locks (t : State) :
  grid_wf (tetris_grid t) ->
  grid_wf (tetris_grid (tetris_place_piece t)) /\
  (forall r c, 0 <= r < GRID_H -> 0 <= c < GRID_W ->
     get2 (tetris_grid (tetris_place_piece t)) r c
       = if covers t r c then tetris_current_type t + 1
         else get2 (tetris_grid t) r c) /\
  (piece_fits t ->
   forall r c, 0 <= r < GRID_H -> 0 <= c < GRID_W ->
     get2 (tetris_grid t) r c <> 0 ->
     get2 (tetris_grid (tetris_place_piece t)) r c
       = get2 (tetris_grid t) r c).
Proof.
  intros Hwf.
  destruct (place_cells_spec t cells44 (tetris_grid t) Hwf) as [Hwf' Hget].
  assert (Hcells : forall r c, 0 <= r < GRID_H -> 0 <= c < GRID_W ->
            get2 (tetris_grid (tetris_place_piece t)) r c
              = if covers t r c then tetris_current_type t + 1
                else get2 (tetris_grid t) r c).
  { intros r c Hr Hc. unfold tetris_place_piece. cbn [tetris_grid set_grid].
    now rewrite Hget, covers_cells. }
  split; [exact Hwf' |]. split; [exact Hcells |].
  intros Hfits r c Hr Hc Hfull. rewrite Hcells by assumption.
  destruct (covers t r c) eqn:Hcov; [| reflexivity].
  exfalso. apply Hfull. unfold covers in Hcov.
  apply andb_true_iff in Hcov as [Hcov Hblock].
  apply andb_true_iff in Hcov as [Hcov Hx4].
  apply andb_true_iff in Hcov as [Hcov Hx0].
  apply andb_true_iff in Hcov as [Hy0 Hy4].
  assert (Hcell : cell_ok (tetris_grid t) (tetris_piece_x t)
                    (tetris_piece_y t) (tetris_current_piece t)
                    (r - tetris_piece_y t) (c - tetris_piece_x t) = true)
    by (apply (proj1 (can_place_cells _ _ _ _) Hfits); lia).
  apply cell_ok_block in Hcell as (_ & _ & Hfree).
  - replace (tetris_piece_y t + (r - tetris_piece_y t)) with r in Hfree
      by lia.
    replace (tetris_piece_x t + (c - tetris_piece_x t)) with c in Hfree
      by lia.
    apply Hfree. lia.
  - unfold truthy in Hblock.
    destruct (Z.eqb_spec (get2 (tetris_current_piece t)
                            (r - tetris_piece_y t) (c - tetris_piece_x t)) 0);
      [discriminate | assumption].
Qed.

Lemma place_piece_locks_witness :
  get2 (tetris_grid (tetris_place_piece wall_state)) 3 0 = 1 /\
  get2 (tetris_grid (tetris_place_piece wall_state)) 3 1 = 0.
Proof.
  destruct (place_piece_locks wall_state empty_grid_wf) as (_ & Hcells & _).
  split.
  - rewrite (Hcells 3 0) by (unfold GRID_H, GRID_W; lia). reflexivity.
  - rewrite (Hcells 3 1) by (unfold GRID_H, GRID_W; lia). reflexivity.
Defined.

End TetrisPlay.
(** ** Snake: how the body moves, how a game starts *)

Module SnakePlay.
Import Arcade Snake.

Lemma get_put_same (a : list Z) i v j :
  0 <= j -> j <> i -> get (put a i v) j = get a j.
Proof.
  intros Hj Hne. unfold get, put.
  destruct (Z.ltb_spec i 0); [reflexivity |].
  destruct (Z.ltb_spec j 0); [lia |].
  rewrite list_lookup_insert_ne by lia. reflexivity.
Qed.

(** After the move loop entry [i] holds what entry [i - 1] held, for
    [1 <= i <= k]; the other entries are as before. *)
Lemma shift_body_get k : forall a i,
  (k < length a)%nat -> 0 <= i ->
  get (shift_body k a) i
    = if (1 <=? i) && (i <=? Z.of_nat k) then get a (i - 1) else get a i.
Proof.
  induction k as [| k IH]; intros a i Hlen Hi; cbn [shift_body].
  - destruct (Z.leb_spec 1 i), (Z.leb_spec i (Z.of_nat 0)); cbn [andb];
      try reflexivity; lia.
  - rewrite IH; [| rewrite ArcadeFacts.length_put; lia | exact Hi].
    destruct (Z.leb_spec 1 i); cbn [andb].
    + destruct (Z.leb_spec i (Z.of_nat k)).
      * destruct (Z.leb_spec i (Z.of_nat (S k))); [| lia].
        apply get_put_same; lia.
      * destruct (Z.leb_spec i (Z.of_nat (S k))).
        -- replace i with (Z.of_nat (S k)) by lia.
           rewrite ArcadeFacts.get_put_eq by lia. f_equal. lia.
        -- apply get_put_same; lia.
    + apply get_put_same; lia.
Qed.

(** The cells of the snake after the move loop and the store of the new
    head, read over [n] entries. *)
Lemma moved_segments (xs ys : list Z) (n nx ny : Z) :
  1 <= n -> n <= Z.of_nat (length xs) -> n <= Z.of_nat (length ys) ->
  map (fun i => (get (put (shift_body (Z.to_nat (n - 1)) xs) 0 nx) i,
                 get (put (shift_body (Z.to_nat (n - 1)) ys) 0 ny) i))
      (seqZ 0 n)
    = (nx, ny) :: map (fun i => (get xs i, get ys i)) (seqZ 0 (n - 1)).
Proof.
  intros Hn Hxs Hys.
  rewrite seqZ_cons by lia. cbn [map].
  rewrite !ArcadeFacts.get_put_eq
    by (rewrite SnakeFacts.length_shift_body; lia).
  f_equal.
  change (Z.succ 0) with (1 + 0). replace (Z.pred n) with (n - 1) by lia.
  rewrite <- fmap_add_seqZ, <- list_fmap_compose.
  apply list_fmap_ext. intros idx j Hj. unfold compose.
  apply lookup_seqZ in Hj as [-> Hidx].
  rewrite !get_put_same by lia.
  rewrite !shift_body_get by lia.
  destruct (Z.leb_spec 1 (1 + (0 + Z.of_nat idx))); [| lia].
  destruct (Z.leb_spec (1 + (0 + Z.of_nat idx)) (Z.of_nat (Z.to_nat (n - 1))));
    [| lia].
  cbn [andb]. repeat f_equal; lia.
Qed.

Lemma segments_take (xs ys : list Z) (n : Z) :
  1 <= n ->
  map (fun i => (get xs i, get ys i)) (seqZ 0 (n - 1))
    = take (Z.to_nat (n - 1))
        (map (fun i => (get xs i, get ys i)) (seqZ 0 n)).
Proof.
  intros Hn. remember (n - 1) as k eqn:Hk.
  replace n with (k + 1) by lia.
  rewrite seqZ_app by lia. rewrite map_app.
  rewrite take_app_length'; [reflexivity |].
  now rewrite length_map, length_seqZ.
Qed.

(** X5. A due tick of a running Snake game whose next head cell is
    free.  Without food in that cell the tick returns; the new head is
    put in front and the last segment is dropped.  With food in that
    cell, whenever the tick returns, the new head is put in front of the
    whole old snake. *)
Theorem snake_body_follows (fuel : nat) (now : Z) (sh : Shared) (s : State) :
  arrays_wf s -> 1 <= snake_length s < SNAKE_MAX_LENGTH ->
  game_over sh = false -> tick_due now s ->
  let head :=
    next_head (snake_dir s) (get (snake_x s) 0) (get (snake_y s) 0) in
  snake_check_collision s head.1 head.2 = false ->
  (head <> (snake_food_x s, snake_food_y s) ->
   exists s',
     update_snake fuel now sh s = Some (sh, s') /\
     segments s'
       = head :: take (Z.to_nat (snake_length s - 1)) (segments s) /\
     snake_length s' = snake_length s /\
     (snake_food_x s', snake_food_y s') = (snake_food_x s, snake_food_y s)) /\
  (head = (snake_food_x s, snake_food_y s) ->
   forall sh' s',
     update_snake fuel now sh s = Some (sh', s') ->
     segments s' = head :: segments s /\
     snake_length s' = snake_length s + 1).
Proof.
  intros [Hxs Hys] Hlen Hover Hdue head Hfree.
  unfold update_snake. rewrite Hover.
  unfold tick_due in Hdue. rewrite Hdue.
  cbn [snake_dir snake_x snake_y snake_food_x snake_food_y snake_length
       snake_speed set_last_move].
  fold head. destruct head as [nx ny] eqn:Hhead. cbn [fst snd] in Hfree.
  replace (snake_check_collision (set_last_move now s) nx ny)
    with (snake_check_collision s nx ny) by reflexivity.
  rewrite Hfree.
  unfold SNAKE_MAX_LENGTH in *. split.
  - intros Hne.
    assert (Hate : (nx =? snake_food_x s) && (ny =? snake_food_y s) = false).
    { destruct (Z.eqb_spec nx (snake_food_x s)) as [-> |]; [| reflexivity].
      destruct (Z.eqb_spec ny (snake_food_y s)) as [-> |]; [| reflexivity].
      now contradiction Hne. }
    rewrite Hate. cbn [mbind option_bind].
    eexists. split; [reflexivity |].
    unfold segments.
    cbn [snake_x snake_y snake_length snake_food_x snake_food_y
         set_body set_last_move].
    split; [| split; reflexivity].
    rewrite moved_segments by lia. f_equal.
    apply segments_take. lia.
  - intros [= -> ->] sh' s'. rewrite !Z.eqb_refl. cbn [andb].
    destruct (place_food fuel _ _) as [[[st fx] fy] |];
      cbn [mbind option_bind]; [| discriminate].
    intros [= <- <-]. unfold segments.
    cbn [snake_x snake_y snake_length snake_food_x snake_food_y
         set_body set_last_move set_food set_growth].
    split; [| reflexivity].
    rewrite moved_segments by lia.
    now replace (snake_length s + 1 - 1) with (snake_length s) by lia.
Qed.

Lemma snake_body_follows_witness :
  exists s',
    update_snake 1 300 eat_shared (set_food 3 3 eat_state)
      = Some (eat_shared, s') /\
    segments s' = [(10, 15); (9, 15); (8, 15); (7, 15)].
Proof.
  destruct (snake_body_follows 1 300 eat_shared (set_food 3 3 eat_state))
    as [Hmove _]; try (vm_compute; reflexivity).
  - split; reflexivity.
  - vm_compute. split; [discriminate | reflexivity].
  - destruct Hmove as (s' & Hupd & Hseg & _); [vm_compute; discriminate |].
    exists s'. split; [exact Hupd |]. rewrite Hseg. reflexivity.
Defined.



(** The low four bits of the generator state follow a recurrence of
    their own. *)
Lemma lcg_next_mod16 st :
  Rng.lcg_next st mod 16 = (13 * (st mod 16) + 9) mod 16.
Proof.
  unfold Rng.lcg_next.
  rewrite Z.mod_mod_divide by (exists (2 ^ 27); reflexivity).
  pose proof (Z.div_mod st 16 ltac:(lia)) as Hst.
  replace (st * 1103515245 + 12345)
    with (13 * (st mod 16) + 9
          + (st / 16 * 1103515245 + 68969702 * (st mod 16) + 771) * 16)
    by lia.
  apply Z.mod_add. lia.
Qed.

(** A draw of 10 from [rng(2, 18)] is followed, two draws later, by a
    draw of 8. *)
Lemma second_round_differs st :
  Rng.lcg_next st mod 16 = 8 ->
  Rng.lcg_next (Rng.lcg_next (Rng.lcg_next st)) mod 16 = 6.
Proof.
  intros H. rewrite !lcg_next_mod16 in *. rewrite H. reflexivity.
Qed.

Lemma rng2_food_x st :
  Rng.rng2 2 (SNAKE_GRID_W - 2) st
    = (2 + Rng.lcg_next st mod 16, Rng.lcg_next st).
Proof.
  rewrite RngFacts.rng2_spec; [reflexivity |].
  unfold Rng.call_ok, CInt.is_long, SNAKE_GRID_W, SNAKE_GRID_H.
  cbn [fst snd]. lia.
Qed.

Lemma rng2_food_y st :
  Rng.rng2 2 (SNAKE_GRID_H - 2) st
    = (2 + Rng.lcg_next st mod 26, Rng.lcg_next st).
Proof.
  rewrite RngFacts.rng2_spec; [reflexivity |].
  unfold Rng.call_ok, CInt.is_long, SNAKE_GRID_W, SNAKE_GRID_H.
  cbn [fst snd]. lia.
Qed.

(** With the head at [(10, 15)] the food loop of [init_snake] runs at
    most twice. *)
Lemma init_food_two_rounds fuel st s :
  get (snake_x s) 0 = 10 -> get (snake_y s) 0 = 15 ->
  exists st' fx fy,
    init_food (S (S fuel)) st s = Some (st', fx, fy) /\
    2 <= fx < SNAKE_GRID_W - 2 /\ 2 <= fy < SNAKE_GRID_H - 2 /\
    (fx, fy) <> (10, 15).
Proof.
  intros Hx Hy. cbn [init_food].
  rewrite rng2_food_x, rng2_food_y, Hx, Hy.
  pose proof (Z.mod_pos_bound (Rng.lcg_next st) 16 ltac:(lia)) as Hx1.
  pose proof (Z.mod_pos_bound (Rng.lcg_next (Rng.lcg_next st)) 26
                ltac:(lia)) as Hy1.
  destruct (Z.eqb_spec (2 + Rng.lcg_next st mod 16) 10) as [Hten |];
    cbn [andb].
  - destruct (Z.eqb_spec (2 + Rng.lcg_next (Rng.lcg_next st) mod 26) 15)
      as [Hfif |]; cbn [andb].
    + destruct (Z.ltb_spec (2 + Rng.lcg_next st mod 16) SNAKE_GRID_W);
        [| unfold SNAKE_GRID_W in *; lia].
      destruct (Z.ltb_spec (2 + Rng.lcg_next (Rng.lcg_next st) mod 26)
                  SNAKE_GRID_H); [| unfold SNAKE_GRID_H in *; lia].
      cbn [andb].
      rewrite rng2_food_x, rng2_food_y.
      pose proof (second_round_differs st ltac:(lia)) as Hsix.
      rewrite Hsix.
      pose proof (Z.mod_pos_bound
                    (Rng.lcg_next (Rng.lcg_next (Rng.lcg_next
                                                   (Rng.lcg_next st)))) 26
                    ltac:(lia)) as Hy2.
      change (2 + 6 =? 10) with false. cbn [andb].
      eexists _, _, _. split; [reflexivity |].
      unfold SNAKE_GRID_W, SNAKE_GRID_H.
      repeat split; try lia; intros [= ? ?]; lia.
    + eexists _, _, _. split; [reflexivity |].
      unfold SNAKE_GRID_W, SNAKE_GRID_H.
      repeat split; try lia; intros [= ? ?]; lia.
  - eexists _, _, _. split; [reflexivity |].
    unfold SNAKE_GRID_W, SNAKE_GRID_H.
    repeat split; try lia; intros [= ? ?]; lia.
Qed.

Lemma init_body_arrays (s : State) :
  snake_length s = 4 ->
  let s' := init_body 10 15 s in
  snake_x s' = put (put (put (put (snake_x s) 0 10) 1 9) 2 8) 3 7 /\
  snake_y s' = put (put (put (put (snake_y s) 0 15) 1 15) 2 15) 3 15 /\
  snake_length s' = 4 /\ snake_dir s' = snake_dir s /\
  snake_speed s' = snake_speed s /\ snake_last_move s' = snake_last_move s.
Proof.
  intros Hlen. unfold init_body. rewrite Hlen.
  change (filter (fun i => i < SNAKE_MAX_LENGTH) (seqZ 0 4))
    with [0; 1; 2; 3].
  cbn. rewrite Hlen. repeat split; reflexivity.
Qed.

(** X7. [init_snake] returns after at most two rounds of its food
    loop.  The new game has score 0, a snake of four cells heading
    right from (10,15), a tick interval of 300 ms, and the food inside
    the margin of two cells, away from the head. *)
Theorem snake_start (fuel : nat) (now : Z) (sh : Shared) (s : State) :
  arrays_wf s ->
  exists sh' s',
    init_snake (S (S fuel)) now sh s = Some (sh', s') /\
    segments s' = [(10, 15); (9, 15); (8, 15); (7, 15)] /\
    snake_length s' = 4 /\ snake_dir s' = 0 /\ snake_speed s' = 300 /\
    snake_last_move s' = now /\
    2 <= snake_food_x s' < SNAKE_GRID_W - 2 /\
    2 <= snake_food_y s' < SNAKE_GRID_H - 2 /\
    (snake_food_x s', snake_food_y s') <> (10, 15) /\
    game_score sh' = 0 /\ game_over sh' = false /\
    high_scores sh' = high_scores sh /\
    arrays_wf s'.
Proof.
  intros [Hxs Hys]. unfold init_snake.
  change (Z.max 4 (Z.quot SNAKE_GRID_W 2)) with 10.
  change (Z.max 4 (Z.quot SNAKE_GRID_H 2)) with 15.
  set (s1 := set_last_move now (set_dir 0 (set_growth 4 300 s))).
  destruct (init_body_arrays s1 eq_refl)
    as (Hx & Hy & Hlen & Hdir & Hspeed & Hlast).
  set (s2 := init_body 10 15 s1) in *.
  unfold SNAKE_MAX_LENGTH in *.
  assert (Hhx : get (snake_x s2) 0 = 10).
  { rewrite Hx. rewrite !get_put_same by lia.
    apply ArcadeFacts.get_put_eq. cbn [snake_x s1 set_last_move set_dir
      set_growth]. lia. }
  assert (Hhy : get (snake_y s2) 0 = 15).
  { rewrite Hy. rewrite !get_put_same by lia.
    apply ArcadeFacts.get_put_eq. cbn [snake_y s1 set_last_move set_dir
      set_growth]. lia. }
  destruct (init_food_two_rounds fuel
              (rng_seed (set_game_over false (set_game_score 0 sh))) s2
              Hhx Hhy)
    as (st' & fx & fy & Hfood & Hfx & Hfy & Hne).
  rewrite Hfood. cbn [mbind option_bind].
  eexists _, _. split; [reflexivity |].
  unfold segments.
  cbn [snake_x snake_y snake_length snake_dir snake_speed snake_last_move
       snake_food_x snake_food_y set_food game_score game_over high_scores
       set_rng set_game_over set_game_score].
  rewrite Hlen, Hdir, Hspeed, Hlast.
  split.
  - change (seqZ 0 4) with [0; 1; 2; 3]. cbn [map].
    rewrite Hx, Hy.
    cbn [snake_x snake_y s1 set_last_move set_dir set_growth].
    repeat (rewrite ?ArcadeFacts.get_put_eq
              by (rewrite ?ArcadeFacts.length_put; lia);
            rewrite ?get_put_same by lia).
    reflexivity.
  - repeat (split; [first [reflexivity | assumption] |]).
    unfold arrays_wf. cbn [snake_x snake_y set_food]. rewrite Hx, Hy.
    rewrite !ArcadeFacts.length_put.
    cbn [snake_x snake_y s1 set_last_move set_dir set_growth].
    split; assumption.
Qed.

Lemma snake_start_witness :
  exists sh' s',
    init_snake 2 0 seeded_shared boot = Some (sh', s') /\
    segments s' = [(10, 15); (9, 15); (8, 15); (7, 15)] /\
    (snake_food_x s', snake_food_y s') <> (10, 15).
Proof.
  destruct (snake_start 0 0 seeded_shared boot)
    as (sh' & s' & Hinit & Hseg & _ & _ & _ & _ & _ & _ & Hne & _).
  - split; reflexivity.
  - exists sh', s'. split; [exact Hinit |]. split; [exact Hseg | exact Hne].
Defined.

Lemma init_snake_ok fuel now sh s sh' s' :
  arrays_wf s ->
  init_snake fuel now sh s = Some (sh', s') ->
  score_speed_ok sh' s'.
Proof.
  intros [Hxs Hys]. unfold init_snake.
  change (Z.max 4 (Z.quot SNAKE_GRID_W 2)) with 10.
  change (Z.max 4 (Z.quot SNAKE_GRID_H 2)) with 15.
  set (s1 := set_last_move now (set_dir 0 (set_growth 4 300 s))).
  destruct (init_body_arrays s1 eq_refl)
    as (Hx & Hy & Hlen & Hdir & Hspeed & Hlast).
  set (s2 := init_body 10 15 s1) in *.
  destruct (init_food fuel _ s2) as [[[st fx] fy] |];
    cbn [mbind option_bind]; [| discriminate].
  intros [= <- <-]. unfold score_speed_ok, arrays_wf.
  cbn [snake_x snake_y snake_length snake_dir snake_speed set_food
       game_score set_rng set_game_over set_game_score].
  rewrite Hx, Hy, Hlen, Hdir, Hspeed, !ArcadeFacts.length_put.
  cbn [snake_x snake_y snake_dir snake_speed s1 set_last_move set_dir
       set_growth].
  repeat split; try assumption; lia.
Qed.

Lemma touch_dir_range tx ty : 0 <= touch_dir tx ty <= 3.
Proof.
  unfold touch_dir.
  destruct (_ <? _); [lia |]. destruct (_ <? _); [lia |].
  destruct (_ <? _); lia.
Qed.

(** X8. Score and tick interval of Snake are fixed by the length: from
    a state with score [10 * (length - 4)] and interval
    [max 100 (300 - 5 * (length - 4))], every touch and every advance
    that returns leads to such a state again, with the two arrays at
    their size and the direction in 0..3. *)
Theorem score_follows_length (fuel : nat) (e : event)
    (g g' : Shared * State) :
  score_speed_ok g.1 g.2 ->
  snake_length g.2 < SNAKE_MAX_LENGTH ->
  step fuel e g = Some g' ->
  score_speed_ok g'.1 g'.2.
Proof.
  destruct g as [sh s], g' as [sh' s']. cbn [fst snd].
  intros Hsame _ Hstep.
  pose proof Hsame as (Hwf & Hlen & Hdir & Hscore & Hspeed).
  destruct e as [now tx ty | now]; cbn [step fst snd] in Hstep.
  - unfold touch_snake in Hstep.
    destruct (game_over sh); [now apply (init_snake_ok _ _ _ _ _ _ Hwf Hstep) |].
    injection Hstep as <- <-.
    pose proof (touch_dir_range tx ty).
    unfold score_speed_ok, arrays_wf in *. cbn. tauto.
  - unfold update_snake in Hstep.
    destruct (game_over sh); [now injection Hstep as <- <- |].
    destruct (_ <? _); [now injection Hstep as <- <- |].
    cbn [snake_dir snake_x snake_y snake_food_x snake_food_y snake_length
         snake_speed set_last_move] in Hstep.
    destruct (next_head _ _ _) as [nx ny].
    destruct (snake_check_collision _ nx ny).
    + injection Hstep as <- <-.
      unfold score_speed_ok, arrays_wf in *.
      rewrite ArcadeFacts.end_game_score. cbn. tauto.
    + destruct Hwf as [Hxs Hys].
      destruct ((nx =? snake_food_x s) && (ny =? snake_food_y s)).
      * destruct (place_food fuel _ _) as [[[st fx] fy] |];
          cbn [mbind option_bind] in Hstep; [| discriminate].
        injection Hstep as <- <-.
        unfold score_speed_ok, arrays_wf.
        cbn [snake_x snake_y snake_length snake_dir snake_speed set_food
             set_growth set_body set_last_move game_score set_rng
             set_game_score].
        rewrite !ArcadeFacts.length_put, !SnakeFacts.length_shift_body.
        repeat split; try assumption; lia.
      * cbn [mbind option_bind] in Hstep. injection Hstep as <- <-.
        unfold score_speed_ok, arrays_wf.
        cbn [snake_x snake_y snake_length snake_dir snake_speed
             set_body set_last_move].
        rewrite !ArcadeFacts.length_put, !SnakeFacts.length_shift_body.
        repeat split; try assumption; lia.
Qed.

Lemma score_follows_length_witness :
  exists g',
    step 1 (Tick 300) (eat_shared, eat_state) = Some g' /\
    game_score g'.1 = 10 /\ snake_length g'.2 = 5 /\ snake_speed g'.2 = 295.
Proof.
  eexists. split; [vm_compute; reflexivity |].
  match goal with
  | |- game_score (fst ?g) = _ /\ _ =>
      destruct (score_follows_length 1 (Tick 300) (eat_shared, eat_state) g)
        as (_ & _ & _ & Hscore & Hspeed)
  end.
  - unfold score_speed_ok, arrays_wf. cbn. repeat split; lia.
  - vm_compute. reflexivity.
  - vm_compute. reflexivity.
  - split; [rewrite Hscore; reflexivity |].
    split; [reflexivity | rewrite Hspeed; reflexivity].
Defined.

End SnakePlay.
(** ** Breakout: the brick counter, the score and the ball *)

Module BreakoutPlay.
Import Arcade F32 Display Breakout.

Lemma rows_in_range : BreakoutFacts.in_rows (seqZ 0 BRICK_ROWS).
Proof.
  apply Forall_forall. intros row Hrow. apply elem_of_seqZ in Hrow. lia.
Qed.

Lemma cols_in_range : BreakoutFacts.in_cols (seqZ 0 BRICK_COLS).
Proof.
  apply Forall_forall. intros col Hcol. apply elem_of_seqZ in Hcol. lia.
Qed.

Section Scan.

(** A relation between the state before and after part of a tick that
    holds for the steps that do not complete a level. *)
Variable R : Shared * State -> Shared * State -> Prop.
Hypothesis R_refl : forall g, R g g.
Hypothesis R_trans : forall g1 g2 g3, R g1 g2 -> R g2 g3 -> R g1 g3.
Hypothesis R_hit : forall row col sh b,
  0 <= row < BRICK_ROWS -> 0 <= col < BRICK_COLS ->
  brick b row col = true ->
  bricks_remaining b - 1 <> 0 ->
  R (sh, b) (hit_brick row col sh b).

Lemma hit_brick_rel row col sh b :
  0 <= row < BRICK_ROWS -> 0 <= col < BRICK_COLS ->
  brick b row col = true ->
  level_reset (hit_brick row col sh b) \/ R (sh, b) (hit_brick row col sh b).
Proof.
  intros Hr Hc Hb.
  destruct (Z.eq_dec (bricks_remaining b - 1) 0) as [Hz | Hnz].
  - left. unfold hit_brick.
    cbn [bricks_remaining set_ball_dy set_bricks]. rewrite Hz. cbn.
    split; reflexivity.
  - right. now apply R_hit.
Qed.

Lemma scan_cols_rel cols row sh b :
  0 <= row < BRICK_ROWS -> BreakoutFacts.in_cols cols ->
  level_reset (scan_cols cols row sh b) \/ R (sh, b) (scan_cols cols row sh b).
Proof.
  intros Hr. induction 1 as [| col cols Hc _ IH]; cbn [scan_cols];
    [right; apply R_refl |].
  destruct (brick b row col) eqn:Hb; cbn [negb]; [| exact IH].
  destruct (brick_collides b row col); [| exact IH].
  now apply hit_brick_rel.
Qed.

Lemma scan_rows_rel rows : forall sh b,
  BreakoutFacts.in_rows rows ->
  level_reset (scan_rows rows sh b) \/ R (sh, b) (scan_rows rows sh b).
Proof.
  induction rows as [| row rows IH]; intros sh b Hrows; cbn [scan_rows];
    [right; apply R_refl |].
  inversion Hrows as [| r rs Hr Hrest]; subst.
  destruct (scan_cols_rel (seqZ 0 BRICK_COLS) row sh b Hr cols_in_range)
    as [[Hreset Hscore] | Hrel];
    destruct (scan_cols (seqZ 0 BRICK_COLS) row sh b) as [sh1 b1];
    cbn [fst snd] in *.
  - subst b1. left.
    rewrite BreakoutFacts.scan_rows_next_level by exact Hrest.
    now split.
  - destruct (IH sh1 b1 Hrest) as [Hreset | Hrel']; [now left |].
    right. now apply (R_trans _ (sh1, b1)).
Qed.

Hypothesis R_move : forall sh b, R (sh, b) (sh, paddle_stage (move_ball b)).
Hypothesis R_lost : forall sh b, R (sh, b) (end_game 3 sh, move_ball b).

Lemma update_breakout_rel sh b :
  level_reset (update_breakout sh b) \/ R (sh, b) (update_breakout sh b).
Proof.
  unfold update_breakout.
  destruct (game_over sh); [right; apply R_refl |].
  destruct (fge _ _); [right; apply R_lost |].
  destruct (scan_rows_rel (seqZ 0 BRICK_ROWS) sh (paddle_stage (move_ball b))
              rows_in_range) as [Hreset | Hrel]; [now left |].
  right. eapply R_trans; [apply R_move | exact Hrel].
Qed.

End Scan.

(** Reading the array after [bricks[row][col] = false]. *)
Lemma brick_cleared b row col n r c :
  length (bricks b) = Z.to_nat BRICK_ROWS ->
  Forall (fun x => length x = Z.to_nat BRICK_COLS) (bricks b) ->
  0 <= row < BRICK_ROWS -> 0 <= col < BRICK_COLS ->
  brick (set_bricks (clear_brick row col (bricks b)) n b) r c
    = if (r =? row) && (c =? col) then false else brick b r c.
Proof.
  intros Hlen Hrows Hr Hc. unfold brick, clear_brick, put.
  cbn [bricks set_bricks].
  destruct (Z.ltb_spec row 0); [lia |].
  destruct (Z.ltb_spec col 0); [lia |].
  destruct (Z.ltb_spec r 0); cbn [orb].
  { destruct (Z.eqb_spec r row); [lia | reflexivity]. }
  destruct (Z.ltb_spec c 0); cbn [orb].
  { destruct (Z.eqb_spec c col); [lia | now rewrite andb_false_r]. }
  assert (Hrow : exists x, bricks b !! Z.to_nat row = Some x /\
                           length x = Z.to_nat BRICK_COLS).
  { destruct (bricks b !! Z.to_nat row) as [x |] eqn:Hx.
    - exists x. split; [reflexivity |].
      eapply Forall_lookup_1 in Hrows; eauto.
    - apply lookup_ge_None in Hx. unfold BRICK_ROWS in *. lia. }
  destruct Hrow as (x & Hx & Hxlen). rewrite Hx. cbn [default from_option id].
  destruct (Z.eqb_spec r row) as [-> | Hne]; cbn [andb].
  - rewrite list_lookup_insert_eq by (unfold BRICK_ROWS in *; lia).
    cbn [default from_option id].
    destruct (Z.eqb_spec c col) as [-> | Hnc].
    + rewrite list_lookup_insert_eq by (unfold BRICK_COLS in *; lia).
      reflexivity.
    + rewrite list_lookup_insert_ne by lia. now rewrite Hx.
  - rewrite list_lookup_insert_ne by lia. reflexivity.
Qed.

Lemma clear_brick_wf v row col :
  length v = Z.to_nat BRICK_ROWS ->
  Forall (fun x => length x = Z.to_nat BRICK_COLS) v ->
  length (clear_brick row col v) = Z.to_nat BRICK_ROWS /\
  Forall (fun x => length x = Z.to_nat BRICK_COLS) (clear_brick row col v).
Proof.
  intros Hlen Hrows. unfold clear_brick.
  split; [now rewrite ArcadeFacts.length_put |].
  unfold put at 1. destruct (row <? 0); [exact Hrows |].
  destruct (v !! Z.to_nat row) as [x |] eqn:Hx.
  - apply Forall_insert; [exact Hrows |].
    rewrite ArcadeFacts.length_put. cbn [default from_option id].
    eapply Forall_lookup_1 in Hrows; eauto.
  - rewrite list_insert_ge; [exact Hrows |].
    now apply lookup_ge_None.
Qed.

(** The indicator sum over a list of cells when one indicator goes from
    [true] to [false]. *)
Lemma sum_one_less (f f' : Z * Z -> bool) (row col : Z) (l : list (Z * Z)) :
  f (row, col) = true ->
  (forall q, f' q = if (q.1 =? row) && (q.2 =? col) then false else f q) ->
  foldr Z.add 0 (map (fun q => if f' q then 1 else 0) l)
    = foldr Z.add 0 (map (fun q => if f q then 1 else 0) l)
      - foldr Z.add 0
          (map (fun q : Z * Z =>
                  if (q.1 =? row) && (q.2 =? col) then 1 else 0) l).
Proof.
  intros Hp Hf'. induction l as [| [r c] l IH]; [reflexivity |].
  cbn [map foldr fst snd]. rewrite IH, (Hf' (r, c)). cbn [fst snd].
  destruct (Z.eqb_spec r row) as [-> |]; cbn [andb].
  - destruct (Z.eqb_spec c col) as [-> |].
    + rewrite Hp. lia.
    + lia.
  - lia.
Qed.

Lemma one_cell_each row col :
  0 <= row < BRICK_ROWS -> 0 <= col < BRICK_COLS ->
  foldr Z.add 0
    (map (fun q : Z * Z => if (q.1 =? row) && (q.2 =? col) then 1 else 0)
       brick_cells) = 1.
Proof.
  unfold BRICK_ROWS, BRICK_COLS. intros Hr Hc.
  assert (Hrow : row = 0 \/ row = 1 \/ row = 2 \/ row = 3 \/ row = 4
                 \/ row = 5) by lia.
  assert (Hcol : col = 0 \/ col = 1 \/ col = 2 \/ col = 3 \/ col = 4
                 \/ col = 5 \/ col = 6 \/ col = 7) by lia.
  destruct Hrow as [-> | [-> | [-> | [-> | [-> | ->]]]]];
    destruct Hcol as [-> | [-> | [-> | [-> | [-> | [-> | [-> | ->]]]]]]];
    vm_compute; reflexivity.
Qed.

Lemma fresh_counter_ok : counter_ok fresh.
Proof.
  unfold counter_ok. split; [reflexivity |]. split.
  - apply Forall_replicate. reflexivity.
  - vm_compute. reflexivity.
Qed.

Lemma next_level_counter_ok : counter_ok next_level.
Proof. exact fresh_counter_ok. Qed.

Lemma hit_brick_counter_ok row col sh b :
  0 <= row < BRICK_ROWS -> 0 <= col < BRICK_COLS ->
  brick b row col = true ->
  bricks_remaining b - 1 <> 0 ->
  counter_ok b -> counter_ok (hit_brick row col sh b).2.
Proof.
  intros Hr Hc Hb Hnz (Hlen & Hrows & Hcount). unfold hit_brick.
  cbn [bricks_remaining set_ball_dy set_bricks].
  destruct (Z.eqb_spec (bricks_remaining b - 1) 0); [contradiction |].
  cbn [snd]. unfold counter_ok.
  cbn [bricks bricks_remaining set_ball_dy set_bricks].
  destruct (clear_brick_wf (bricks b) row col Hlen Hrows) as [Hlen' Hrows'].
  split; [exact Hlen' |]. split; [exact Hrows' |].
  unfold standing.
  rewrite (sum_one_less (fun q => brick b q.1 q.2) _ row col).
  - rewrite one_cell_each by assumption. unfold standing in Hcount. lia.
  - exact Hb.
  - intros [r c]. cbn [fst snd].
    change (brick (set_ball_dy (fneg (ball_dy (set_bricks
              (clear_brick row col (bricks b)) (bricks_remaining b - 1) b)))
              (set_bricks (clear_brick row col (bricks b))
                 (bricks_remaining b - 1) b)) r c)
      with (brick (set_bricks (clear_brick row col (bricks b))
                     (bricks_remaining b - 1) b) r c).
    now apply brick_cleared.
Qed.

Lemma counter_ok_same b b' :
  bricks b' = bricks b -> bricks_remaining b' = bricks_remaining b ->
  counter_ok b -> counter_ok b'.
Proof.
  intros Hb Hn (Hlen & Hrows & Hcount). unfold counter_ok, standing, brick.
  rewrite Hb, Hn. repeat split; assumption.
Qed.

Lemma move_ball_bricks b : bricks (move_ball b) = bricks b.
Proof.
  unfold move_ball. cbv zeta.
  repeat match goal with
  | |- context [if ?c then _ else _] => destruct c
  end; reflexivity.
Qed.

Lemma paddle_stage_bricks b : bricks (paddle_stage b) = bricks b.
Proof. unfold paddle_stage. now destruct (paddle_collides b). Qed.

(** X9. The brick counter of Breakout is the number of bricks that
    stand: this holds after [init_breakout], and a tick and a touch
    keep it, with the brick array at its 6 rows of 8 entries. *)
Theorem brick_counter_counts (sh : Shared) (b : State) (tx : Z) :
  counter_ok b ->
  counter_ok (update_breakout sh b).2 /\
  counter_ok (touch_breakout tx sh b).2 /\
  counter_ok (init_breakout sh b).2.
Proof.
  intros Hok. split; [| split].
  - destruct (update_breakout_rel
                (fun g g' => counter_ok g.2 -> counter_ok g'.2)) with sh b
      as [[Hreset _] | Hrel].
    + auto.
    + auto.
    + intros row col sh0 b0 Hr Hc Hb Hnz. cbn [snd].
      now apply hit_brick_counter_ok.
    + intros sh0 b0. cbn [snd]. apply counter_ok_same.
      * now rewrite paddle_stage_bricks, move_ball_bricks.
      * now rewrite BreakoutFacts.paddle_stage_counter,
          BreakoutFacts.move_ball_counter.
    + intros sh0 b0. cbn [snd]. apply counter_ok_same.
      * apply move_ball_bricks.
      * apply BreakoutFacts.move_ball_counter.
    + rewrite Hreset. apply next_level_counter_ok.
    + now apply Hrel.
  - unfold touch_breakout. destruct (game_over sh); cbn [snd].
    + apply fresh_counter_ok.
    + revert Hok. now apply counter_ok_same.
  - apply fresh_counter_ok.
Qed.

Lemma brick_counter_counts_witness :
  counter_ok (update_breakout last_brick_shared fresh).2 /\
  counter_ok (touch_breakout 100 last_brick_shared fresh).2 /\
  counter_ok (init_breakout last_brick_shared fresh).2.
Proof.
  apply (brick_counter_counts last_brick_shared fresh 100).
  unfold counter_ok. split; [reflexivity |]. split.
  - apply Forall_replicate. reflexivity.
  - vm_compute. reflexivity.
Defined.

(** X10. A tick of Breakout keeps [game_score + 10 * bricks_remaining]
    as it was, except the tick that destroys the last brick: that one
    leaves the start state of the next level and a score of 0. *)
Theorem score_tracks_bricks (sh : Shared) (b : State) :
  level_reset (update_breakout sh b) \/
  game_score (update_breakout sh b).1
    + 10 * bricks_remaining (update_breakout sh b).2
  = game_score sh + 10 * bricks_remaining b.
Proof.
  apply (update_breakout_rel
           (fun g g' => game_score g'.1 + 10 * bricks_remaining g'.2
                        = game_score g.1 + 10 * bricks_remaining g.2)).
  - reflexivity.
  - intros g1 g2 g3 H12 H23. now rewrite H23.
  - intros row col sh0 b0 _ _ _ Hnz. unfold hit_brick.
    cbn [bricks_remaining set_ball_dy set_bricks].
    destruct (Z.eqb_spec (bricks_remaining b0 - 1) 0); [contradiction |].
    cbn. lia.
  - intros sh0 b0. cbn [fst snd].
    now rewrite BreakoutFacts.paddle_stage_counter,
      BreakoutFacts.move_ball_counter.
  - intros sh0 b0. cbn [fst snd].
    now rewrite ArcadeFacts.end_game_score, BreakoutFacts.move_ball_counter.
Qed.

Lemma to_Q_fneg x : (to_Q (fneg x) == - to_Q x)%Q.
Proof.
  destruct x as [s | s | | s m e]; try reflexivity.
  unfold fneg, SFopp, to_Q.
  destruct s, (0 <=? e); cbn [negb]; unfold Qeq, Qopp, inject_Z; cbn; lia.
Qed.

Lemma Qabs_fneg x : (Qabs (to_Q (fneg x)) == Qabs (to_Q x))%Q.
Proof. rewrite to_Q_fneg. apply Qabs_opp. Qed.

Lemma Qabs_arduino_abs x :
  (Qabs (to_Q (arduino_abs x)) == Qabs (to_Q x))%Q.
Proof.
  unfold arduino_abs. destruct (fgt x (of_int 0)); [reflexivity |].
  apply Qabs_fneg.
Qed.

(** X11. A tick of Breakout changes the vertical velocity of the ball
    at most in its sign, except the tick that completes a level: walls,
    paddle and bricks turn the ball round and never slow it down
    vertically. *)
Theorem vertical_speed_kept (sh : Shared) (b : State) :
  level_reset (update_breakout sh b) \/
  (Qabs (to_Q (ball_dy (update_breakout sh b).2))
   == Qabs (to_Q (ball_dy b)))%Q.
Proof.
  apply (update_breakout_rel
           (fun g g' => (Qabs (to_Q (ball_dy g'.2))
                         == Qabs (to_Q (ball_dy g.2)))%Q)).
  - reflexivity.
  - intros g1 g2 g3 H12 H23. now rewrite H23.
  - intros row col sh0 b0 _ _ _ Hnz. unfold hit_brick.
    cbn [bricks_remaining set_ball_dy set_bricks].
    destruct (Z.eqb_spec (bricks_remaining b0 - 1) 0); [contradiction |].
    cbn [snd ball_dy set_ball_dy set_bricks]. apply Qabs_fneg.
  - intros sh0 b0. cbn [snd].
    assert (Hmove : (Qabs (to_Q (ball_dy (move_ball b0)))
                     == Qabs (to_Q (ball_dy b0)))%Q).
    { unfold move_ball. cbv zeta.
      repeat match goal with
      | |- context [if ?c then _ else _] => destruct c
      end; cbn [ball_dy set_ball_dy set_ball_dx set_ball_pos];
        first [reflexivity | apply Qabs_fneg]. }
    rewrite <- Hmove. unfold paddle_stage, paddle_bounce.
    destruct (paddle_collides (move_ball b0)); [| reflexivity].
    cbn [ball_dy set_ball_dy set_ball_dx].
    rewrite Qabs_fneg. apply Qabs_arduino_abs.
  - intros sh0 b0. cbn [snd].
    unfold move_ball. cbv zeta.
    repeat match goal with
    | |- context [if ?c then _ else _] => destruct c
    end; cbn [ball_dy set_ball_dy set_ball_dx set_ball_pos];
      first [reflexivity | apply Qabs_fneg].
Qed.

(** X12. While a game runs, a touch at column [tx] puts the left edge
    of the paddle at [tx - 30] clamped to [[0, 308]], a whole pixel, so
    that the paddle stays on the screen; nothing else changes. *)
Theorem touch_moves_paddle (tx : Z) (sh : Shared) (b : State) :
  0 <= tx < 1024 -> game_over sh = false ->
  let p := Z.max 0 (Z.min (AMOLED_1IN8_WIDTH - paddle_w)
                      (tx - Z.quot paddle_w 2)) in
  touch_breakout tx sh b = (sh, set_paddle_x (of_int p) b) /\
  (to_Q (of_int p) == inject_Z p)%Q /\
  0 <= p /\ p + paddle_w <= AMOLED_1IN8_WIDTH.
Proof.
  intros Htx Hover p.
  destruct (BreakoutFacts.touch_breakout_paddle tx sh b Htx Hover)
    as [Hrange Hpaddle].
  fold p in Hrange, Hpaddle.
  unfold touch_breakout in *. rewrite Hover in *.
  cbn [snd paddle_x set_paddle_x] in Hpaddle. rewrite Hpaddle.
  split; [reflexivity |]. split; [| lia].
  pose proof (BreakoutFacts.paddle_pixel p Hrange) as Hpix.
  unfold paddle_pixel_ok in Hpix.
  repeat (apply andb_true_iff in Hpix as [Hpix ?]).
  now apply Qeq_bool_iff.
Qed.

Lemma touch_moves_paddle_witness :
  touch_breakout 10 last_brick_shared fresh
    = (last_brick_shared, set_paddle_x (of_int 0) fresh) /\
  touch_breakout 360 last_brick_shared fresh
    = (last_brick_shared, set_paddle_x (of_int 308) fresh).
Proof.
  split.
  - apply (touch_moves_paddle 10 last_brick_shared fresh); [lia | reflexivity].
  - apply (touch_moves_paddle 360 last_brick_shared fresh);
      [lia | reflexivity].
Defined.

End BreakoutPlay.
(** ** Asteroids: the ship, the pools and the start of a level *)

Module AsteroidsPlay.
Import Arcade F32 Display Asteroids.

Lemma length_spawn_child i a old_size old_x old_y acc :
  length (spawn_child i a old_size old_x old_y acc).2 = length acc.2.
Proof.
  destruct acc as [s l]. unfold spawn_child.
  repeat match goal with
         | |- context [let '(_, _) := ?r in _] => destruct r
         end.
  cbn [snd].
  now rewrite !AsteroidsFacts.length_modify, ArcadeFacts.length_put.
Qed.

Lemma length_split_loop slots : forall count a old_size old_x old_y acc,
  length (split_loop slots count a old_size old_x old_y acc).2
    = length acc.2.
Proof.
  induction slots as [| i rest IH]; intros count a old_size old_x old_y acc;
    cbn [split_loop]; [reflexivity |].
  destruct (count <? 2); [| reflexivity].
  destruct (negb _); rewrite IH; [apply length_spawn_child | reflexivity].
Qed.

Lemma hit_asteroid_keeps b a sh st :
  ship (hit_asteroid b a sh st).2 = ship st /\
  length (bullets (hit_asteroid b a sh st).2) = length (bullets st) /\
  length (asteroids (hit_asteroid b a sh st).2) = length (asteroids st).
Proof.
  unfold hit_asteroid. cbv zeta.
  destruct (0 <? _).
  - pose proof (length_split_loop (seqZ 0 ASTEROIDS) 0 a
                  (a_size (asteroid_at (asteroids st) a))
                  (a_x (asteroid_at (asteroids st) a))
                  (a_y (asteroid_at (asteroids st) a))
                  (rng_seed (set_game_score
                     (game_score sh
                      + (a_size (asteroid_at (asteroids st) a) + 1) * 10) sh),
                   modify (asteroids st) a (set_a_active false))) as Hlen.
    destruct (split_loop _ _ _ _ _ _ _) as [s l]. cbn [snd] in *.
    cbn. rewrite Hlen, AsteroidsFacts.length_modify, ArcadeFacts.length_put.
    repeat split.
  - cbn. rewrite AsteroidsFacts.length_modify, ArcadeFacts.length_put.
    repeat split.
Qed.

Lemma scan_asteroids_keeps lm slots b : forall sh st,
  ship (scan_asteroids lm slots b sh st).2 = ship st /\
  length (bullets (scan_asteroids lm slots b sh st).2) = length (bullets st) /\
  length (asteroids (scan_asteroids lm slots b sh st).2)
    = length (asteroids st).
Proof.
  induction slots as [| a rest IH]; intros sh st; cbn [scan_asteroids];
    [repeat split |].
  destruct (negb _); [apply IH |].
  destruct (bullet_hits lm st b a); [apply hit_asteroid_keeps | apply IH].
Qed.

Lemma scan_bullets_keeps lm slots : forall sh st,
  ship (scan_bullets lm slots sh st).2 = ship st /\
  length (bullets (scan_bullets lm slots sh st).2) = length (bullets st) /\
  length (asteroids (scan_bullets lm slots sh st).2) = length (asteroids st).
Proof.
  induction slots as [| b rest IH]; intros sh st; cbn [scan_bullets];
    [repeat split |].
  destruct (negb _).
  - apply IH.
  - pose proof (scan_asteroids_keeps lm (seqZ 0 ASTEROIDS) b sh st)
      as (Hs & Hb & Ha).
    destruct (scan_asteroids lm (seqZ 0 ASTEROIDS) b sh st) as [sh1 st1].
    cbn [snd] in *.
    destruct (IH sh1 st1) as (Hs' & Hb' & Ha').
    rewrite Hs', Hb', Ha'. repeat split; assumption.
Qed.

Lemma rng2_range mn mx st :
  Rng.call_ok (mn, mx) -> mn <= (Rng.rng2 mn mx st).1 < mx.
Proof.
  intros Hok. rewrite RngFacts.rng2_spec by exact Hok. cbn [fst].
  destruct Hok as (_ & _ & Hlt). cbn [fst snd] in Hlt.
  pose proof (Z.mod_pos_bound (Rng.lcg_next st) (mx - mn) ltac:(lia)). lia.
Qed.

Lemma create_asteroid_spec s l i :
  0 <= i < Z.of_nat (length l) ->
  length (create_asteroid (s, l) i).2 = length l /\
  fresh_rock (asteroid_at (create_asteroid (s, l) i).2 i) /\
  (forall j, 0 <= j -> i <> j ->
     asteroid_at (create_asteroid (s, l) i).2 j = asteroid_at l j).
Proof.
  intros Hi. unfold create_asteroid.
  pose proof (rng2_range 50 318 s) as Hx.
  destruct (Rng.rng2 50 318 s) as [rx s1]. cbn [fst] in Hx.
  pose proof (rng2_range 50 430 s1) as Hy.
  destruct (Rng.rng2 50 430 s1) as [ry s2]. cbn [fst] in Hy.
  destruct (Rng.rng2 0 100 s2) as [rdx s3].
  destruct (Rng.rng2 0 100 s3) as [rdy s4].
  destruct (Rng.rng2 0 360 s4) as [ra s5].
  destruct (Rng.rng2 0 100 s5) as [rs s6].
  cbn [snd]. split; [| split].
  - now rewrite !AsteroidsFacts.length_modify.
  - repeat (rewrite AsteroidsFacts.asteroid_at_modify_eq
              by (rewrite ?AsteroidsFacts.length_modify; exact Hi)).
    unfold fresh_rock. cbn. split; [reflexivity |]. split; [reflexivity |].
    exists rx, ry.
    split; [apply Hx; unfold Rng.call_ok, CInt.is_long; cbn; lia |].
    split; [apply Hy; unfold Rng.call_ok, CInt.is_long; cbn; lia |].
    split; reflexivity.
  - intros j Hj Hne.
    now rewrite !AsteroidsFacts.asteroid_at_modify_ne by assumption.
Qed.

Lemma create_asteroids_spec (n : nat) : forall s l,
  (n <= length l)%nat ->
  let r := foldl create_asteroid (s, l) (seqZ 0 (Z.of_nat n)) in
  length r.2 = length l /\
  (forall j, 0 <= j < Z.of_nat n -> fresh_rock (asteroid_at r.2 j)) /\
  (forall j, Z.of_nat n <= j -> asteroid_at r.2 j = asteroid_at l j).
Proof.
  induction n as [| n IH]; intros s l Hn; cbv zeta.
  - cbn. split; [reflexivity |]. split; [lia | reflexivity].
  - rewrite seqZ_S, foldl_app. cbn [foldl].
    destruct (IH s l ltac:(lia)) as (Hlen & Hrocks & Hrest).
    destruct (foldl create_asteroid (s, l) (seqZ 0 (Z.of_nat n)))
      as [s1 l1]. cbn [snd] in *.
    destruct (create_asteroid_spec s1 l1 (0 + Z.of_nat n) ltac:(lia))
      as (Hlen' & Hrock & Hother).
    split; [congruence |]. split.
    + intros j Hj. destruct (Z.eq_dec j (0 + Z.of_nat n)) as [-> | Hne].
      * exact Hrock.
      * rewrite Hother by lia. apply Hrocks. lia.
    + intros j Hj. rewrite Hother by lia. apply Hrest. lia.
Qed.

Lemma asteroid_at_cleared (l : list Asteroid) j :
  a_active (asteroid_at (map (set_a_active false) l) j) = false.
Proof.
  unfold asteroid_at. destruct (j <? 0); [reflexivity |].
  rewrite list_lookup_fmap.
  now destruct (l !! Z.to_nat j).
Qed.

Lemma bullet_at_cleared (l : list Bullet) j :
  b_active (bullet_at (map (set_b_active false) l) j) = false.
Proof.
  unfold bullet_at. destruct (j <? 0); [reflexivity |].
  rewrite list_lookup_fmap.
  now destruct (l !! Z.to_nat j).
Qed.

Lemma count_below n :
  0 <= n <= ASTEROIDS ->
  counts (fun i => i <? n) (seqZ 0 ASTEROIDS) = n.
Proof.
  intros Hn.
  assert (H : forallb (fun k => counts (fun i => i <? k) (seqZ 0 ASTEROIDS)
                                =? k) (seqZ 0 (ASTEROIDS + 1)) = true)
    by (vm_compute; reflexivity).
  rewrite forallb_forall in H.
  apply Z.eqb_eq, H, list_elem_of_In, elem_of_seqZ. lia.
Qed.

Lemma empty_pool_inactive (k : nat) (i : Z) :
  a_active (asteroid_at (replicate k no_asteroid) i) = false.
Proof.
  unfold asteroid_at. destruct (i <? 0); [reflexivity |].
  destruct (replicate k no_asteroid !! Z.to_nat i) as [a |] eqn:Ha;
    [| reflexivity].
  apply lookup_replicate in Ha as [-> _]. reflexivity.
Qed.

(** What [init_asteroids] leaves behind. *)
Lemma init_asteroids_spec sh st :
  pools_wf st -> 1 <= asteroids_level st ->
  let n := Z.min (3 + asteroids_level st) 10 in
  let g := init_asteroids sh st in
  game_score g.1 = 0 /\ game_over g.1 = false /\
  high_scores g.1 = high_scores sh /\
  pools_wf g.2 /\ asteroids_level g.2 = asteroids_level st /\
  ship_parked (ship g.2) /\ ship_alive (ship g.2) = true /\
  ship_angle (ship g.2) = of_int (-90) /\
  (forall i, b_active (bullet_at (bullets g.2) i) = false) /\
  (forall i, 0 <= i < n -> fresh_rock (asteroid_at (asteroids g.2) i)) /\
  (forall i, n <= i -> a_active (asteroid_at (asteroids g.2) i) = false) /\
  census 2 (asteroids g.2) = n /\
  (forall size, size <> 2 -> census size (asteroids g.2) = 0).
Proof.
  intros [Hbl Hal] Hlevel n g. subst g. unfold init_asteroids.
  fold n.
  assert (Hn : 4 <= n <= 10) by (unfold n; lia).
  pose proof (create_asteroids_spec (Z.to_nat n)
                (rng_seed (set_game_over false (set_game_score 0 sh)))
                (map (set_a_active false) (asteroids st))) as Hspec.
  rewrite Z2Nat.id in Hspec by lia.
  specialize (Hspec ltac:(rewrite length_map, Hal; unfold ASTEROIDS; lia)).
  cbv zeta in Hspec. destruct Hspec as (Hlen & Hrocks & Hrest).
  destruct (foldl create_asteroid _ (seqZ 0 n)) as [s l].
  cbn [fst snd] in *.
  cbn [game_score game_over high_scores set_rng set_game_over set_game_score
       ship bullets asteroids asteroids_level ship_alive ship_angle].
  assert (Hfree : forall i, n <= i -> a_active (asteroid_at l i) = false).
  { intros i Hi. rewrite Hrest by exact Hi. apply asteroid_at_cleared. }
  repeat (split; [first [reflexivity | assumption] |]).
  split.
  { unfold pools_wf. cbn [bullets asteroids].
    rewrite Hlen, !length_map. split; assumption. }
  repeat (split; [first [reflexivity | assumption] |]).
  split; [repeat split |].
  repeat (split; [first [reflexivity | assumption] |]).
  split; [intros i; apply bullet_at_cleared |].
  split; [exact Hrocks |]. split; [exact Hfree |].
  split.
  - unfold census. rewrite <- (count_below n) by (unfold ASTEROIDS; lia).
    apply AsteroidsFacts.counts_ext. intros i Hi.
    apply elem_of_seqZ in Hi.
    destruct (Z.ltb_spec i n) as [Hlt | Hge].
    + destruct (Hrocks i ltac:(lia)) as (-> & -> & _). reflexivity.
    + now rewrite Hfree by lia.
  - intros size Hsize. unfold census.
    rewrite <- (AsteroidsFacts.counts_none (seqZ 0 ASTEROIDS)).
    apply AsteroidsFacts.counts_ext. intros i Hi.
    apply elem_of_seqZ in Hi.
    destruct (Z.ltb_spec i n) as [Hlt | Hge].
    + destruct (Hrocks i ltac:(lia)) as (-> & -> & _).
      destruct (Z.eqb_spec 2 size); [congruence | reflexivity].
    + now rewrite Hfree by lia.
Qed.

Lemma length_create_asteroid acc i :
  length (create_asteroid acc i).2 = length acc.2.
Proof.
  destruct acc as [s l]. unfold create_asteroid.
  repeat match goal with
         | |- context [let '(_, _) := ?r in _] => destruct r
         end.
  cbn [snd]. now rewrite !AsteroidsFacts.length_modify.
Qed.

Lemma length_create_all cells : forall acc,
  length (foldl create_asteroid acc cells).2 = length acc.2.
Proof.
  induction cells as [| i rest IH]; intros acc; cbn [foldl]; [reflexivity |].
  now rewrite IH, length_create_asteroid.
Qed.

Lemma init_asteroids_parked sh st :
  pools_wf st ->
  ship_parked (ship (init_asteroids sh st).2) /\
  pools_wf (init_asteroids sh st).2.
Proof.
  intros [Hbl Hal]. unfold init_asteroids.
  pose proof (length_create_all
                (seqZ 0 (Z.min (3 + asteroids_level st) 10))
                (rng_seed (set_game_over false (set_game_score 0 sh)),
                 map (set_a_active false) (asteroids st))) as Hlen.
  destruct (foldl create_asteroid _ _) as [s l]. cbn [snd] in *.
  split; [repeat split |].
  unfold pools_wf. cbn [bullets asteroids].
  rewrite Hlen, !length_map. split; assumption.
Qed.

Lemma move_ship_parked s : ship_parked s -> ship_parked (move_ship s).
Proof.
  intros (Hx & Hy & Hdx & Hdy). unfold move_ship, ship_parked.
  cbn [ship_x ship_y ship_dx ship_dy]. rewrite Hx, Hy, Hdx, Hdy.
  repeat split; vm_compute; reflexivity.
Qed.

Lemma length_fire lm now s slots l :
  length (fire lm now s slots l) = length l.
Proof.
  induction slots as [| i rest IH]; cbn [fire]; [reflexivity |].
  destruct (negb _); [apply ArcadeFacts.length_put | exact IH].
Qed.

Lemma step_parked lm e g :
  ship_parked (ship g.2) /\ pools_wf g.2 ->
  ship_parked (ship (step lm e g).2) /\ pools_wf (step lm e g).2.
Proof.
  destruct g as [sh st]. cbn [fst snd]. intros [Hship Hwf].
  destruct e as [now tx | now]; cbn [step fst snd].
  - unfold touch_asteroids.
    destruct (game_over sh); [now apply init_asteroids_parked |].
    destruct (tx <? _); [split; assumption |].
    destruct (_ <? tx); [split; assumption |].
    cbn [snd]. split; [exact Hship |].
    destruct Hwf as [Hbl Hal]. unfold pools_wf. cbn [bullets asteroids set_bullets].
    now rewrite length_fire.
  - unfold update_asteroids.
    destruct (game_over sh || negb (ship_alive (ship st)));
      [split; assumption |].
    destruct (negb _); [now apply init_asteroids_parked |].
    cbv zeta.
    pose proof (scan_bullets_keeps lm (seqZ 0 BULLETS) sh
                  (set_asteroids
                     (map move_asteroid
                        (asteroids (set_bullets
                           (map (move_bullet now)
                              (bullets (set_ship (move_ship (ship st)) st)))
                           (set_ship (move_ship (ship st)) st))))
                     (set_bullets
                        (map (move_bullet now)
                           (bullets (set_ship (move_ship (ship st)) st)))
                        (set_ship (move_ship (ship st)) st))))
      as (Hs & Hb & Ha).
    destruct (scan_bullets lm _ sh _) as [sh4 st4]. cbn [snd] in *.
    cbn [ship bullets asteroids set_ship set_bullets set_asteroids] in *.
    rewrite !length_map in *.
    destruct Hwf as [Hbl Hal].
    unfold ship_collision. destruct (existsb _ _); cbn [snd].
    + split.
      * cbn [ship set_ship]. rewrite Hs.
        destruct (move_ship_parked (ship st) Hship) as (? & ? & ? & ?).
        now repeat split.
      * unfold pools_wf. cbn [bullets asteroids set_ship]. split; congruence.
    + split.
      * rewrite Hs. now apply move_ship_parked.
      * unfold pools_wf. split; congruence.
Qed.

(** X13. [init_asteroids] at level [L >= 1] leaves score 0, a living
    ship at rest at (184, 260) heading up, no bullet in flight, and
    exactly [min (3 + L) 10] asteroids, in the first slots of the pool:
    all of the largest size and at whole pixels with [50 <= x < 318]
    and [50 <= y < 430]. *)
Theorem level_starts_with_rocks (sh : Shared) (st : State) :
  pools_wf st -> 1 <= asteroids_level st ->
  let n := Z.min (3 + asteroids_level st) 10 in
  let g := init_asteroids sh st in
  game_score g.1 = 0 /\ game_over g.1 = false /\
  ship_parked (ship g.2) /\ ship_alive (ship g.2) = true /\
  ship_angle (ship g.2) = of_int (-90) /\
  bullets_in_flight (bullets g.2) = 0 /\
  (forall i, 0 <= i < n -> fresh_rock (asteroid_at (asteroids g.2) i)) /\
  (forall i, n <= i -> a_active (asteroid_at (asteroids g.2) i) = false) /\
  census 2 (asteroids g.2) = n /\
  census 1 (asteroids g.2) = 0 /\ census 0 (asteroids g.2) = 0.
Proof.
  intros Hwf Hlevel n g.
  destruct (init_asteroids_spec sh st Hwf Hlevel)
    as (Hscore & Hover & _ & _ & _ & Hship & Halive & Hangle & Hbul
        & Hrocks & Hfree & Hbig & Hsmall).
  fold n g in Hscore, Hover, Hship, Halive, Hangle, Hbul, Hrocks, Hfree,
    Hbig, Hsmall.
  repeat (split; [first [assumption | now apply Hsmall] |]).
  split.
  - unfold bullets_in_flight.
    rewrite <- (AsteroidsFacts.counts_none (seqZ 0 BULLETS)).
    apply AsteroidsFacts.counts_ext. intros i _. apply Hbul.
  - repeat (split; [first [assumption | now apply Hsmall] |]).
    now apply Hsmall.
Qed.

Lemma level_starts_with_rocks_witness :
  census 2 (asteroids started.2) = 4 /\ game_score started.1 = 0.
Proof.
  destruct (level_starts_with_rocks lone_shared boot)
    as (Hscore & _ & _ & _ & _ & _ & _ & _ & Hbig & _).
  - split; reflexivity.
  - vm_compute. discriminate.
  - split; [exact Hbig | exact Hscore].
Defined.

(** X14. When no asteroid is left, the advance of a running game
    starts the next level: the level number goes up by one, the field
    is set up as by [init_asteroids], with [min (4 + L) 10] large
    asteroids, and the score is 0 again. *)
Theorem cleared_field_advances (lm : Libm) (now : Z) (sh : Shared)
    (st : State) :
  pools_wf st -> 1 <= asteroids_level st ->
  game_over sh = false -> ship_alive (ship st) = true ->
  (forall i, 0 <= i < ASTEROIDS ->
     a_active (asteroid_at (asteroids st) i) = false) ->
  let g := update_asteroids lm now sh st in
  g = init_asteroids sh (set_level (asteroids_level st + 1) st) /\
  asteroids_level g.2 = asteroids_level st + 1 /\
  game_score g.1 = 0 /\
  census 2 (asteroids g.2) = Z.min (4 + asteroids_level st) 10.
Proof.
  intros Hwf Hlevel Hover Halive Hnone g. subst g.
  unfold update_asteroids. rewrite Hover, Halive. cbn [orb negb].
  assert (Hex : existsb (fun i => a_active (asteroid_at (asteroids st) i))
                  (seqZ 0 ASTEROIDS) = false).
  { apply not_true_is_false. intros Hex.
    apply existsb_exists in Hex as (i & Hin & Hact).
    apply list_elem_of_In, elem_of_seqZ in Hin.
    rewrite Hnone in Hact by lia. discriminate. }
  rewrite Hex. cbn [negb].
  destruct (init_asteroids_spec sh (set_level (asteroids_level st + 1) st))
    as (Hscore & _ & _ & _ & Hlev & _ & _ & _ & _ & _ & _ & Hbig & _).
  - exact Hwf.
  - cbn [asteroids_level set_level]. lia.
  - cbn [asteroids_level set_level] in *.
    split; [reflexivity |]. split; [exact Hlev |]. split; [exact Hscore |].
    rewrite Hbig. f_equal. lia.
Qed.

Lemma cleared_field_advances_witness :
  asteroids_level (update_asteroids sample_libm 0 lone_shared cleared_field).2
    = 4 /\
  census 2 (asteroids (update_asteroids sample_libm 0 lone_shared
                         cleared_field).2) = 7.
Proof.
  destruct (cleared_field_advances sample_libm 0 lone_shared cleared_field)
    as (_ & Hlev & _ & Hbig).
  - split; reflexivity.
  - vm_compute. discriminate.
  - reflexivity.
  - reflexivity.
  - intros i _. apply (empty_pool_inactive 15).
  - split; [exact Hlev | exact Hbig].
Defined.

(** X15. The ship of Asteroids never moves: in every state of a game
    it stands at (184, 260) with velocity 0 (a touch only turns it or
    fires), and the two pools keep their 5 and 15 slots. *)
Theorem ship_never_moves (lm : Libm) (g : Shared * State) :
  reachable lm g -> ship_parked (ship g.2) /\ pools_wf g.2.
Proof.
  induction 1 as [sh st Hwf | e g _ IH].
  - now apply init_asteroids_parked.
  - now apply step_parked.
Qed.

Lemma ship_never_moves_witness :
  ship_parked
    (ship (step sample_libm (Tick 100)
             (step sample_libm (Touch 50 10) started)).2).
Proof.
  apply (ship_never_moves sample_libm).
  apply reach_step, reach_step, reach_init. split; reflexivity.
Defined.

Lemma SFcompare_antisym (a b : float) :
  SFcompare b a = option_map CompOpp (SFcompare a b).
Proof.
  destruct a as [sa | sa | | sa ma ea], b as [sb | sb | | sb mb eb];
    try reflexivity;
    try (destruct sa; reflexivity); try (destruct sb; reflexivity);
    try (destruct sa, sb; reflexivity).
  cbn [SFcompare option_map].
  pose proof (Pos.compare_cont_antisym ma mb Eq) as Hm. cbn [CompOpp] in Hm.
  destruct sa, sb; try reflexivity;
    rewrite (Z.compare_antisym ea eb);
    destruct (ea ?= eb); cbn [CompOpp]; try reflexivity;
    rewrite <- Hm; now destruct (Pos.compare_cont Eq ma mb).
Qed.

(** For numbers, "not less" is "greater or equal". *)
Lemma not_less_is_greater_equal (a b : float) :
  is_nan a = false -> is_nan b = false ->
  flt a b = false -> fle b a = true.
Proof.
  unfold flt, fle, SFltb, SFleb. intros Ha Hb.
  rewrite (SFcompare_antisym a b).
  destruct (SFcompare a b) as [[| |] |] eqn:Hc; cbn; try easy.
  destruct a, b; try discriminate; cbn in Hc; try discriminate;
    repeat match type of Hc with
           | context [if ?s then _ else _] => destruct s
           end; discriminate.
Qed.

Lemma fgt_flt (a b : float) : fgt a b = flt b a.
Proof. reflexivity. Qed.




Lemma less_not_greater_equal (a b : float) :
  flt a b = true -> fle b a = false.
Proof.
  unfold flt, fle, SFltb, SFleb. rewrite (SFcompare_antisym a b).
  now destruct (SFcompare a b) as [[| |] |].
Qed.

(** X17. A bullet in flight is still active after its move exactly
    when its new position is on the screen, borders included, and it
    was fired at most 2000 ms ago (elapsed time modulo 2^32); it keeps
    its velocity.  An inactive bullet is left alone. *)
Theorem bullet_lives_on_screen (now : Z) (b : Bullet) :
  is_nan (fadd (b_x b) (b_dx b)) = false ->
  is_nan (fadd (b_y b) (b_dy b)) = false ->
  (b_active b = false -> move_bullet now b = b) /\
  (b_active b = true ->
   let b' := move_bullet now b in
   b_x b' = fadd (b_x b) (b_dx b) /\ b_y b' = fadd (b_y b) (b_dy b) /\
   b_dx b' = b_dx b /\ b_dy b' = b_dy b /\
   (b_active b' = true <->
    on_screen (b_x b') (b_y b') /\
    CInt.to_ulong (now - b_fired_time b) <= 2000)).
Proof.
  intros Hx Hy. unfold move_bullet. split.
  - now intros ->.
  - intros Hact. rewrite Hact. cbn [negb].
    cbn [b_x b_y b_dx b_dy b_fired_time set_b_pos].
    set (x := fadd (b_x b) (b_dx b)) in *.
    set (y := fadd (b_y b) (b_dy b)) in *.
    rewrite !fgt_flt. unfold on_screen.
    destruct (flt x (of_int 0)) eqn:H1; cbn [orb].
    { cbn [b_x b_y b_dx b_dy b_active set_b_active set_b_pos].
      repeat (split; [reflexivity |]). split; [discriminate |].
      intros ([Hle _] & _).
      rewrite (less_not_greater_equal _ _ H1) in Hle. discriminate. }
    destruct (flt (of_int AMOLED_1IN8_WIDTH) x) eqn:H2; cbn [orb].
    { cbn [b_x b_y b_dx b_dy b_active set_b_active set_b_pos].
      repeat (split; [reflexivity |]). split; [discriminate |].
      intros ((_ & Hle & _) & _).
      rewrite (less_not_greater_equal _ _ H2) in Hle. discriminate. }
    destruct (flt y (of_int 0)) eqn:H3; cbn [orb].
    { cbn [b_x b_y b_dx b_dy b_active set_b_active set_b_pos].
      repeat (split; [reflexivity |]). split; [discriminate |].
      intros ((_ & _ & Hle & _) & _).
      rewrite (less_not_greater_equal _ _ H3) in Hle. discriminate. }
    destruct (flt (of_int AMOLED_1IN8_HEIGHT) y) eqn:H4; cbn [orb].
    { cbn [b_x b_y b_dx b_dy b_active set_b_active set_b_pos].
      repeat (split; [reflexivity |]). split; [discriminate |].
      intros ((_ & _ & _ & Hle) & _).
      rewrite (less_not_greater_equal _ _ H4) in Hle. discriminate. }
    destruct (Z.ltb_spec 2000 (CInt.to_ulong (now - b_fired_time b))).
    { cbn [b_x b_y b_dx b_dy b_active set_b_active set_b_pos].
      repeat (split; [reflexivity |]). split; [discriminate | lia]. }
    cbn [b_x b_y b_dx b_dy b_active set_b_active set_b_pos].
    repeat (split; [reflexivity |]). split; [| intros _; exact Hact].
    intros _. split; [| lia].
    repeat split; apply not_less_is_greater_equal;
      first [assumption | vm_compute; reflexivity].
Qed.

Lemma bullet_lives_on_screen_witness :
  b_active (move_bullet 2000 flying_bullet) = true /\
  b_active (move_bullet 2001 flying_bullet) = false.
Proof.
  destruct (bullet_lives_on_screen 2000 flying_bullet eq_refl eq_refl)
    as [_ Hfly].
  destruct (bullet_lives_on_screen 2001 flying_bullet eq_refl eq_refl)
    as [_ Hold].
  specialize (Hfly eq_refl). specialize (Hold eq_refl).
  cbv zeta in Hfly, Hold.
  destruct Hfly as (_ & _ & _ & _ & Hfly).
  destruct Hold as (_ & _ & _ & _ & Hold).
  split.
  - apply Hfly. vm_compute. repeat split; discriminate.
  - apply not_true_is_false. intros Hact. apply Hold in Hact as [_ Hage].
    vm_compute in Hage. now apply Hage.
Defined.

Lemma bullet_at_put_ne (l : list Bullet) i j v :
  0 <= j -> i <> j -> bullet_at (put l i v) j = bullet_at l j.
Proof.
  intros Hj Hne. unfold bullet_at, put.
  destruct (Z.ltb_spec j 0); [lia |].
  destruct (Z.ltb_spec i 0); [reflexivity |].
  rewrite list_lookup_insert_ne by lia. reflexivity.
Qed.

(** "Fire bullet" either finds every slot taken and changes nothing,
    or stores the new bullet in the first free slot. *)
Lemma fire_cases lm now s slots l :
  (Forall (fun i => b_active (bullet_at l i) = true) slots /\
   fire lm now s slots l = l) \/
  (exists i, i ∈ slots /\ b_active (bullet_at l i) = false /\
     fire lm now s slots l = put l i (new_bullet lm now s)).
Proof.
  induction slots as [| i rest IH]; cbn [fire].
  - left. split; [constructor | reflexivity].
  - destruct (b_active (bullet_at l i)) eqn:Hact; cbn [negb].
    + destruct IH as [[Hall Hsame] | (j & Hin & Hfree & Hput)].
      * left. split; [now constructor | exact Hsame].
      * right. exists j. split; [now right |]. now split.
    + right. exists i. split; [now left |]. now split.
Qed.

Lemma counts_le (f : Z -> bool) slots :
  0 <= counts f slots <= Z.of_nat (length slots).
Proof.
  induction slots as [| i rest IH]; cbn [counts foldr length]; [lia |].
  fold (counts f rest). destruct (f i); lia.
Qed.

(** X18. A touch in the middle third fires: with the five bullets in
    flight nothing changes; otherwise one more bullet is in flight,
    stored in a slot that was free, at the position of the ship with
    speed 5 along its heading.  Bullets in flight are never disturbed,
    and there are never more than five. *)
Theorem fire_takes_free_slot (lm : Libm) (now : Z) (s : Ship)
    (l : list Bullet) :
  length l = Z.to_nat BULLETS ->
  let l' := fire lm now s (seqZ 0 BULLETS) l in
  length l' = Z.to_nat BULLETS /\
  bullets_in_flight l' = Z.min BULLETS (bullets_in_flight l + 1) /\
  (forall i, 0 <= i < BULLETS ->
     b_active (bullet_at l i) = true -> bullet_at l' i = bullet_at l i) /\
  (forall i, 0 <= i < BULLETS ->
     bullet_at l' i = bullet_at l i \/
     bullet_at l' i = new_bullet lm now s) /\
  (bullets_in_flight l = BULLETS -> l' = l).
Proof.
  intros Hlen l'. subst l'.
  split; [now rewrite length_fire |].
  destruct (fire_cases lm now s (seqZ 0 BULLETS) l)
    as [[Hall ->] | (i & Hin & Hfree & ->)].
  - assert (Hfull : bullets_in_flight l = BULLETS).
    { unfold bullets_in_flight.
      rewrite (AsteroidsFacts.counts_ext _ (fun _ => true)); [reflexivity |].
      intros j Hj. exact (proj1 (Forall_forall _ _) Hall j Hj). }
    rewrite Hfull. split; [reflexivity |]. split; [reflexivity |].
    split; [now left | reflexivity].
  - apply elem_of_seqZ in Hin.
    assert (Hcount : bullets_in_flight (put l i (new_bullet lm now s))
                     = bullets_in_flight l + 1).
    { unfold bullets_in_flight.
      rewrite (AsteroidsFacts.counts_shift _
                 (fun j => b_active (bullet_at l j)) (fun j => j =? i)
                 (fun _ => false)).
      - rewrite AsteroidsFacts.counts_none.
        rewrite AsteroidsFacts.counts_one
          by (apply NoDup_seqZ || (apply elem_of_seqZ; lia)).
        lia.
      - intros j Hj. apply elem_of_seqZ in Hj.
        destruct (Z.eqb_spec j i) as [-> | Hne].
        + rewrite AsteroidsFacts.bullet_at_put_eq
            by (rewrite Hlen; unfold BULLETS in *; lia).
          rewrite Hfree. reflexivity.
        + rewrite bullet_at_put_ne by lia.
          destruct (b_active (bullet_at l j)); reflexivity. }
    pose proof (counts_le (fun j => b_active
                  (bullet_at (put l i (new_bullet lm now s)) j))
                  (seqZ 0 BULLETS)) as Hmax.
    rewrite length_seqZ in Hmax. fold (bullets_in_flight
      (put l i (new_bullet lm now s))) in Hmax.
    rewrite Hcount in *. unfold BULLETS in *.
    split; [lia |]. split; [| split].
    + intros j Hj Hact.
      destruct (Z.eq_dec i j) as [-> | Hne]; [congruence |].
      apply bullet_at_put_ne; lia.
    + intros j Hj. destruct (Z.eq_dec i j) as [-> | Hne].
      * right. apply AsteroidsFacts.bullet_at_put_eq. rewrite Hlen. lia.
      * left. apply bullet_at_put_ne; lia.
    + lia.
Qed.

Lemma fire_takes_free_slot_witness :
  bullets_in_flight
    (fire sample_libm 7 (ship lone_asteroid) (seqZ 0 BULLETS)
       (bullets lone_asteroid)) = 2.
Proof.
  destruct (fire_takes_free_slot sample_libm 7 (ship lone_asteroid)
              (bullets lone_asteroid) eq_refl) as (_ & Hcount & _).
  rewrite Hcount. reflexivity.
Defined.

End AsteroidsPlay.
(** ** The pet: what never changes, the animation, neglect *)

Module PetLife.
Import CInt Pet.

Section Invariant.

(** A property of the pet that [init_pet] establishes and every store
    of the touch handler and of the loop keeps. *)
Variable I : Tamagotchi -> Prop.
Hypothesis I_init : forall now, I (init_pet now).
Hypothesis I_hatch : forall p, I p -> I (set_stage BABY p).
Hypothesis I_hunger : forall v p, I p -> I (set_hunger v p).
Hypothesis I_happiness : forall v p, I p -> I (set_happiness v p).
Hypothesis I_health : forall v p, I p -> I (set_health v p).
Hypothesis I_cleanliness : forall v p, I p -> I (set_cleanliness v p).
Hypothesis I_petting : forall v p, I p -> I (set_petting_count v p).
Hypothesis I_creature_time : forall v p, I p -> I (set_last_creature_move v p).
Hypothesis I_eye_time : forall v p, I p -> I (set_last_eye_move v p).
Hypothesis I_creature_x : forall v p,
  -5 <= v < 6 -> I p -> I (set_creature_offset_x (to_i8 v) p).
Hypothesis I_creature_y : forall v p,
  -5 <= v < 6 -> I p -> I (set_creature_offset_y (to_i8 v) p).
Hypothesis I_eye_x : forall v p,
  -3 <= v < 4 -> I p -> I (set_eye_offset_x (to_i8 v) p).
Hypothesis I_eye_y : forall v p,
  -3 <= v < 4 -> I p -> I (set_eye_offset_y (to_i8 v) p).

Lemma pet_touch_keeps tx ty p : I p -> I (pet_touch tx ty p).
Proof.
  intros H. unfold pet_touch, feed, play, clean, medicine, petting.
  destruct (is_egg (stage p)); [now apply I_hatch |].
  repeat match goal with
  | |- context [if ?c then _ else _] => destruct c
  end; cbv zeta; auto.
Qed.

Lemma decay_keeps p : I p -> I (decay p).
Proof.
  intros H. unfold decay. cbv zeta.
  set (p1 := if 0 <? hunger p then _ else p).
  assert (H1 : I p1) by (subst p1; destruct (0 <? hunger p); auto).
  clearbody p1.
  set (p2 := if 0 <? happiness p1 then _ else p1).
  assert (H2 : I p2) by (subst p2; destruct (0 <? happiness p1); auto).
  clearbody p2.
  set (p3 := if 0 <? cleanliness p2 then _ else p2).
  assert (H3 : I p3) by (subst p3; destruct (0 <? cleanliness p2); auto).
  clearbody p3.
  destruct ((hunger p3 <? 20) || (happiness p3 <? 20)
            || (cleanliness p3 <? 30)); auto.
Qed.

Lemma floor_stats_keeps p : I p -> I (floor_stats p).
Proof.
  intros H. unfold floor_stats. cbv zeta.
  set (p1 := if hunger p <? 0 then _ else p).
  assert (H1 : I p1) by (subst p1; destruct (hunger p <? 0); auto).
  clearbody p1.
  set (p2 := if happiness p1 <? 0 then _ else p1).
  assert (H2 : I p2) by (subst p2; destruct (happiness p1 <? 0); auto).
  clearbody p2.
  destruct (health p2 <? 0); auto.
Qed.

Lemma draw_range mn mx st :
  Rng.call_ok (mn, mx) -> mn <= (Rng.rng2 mn mx st).1 < mx.
Proof.
  intros Hok. rewrite RngFacts.rng2_spec by exact Hok. cbn [fst].
  destruct Hok as (_ & _ & Hlt). cbn [fst snd] in Hlt.
  pose proof (Z.mod_pos_bound (Rng.lcg_next st) (mx - mn) ltac:(lia)). lia.
Qed.

Lemma loop_pet_keeps now st tm p : I p -> I (loop_pet now st tm p).2.
Proof.
  intros H. unfold loop_pet.
  set (a1 := if 3000 <? to_ulong (now - last_creature_move p) then _ else _).
  assert (H1 : I a1.2).
  { subst a1. destruct (3000 <? to_ulong (now - last_creature_move p));
      [| exact H].
    pose proof (draw_range (-5) 6 st) as Hx.
    destruct (Rng.rng2 (-5) 6 st) as [ox s1].
    pose proof (draw_range (-5) 6 s1) as Hy.
    destruct (Rng.rng2 (-5) 6 s1) as [oy s2]. cbn [fst snd] in *.
    apply I_creature_y;
      [apply Hy; unfold Rng.call_ok, is_long; cbn; lia |].
    apply I_creature_x;
      [apply Hx; unfold Rng.call_ok, is_long; cbn; lia |].
    now apply I_creature_time. }
  destruct a1 as [st1 p1]. cbn [snd] in H1.
  set (a2 := if 1000 <? to_ulong (now - last_eye_move p1) then _ else _).
  assert (H2 : I a2.2).
  { subst a2. destruct (1000 <? to_ulong (now - last_eye_move p1));
      [| exact H1].
    pose proof (draw_range (-3) 4 st1) as Hx.
    destruct (Rng.rng2 (-3) 4 st1) as [ox s1].
    pose proof (draw_range (-3) 4 s1) as Hy.
    destruct (Rng.rng2 (-3) 4 s1) as [oy s2]. cbn [fst snd] in *.
    apply I_eye_y; [apply Hy; unfold Rng.call_ok, is_long; cbn; lia |].
    apply I_eye_x; [apply Hx; unfold Rng.call_ok, is_long; cbn; lia |].
    now apply I_eye_time. }
  destruct a2 as [st2 p2]. cbn [snd] in H2.
  destruct (30000 <? to_ulong (now - last_stat_decay tm)); cbn [snd];
    apply floor_stats_keeps; [apply decay_keeps |]; exact H2.
Qed.

Lemma reachable_keeps s : pet_reachable s -> I s.2.
Proof.
  induction 1 as [now st | e [[st tm] p] Hreach IH].
  - apply I_init.
  - destruct e as [tx ty | now]; cbn [pet_step snd] in *.
    + now apply pet_touch_keeps.
    + now apply loop_pet_keeps.
Qed.

End Invariant.

Lemma to_i8_small v : -128 <= v < 128 -> to_i8 v = v.
Proof.
  intros H. unfold to_i8.
  destruct (Z_lt_le_dec v 0) as [Hneg | Hpos].
  - replace (v mod 2 ^ 8) with (v + 2 ^ 8)
      by (apply Z.mod_unique with (q := -1); lia).
    destruct (Z.ltb_spec (v + 2 ^ 8) (2 ^ 7)); lia.
  - rewrite Z.mod_small by lia.
    destruct (Z.ltb_spec v (2 ^ 7)); lia.
Qed.

(** X19. In every state of the pet reached from [init_pet] by touches
    and loop iterations the stage is EGG or BABY (no later stage is
    ever entered), and name, mood, age, sleep and clean-up flags are
    as [init_pet] left them; a hatched pet stays BABY under every
    event. *)
Theorem pet_stays_a_baby (s : pet_state) :
  pet_reachable s ->
  never_written s.2 /\
  (stage s.2 = BABY -> forall e, stage (pet_step e s).2 = BABY).
Proof.
  intros Hreach. split.
  - revert s Hreach. apply reachable_keeps; unfold never_written;
      intros; cbn; tauto.
  - intros Hbaby e. destruct s as [[st tm] p]. cbn [snd] in *.
    destruct e as [tx ty | now]; cbn [pet_step snd].
    + apply (pet_touch_keeps (fun q => stage q = BABY)); auto.
    + apply (loop_pet_keeps (fun q => stage q = BABY)); auto.
Qed.

Lemma pet_stays_a_baby_witness :
  stage (pet_step (Touch 5 5)
           (pet_step (LoopTick 31000)
              (Rng.initial, initial_timers, init_pet 0))).2 = BABY /\
  mood (pet_step (Touch 5 5)
          (pet_step (LoopTick 31000)
             (Rng.initial, initial_timers, init_pet 0))).2 = NEUTRAL.
Proof.
  destruct (pet_stays_a_baby
              (pet_step (Touch 5 5)
                 (pet_step (LoopTick 31000)
                    (Rng.initial, initial_timers, init_pet 0))))
    as [(_ & _ & Hmood & _) _].
  - apply reach_step, reach_step, reach_init.
  - split; [reflexivity | exact Hmood].
Defined.

(** X20. In every state of the pet the animation offsets are within
    the ranges they are drawn from: the creature offsets in [-5, 5],
    the eye offsets in [-3, 3]. *)
Theorem animation_offsets_small (s : pet_state) :
  pet_reachable s -> offsets_small s.2.
Proof.
  revert s. apply reachable_keeps; unfold offsets_small;
    try (intros; cbn; tauto); try (intros; cbn; lia);
    intros v p Hv H; cbn; rewrite to_i8_small by lia; lia.
Qed.

Lemma animation_offsets_small_witness :
  offsets_small
    (pet_step (LoopTick 5000) (Rng.initial, initial_timers, init_pet 0)).2.
Proof.
  apply (animation_offsets_small
           (pet_step (LoopTick 5000)
              (Rng.initial, initial_timers, init_pet 0))).
  apply reach_step, reach_init.
Defined.

(** One decay period on stats in range: the three needs go down by 2,
    1 and 1, not below 0, and health goes down by 3 when one of the
    needs, after its decrease, is under its threshold. *)
Lemma decay_stats p :
  stats_ok p ->
  hunger (decay p) = Z.max 0 (hunger p - 2) /\
  happiness (decay p) = Z.max 0 (happiness p - 1) /\
  cleanliness (decay p) = Z.max 0 (cleanliness p - 1) /\
  health (decay p)
    = if (Z.max 0 (hunger p - 2) <? 20)
         || (Z.max 0 (happiness p - 1) <? 20)
         || (Z.max 0 (cleanliness p - 1) <? 30)
      then Z.max 0 (health p - 3) else health p.
Proof.
  intros (Hhu & Hha & Hhe & Hcl). unfold stat_ok in *. unfold decay.
  cbv zeta.
  set (p1 := if 0 <? hunger p then _ else p).
  assert (H1 : hunger p1 = Z.max 0 (hunger p - 2) /\
               happiness p1 = happiness p /\ cleanliness p1 = cleanliness p
               /\ health p1 = health p).
  { subst p1. destruct (Z.ltb_spec 0 (hunger p)); cbn;
      rewrite ?PetFacts.to_u8_stat by lia; lia. }
  clearbody p1. destruct H1 as (E1 & E2 & E3 & E4).
  set (p2 := if 0 <? happiness p1 then _ else p1).
  assert (H2 : hunger p2 = Z.max 0 (hunger p - 2) /\
               happiness p2 = Z.max 0 (happiness p - 1) /\
               cleanliness p2 = cleanliness p /\ health p2 = health p).
  { subst p2. destruct (Z.ltb_spec 0 (happiness p1)); cbn;
      rewrite ?PetFacts.to_u8_stat by lia; lia. }
  clearbody p2. clear E1 E2 E3 E4. destruct H2 as (E1 & E2 & E3 & E4).
  set (p3 := if 0 <? cleanliness p2 then _ else p2).
  assert (H3 : hunger p3 = Z.max 0 (hunger p - 2) /\
               happiness p3 = Z.max 0 (happiness p - 1) /\
               cleanliness p3 = Z.max 0 (cleanliness p - 1) /\
               health p3 = health p).
  { subst p3. destruct (Z.ltb_spec 0 (cleanliness p2)); cbn;
      rewrite ?PetFacts.to_u8_stat by lia; lia. }
  clearbody p3. clear E1 E2 E3 E4. destruct H3 as (E1 & E2 & E3 & E4).
  rewrite E1, E2, E3.
  destruct ((Z.max 0 (hunger p - 2) <? 20)
            || (Z.max 0 (happiness p - 1) <? 20)
            || (Z.max 0 (cleanliness p - 1) <? 30)); cbn;
    rewrite ?PetFacts.to_u8_stat by lia; lia.
Qed.

Lemma neglect_stats (n : nat) p :
  stats_ok p ->
  stats_ok (neglect n p) /\
  hunger (neglect n p) = Z.max 0 (hunger p - 2 * Z.of_nat n) /\
  happiness (neglect n p) = Z.max 0 (happiness p - Z.of_nat n) /\
  cleanliness (neglect n p) = Z.max 0 (cleanliness p - Z.of_nat n) /\
  ((40 <= n)%nat ->
   health (neglect n p) <= Z.max 0 (100 - 3 * (Z.of_nat n - 40))).
Proof.
  intros Hok. unfold neglect.
  induction n as [| n (IHok & IHhu & IHha & IHcl & IHhe)].
  - change (Nat.iter 0 decay p) with p.
    pose proof Hok as (Hhu & Hha & Hhe & Hcl).
    unfold stat_ok in *. repeat split; try assumption; lia.
  - rewrite Nat.iter_succ.
    destruct (decay_stats _ IHok) as (Dhu & Dha & Dcl & Dhe).
    pose proof (PetFacts.decay_ok _ IHok) as Hok'.
    pose proof IHok as (Rhu & Rha & Rhe & Rcl).
    pose proof Hok as (Hhu & Hha & Hhe & Hcl).
    unfold stat_ok in *.
    split; [exact Hok' |].
    split; [rewrite Dhu, IHhu; lia |].
    split; [rewrite Dha, IHha; lia |].
    split; [rewrite Dcl, IHcl; lia |].
    intros Hn. rewrite Dhe.
    destruct (Nat.eq_dec n 39%nat) as [-> | Hne].
    + destruct (_ || _); lia.
    + specialize (IHhe ltac:(lia)).
      destruct (Z.ltb_spec (Z.max 0 (hunger (Nat.iter n decay p) - 2)) 20)
        as [Hlow | Hhigh]; cbn [orb]; [lia |].
      rewrite IHhu in Hhigh. lia.
Qed.

(** X21. A pet whose stats are in range and that gets no care for 100
    decay periods or more has hunger, happiness, cleanliness and
    health all at 0; nothing else happens to it. *)
Theorem neglect_drains_all (n : nat) (p : Tamagotchi) :
  stats_ok p -> (100 <= n)%nat ->
  hunger (neglect n p) = 0 /\ happiness (neglect n p) = 0 /\
  cleanliness (neglect n p) = 0 /\ health (neglect n p) = 0 /\
  stage (neglect n p) = stage p.
Proof.
  intros Hok Hn.
  destruct (neglect_stats n p Hok) as (Hok' & Hhu & Hha & Hcl & Hhe).
  specialize (Hhe ltac:(lia)).
  pose proof Hok as (Rhu & Rha & Rhe & Rcl).
  pose proof Hok' as (Rhu' & Rha' & Rhe' & Rcl').
  unfold stat_ok in *.
  repeat (split; [lia |]).
  unfold neglect. clear -p. induction n as [| n IH]; [reflexivity |].
  rewrite Nat.iter_succ.
  rewrite (decay_keeps (fun q => stage q = stage p)); auto.
Qed.

Lemma neglect_drains_all_witness :
  health (neglect 100 (init_pet 0)) = 0 /\
  hunger (neglect 100 (init_pet 0)) = 0.
Proof.
  destruct (neglect_drains_all 100 (init_pet 0))
    as (Hhu & _ & _ & Hhe & _).
  - apply PetFacts.init_pet_ok.
  - lia.
  - split; [exact Hhe | exact Hhu].
Defined.

End PetLife.
(** ** Navigation, clock and backlight *)

Module WatchNav.
Import CInt Arcade Display Watch.

(** The projections and setters of [Nav]. *)
Ltac nav_fields :=
  cbn [current_screen current_game menu_sel games_sel settings_sel
       set_time_field set_time_dirty last_time_button_press set_date_field
       set_date_dirty last_date_button_press h m day month year sec_acc
       last_tick_ms brightness_value last_dim_ms
       set_current_screen set_current_game set_menu_sel set_games_sel
       set_settings_sel set_set_time_field set_set_time_dirty
       set_last_time_button_press set_set_date_field set_set_date_dirty
       set_last_date_button_press set_h set_m set_day set_month set_year
       set_sec_acc set_last_tick_ms set_brightness_value set_last_dim_ms
       set_brightness_and_restart open_menu open_watchface] in *.










(** What the debounce of the BACK button does to the navigation: a
    press is passed on, or nothing happens. *)
Lemma back_button_nav now reading w :
  nav (back_button now reading w)
    = (if reading && backLastState w && negb (backBtnState w)
          && (BACK_DEBOUNCE_MS <? to_ulong (now - backLastDebounce w))
       then process_button now BTN_BACK
              (set_brightness_and_restart now 255 (nav w))
       else nav w)
  /\ backBtnState (back_button now reading w)
    = (if Bool.eqb reading (backLastState w)
          && (BACK_DEBOUNCE_MS <? to_ulong (now - backLastDebounce w))
       then reading else backBtnState w).
Proof.
  unfold back_button. cbv zeta.
  cbn [set_back backBtnState backLastState backLastDebounce].
  destruct reading, (backLastState w), (backBtnState w);
    cbn [Bool.eqb negb andb];
    rewrite ?Z.sub_diag;
    change (BACK_DEBOUNCE_MS <? to_ulong 0) with false;
    try (destruct (BACK_DEBOUNCE_MS <? to_ulong (now - backLastDebounce w)));
    split; reflexivity.
Qed.








(** X22. [tick_time] counts seconds: a call less than 1000 ms after
    the last counted one changes nothing; a later call advances the
    time of day by exactly one second, wrapping from 23:59:59 to
    00:00:00, and restarts the interval at the time of the call.  The
    date is never changed, also not at midnight. *)
Theorem clock_counts_seconds (now : Z) (n : Nav) :
  0 <= h n < 24 -> 0 <= m n < 60 -> 0 <= sec_acc n < 60 ->
  (day (tick_time now n), month (tick_time now n), year (tick_time now n))
    = (day n, month n, year n) /\
  (to_ulong (now - last_tick_ms n) < 1000 -> tick_time now n = n) /\
  (1000 <= to_ulong (now - last_tick_ms n) ->
   seconds_of_day (tick_time now n) = (seconds_of_day n + 1) mod 86400 /\
   last_tick_ms (tick_time now n) = now).
Proof.
  intros Hh Hm Hs. unfold tick_time, seconds_of_day. cbv zeta.
  destruct (Z.leb_spec 1000 (to_ulong (now - last_tick_ms n))) as [Hdue | Hnot].
  - nav_fields.
    destruct (Z.leb_spec 60 ((sec_acc n + 1) mod 2 ^ 16)) as [Hmin | Hsec].
    + destruct (Z.leb_spec 60 (to_u8 (m n + 1))) as [Hhour | Hsame];
        nav_fields; unfold to_u8 in *;
        (split; [reflexivity |]); (split; [lia |]); intros _;
        (split; [| reflexivity]);
        Z.to_euclidean_division_equations; lia.
    + nav_fields. split; [reflexivity |]. split; [lia |]. intros _.
      split; [| reflexivity].
      Z.to_euclidean_division_equations; lia.
  - split; [reflexivity |]. split; [reflexivity | lia].
Qed.

Lemma clock_counts_seconds_witness :
  seconds_of_day midnight_nav = 86399 /\
  seconds_of_day (tick_time 1000 midnight_nav) = 0 /\
  day (tick_time 1000 midnight_nav) = 23.
Proof.
  destruct (clock_counts_seconds 1000 midnight_nav) as (Hdate & _ & Hdue);
    [vm_compute; split; [discriminate | reflexivity] ..|].
  destruct Hdue as [Hsec _]; [vm_compute; discriminate |].
  split; [reflexivity |]. split; [rewrite Hsec; reflexivity |].
  exact (f_equal (fun p => fst (fst p)) Hdate).
Defined.



(** X24. From every screen but the unused [SCR_APP], four presses of
    BACK lead to the watch face; from a running arcade game three are
    not enough (they lead to the main menu). *)
Theorem back_leads_home (t1 t2 t3 t4 : Z) (n : Nav) :
  current_screen n <> SCR_APP ->
  current_screen
    (press_back t4 (press_back t3 (press_back t2 (press_back t1 n))))
    = SCR_WATCHFACE /\
  (current_screen n = SCR_GAME_ARCADE -> current_game n <> GAME_MENU ->
   current_screen (press_back t3 (press_back t2 (press_back t1 n)))
     = SCR_MENU).
Proof.
  destruct n as [scr game ? ? ? ? ? ? ? ? ? ? ? ? ? ? ? ? ? ?].
  cbn [current_screen current_game]. intros Hscr.
  destruct scr; try congruence; destruct game;
    (split; [reflexivity | intros; first [reflexivity | congruence]]).
Qed.

Lemma back_leads_home_witness :
  current_screen
    (press_back 4 (press_back 3 (press_back 2 (press_back 1
       (nav snake_world))))) = SCR_WATCHFACE /\
  current_screen
    (press_back 3 (press_back 2 (press_back 1 (nav snake_world))))
    = SCR_MENU.
Proof.
  destruct (back_leads_home 1 2 3 4 (nav snake_world)) as [Hhome Hmenu];
    [vm_compute; discriminate |].
  split; [exact Hhome |].
  apply Hmenu; vm_compute; [reflexivity | discriminate].
Defined.

(** X25. On the "Set Time" and "Set Date" screens UP and DOWN undo
    each other: the hour, the minute, the day, the month and the year
    are the same after UP then DOWN, and after DOWN then UP, also
    across the wrap (23 and 0, 59 and 0, 31 and 1, 12 and 1, 65535 and
    0). *)
Theorem set_clock_round_trip (t1 t2 : Z) (n : Nav) :
  nav_ok n ->
  current_screen n = SCR_SET_TIME \/ current_screen n = SCR_SET_DATE ->
  clock_fields (process_button t2 BTN_DOWN (process_button t1 BTN_UP n))
    = clock_fields n /\
  clock_fields (process_button t2 BTN_UP (process_button t1 BTN_DOWN n))
    = clock_fields n.
Proof.
  intros (Hscr & Hgame & Hmenu & Hgames & Hset & Htf & Hdf & Hh & Hm & Hd
          & Hmo & Hy & Hs & Hb) Hcur.
  unfold clock_fields, process_button. cbv zeta. nav_fields.
  destruct Hcur as [Hcur | Hcur]; rewrite Hcur; nav_fields.
  - destruct (set_time_field n =? 0) eqn:Hf; nav_fields; rewrite ?Hcur, ?Hf;
      nav_fields; unfold to_u8;
      split; repeat f_equal;
      repeat match goal with
             | |- context [if ?a =? ?b then _ else _] =>
                 destruct (Z.eqb_spec a b)
             end;
      Z.to_euclidean_division_equations; lia.
  - destruct (set_date_field n =? 0) eqn:Hf0;
      [| destruct (set_date_field n =? 1) eqn:Hf1];
      nav_fields; rewrite ?Hcur, ?Hf0, ?Hf1; nav_fields; unfold to_u8;
      split; repeat f_equal;
      repeat match goal with
             | |- context [if ?a =? ?b then _ else _] =>
                 destruct (Z.eqb_spec a b)
             end;
      Z.to_euclidean_division_equations; lia.
Qed.

Lemma set_clock_round_trip_witness :
  clock_fields new_year_nav = (12, 0, 31, 12, 2025) /\
  clock_fields (process_button 1 BTN_UP new_year_nav)
    = (12, 0, 1, 12, 2025) /\
  clock_fields (process_button 2 BTN_DOWN (process_button 1 BTN_UP
                                              new_year_nav))
    = clock_fields new_year_nav.
Proof.
  split; [reflexivity |]. split; [reflexivity |].
  apply (set_clock_round_trip 1 2 new_year_nav).
  - unfold nav_ok. vm_compute.
    repeat split; try discriminate; intros; congruence.
  - right. reflexivity.
Defined.

Lemma dim_due t n :
  0 <= brightness_value n <= 255 ->
  current_screen n <> SCR_GAME_ARCADE ->
  current_screen n <> SCR_GAME_TAMAGOTCHI ->
  DIM_INTERVAL <= to_ulong (t - last_dim_ms n) ->
  brightness_value (update_dimming t n)
    = Z.max 0 (brightness_value n - DIM_STEP) /\
  last_dim_ms (update_dimming t n) = t /\
  current_screen (update_dimming t n) = current_screen n.
Proof.
  intros Hb Harc Hpet Hdue. unfold update_dimming. cbv zeta.
  destruct (current_screen n) eqn:Hcur; try congruence;
    cbn [screen_eqb orb];
    (destruct (Z.leb_spec DIM_INTERVAL (to_ulong (t - last_dim_ms n)));
     [| lia]);
    nav_fields; unfold DIM_STEP, to_u8;
    repeat match goal with
           | |- context [if ?c then _ else _] => destruct c eqn:?
           end;
    nav_fields; (split; [| split; [reflexivity | exact Hcur]]);
    Z.to_euclidean_division_equations; lia.
Qed.

(** X26. The backlight only fades: [update_dimming] never raises the
    brightness and leaves everything alone on the two game screens.  On
    any other screen a call at least 15 s after the last change lowers
    the brightness by 64, stopping at 0, so that four such calls in a
    row switch the backlight off whatever it was. *)
Theorem dimming_fades_out (t1 t2 t3 t4 : Z) (n : Nav) :
  0 <= brightness_value n <= 255 ->
  (forall now,
     0 <= brightness_value (update_dimming now n) <= brightness_value n /\
     (current_screen n = SCR_GAME_ARCADE \/
      current_screen n = SCR_GAME_TAMAGOTCHI -> update_dimming now n = n)) /\
  (current_screen n <> SCR_GAME_ARCADE ->
   current_screen n <> SCR_GAME_TAMAGOTCHI ->
   DIM_INTERVAL <= to_ulong (t1 - last_dim_ms n) ->
   DIM_INTERVAL <= to_ulong (t2 - t1) ->
   DIM_INTERVAL <= to_ulong (t3 - t2) ->
   DIM_INTERVAL <= to_ulong (t4 - t3) ->
   brightness_value (update_dimming t1 n)
     = Z.max 0 (brightness_value n - DIM_STEP) /\
   brightness_value
     (update_dimming t4
        (update_dimming t3 (update_dimming t2 (update_dimming t1 n)))) = 0).
Proof.
  intros Hb. split.
  - intros now. split.
    + unfold update_dimming, DIM_STEP. cbv zeta.
      repeat match goal with
             | |- context [if ?c then _ else _] => destruct c eqn:?
             end;
        nav_fields; unfold to_u8; Z.to_euclidean_division_equations; lia.
    + unfold update_dimming. intros [-> | ->]; reflexivity.
  - intros Harc Hpet H1 H2 H3 H4.
    destruct (dim_due t1 n Hb Harc Hpet H1) as (Hb1 & Hl1 & Hs1).
    set (n1 := update_dimming t1 n) in *.
    destruct (dim_due t2 n1) as (Hb2 & Hl2 & Hs2);
      [unfold DIM_STEP in *; lia | congruence | congruence
      | now rewrite Hl1 |].
    set (n2 := update_dimming t2 n1) in *.
    destruct (dim_due t3 n2) as (Hb3 & Hl3 & Hs3);
      [unfold DIM_STEP in *; lia | congruence | congruence
      | now rewrite Hl2 |].
    set (n3 := update_dimming t3 n2) in *.
    destruct (dim_due t4 n3) as (Hb4 & Hl4 & Hs4);
      [unfold DIM_STEP in *; lia | congruence | congruence
      | now rewrite Hl3 |].
    split; [exact Hb1 |]. unfold DIM_STEP in *. lia.
Qed.

Lemma dimming_fades_out_witness :
  brightness_value (update_dimming 15000 boot_nav) = 191 /\
  brightness_value
    (update_dimming 60000
       (update_dimming 45000
          (update_dimming 30000 (update_dimming 15000 boot_nav)))) = 0.
Proof.
  destruct (dimming_fades_out 15000 30000 45000 60000 boot_nav) as [_ Hoff];
    [vm_compute; split; discriminate |].
  destruct Hoff as [Hfirst Hlast];
    try (vm_compute; discriminate).
  split; [rewrite Hfirst; reflexivity | exact Hlast].
Defined.

(** X27. The debounce of the BACK button passes a press on to
    [process_button] exactly when the pin reads high now and read high
    in the previous iteration, the last change of the pin is more than
    40 ms ago, and the press is not registered yet; the press is then
    registered, so that holding the button does not repeat it.  In every
    other case the navigation is untouched. *)
Theorem back_press_debounced (now : Z) (reading : bool) (w : World) :
  (reading = true -> backLastState w = true -> backBtnState w = false ->
   BACK_DEBOUNCE_MS < to_ulong (now - backLastDebounce w) ->
   nav (back_button now reading w)
     = process_button now BTN_BACK
         (set_brightness_and_restart now 255 (nav w)) /\
   backBtnState (back_button now reading w) = true) /\
  (reading = false \/ backLastState w = false \/ backBtnState w = true \/
   to_ulong (now - backLastDebounce w) <= BACK_DEBOUNCE_MS ->
   nav (back_button now reading w) = nav w).
Proof.
  destruct (back_button_nav now reading w) as [Hnav Hstate].
  split.
  - intros -> Hlast Hreg Hlong. rewrite Hnav, Hstate, Hlast, Hreg.
    cbn [andb negb Bool.eqb].
    destruct (Z.ltb_spec BACK_DEBOUNCE_MS
                (to_ulong (now - backLastDebounce w))); [| lia].
    split; reflexivity.
  - intros Hnot. rewrite Hnav.
    destruct reading; [| reflexivity].
    destruct (backLastState w); [| reflexivity].
    destruct (backBtnState w); [reflexivity |].
    cbn [andb negb].
    destruct (Z.ltb_spec BACK_DEBOUNCE_MS
                (to_ulong (now - backLastDebounce w))); [| reflexivity].
    destruct Hnot as [Hn | [Hn | [Hn | Hn]]]; try discriminate. lia.
Qed.

Lemma back_press_debounced_witness :
  current_game (nav back_held_world) = SNAKE /\
  current_game (nav (back_button 100 true back_held_world)) = GAME_MENU /\
  backBtnState (back_button 100 true back_held_world) = true.
Proof.
  destruct (back_press_debounced 100 true back_held_world) as [Hpress _].
  destruct Hpress as [Hnav Hreg]; try reflexivity.
  split; [reflexivity |]. split; [rewrite Hnav; reflexivity | exact Hreg].
Defined.

Lemma init_snake_returns fuel now sh s :
  Snake.arrays_wf s ->
  exists sh' s',
    Snake.init_snake (S (S fuel)) now sh s = Some (sh', s') /\
    game_score sh' = 0 /\ game_over sh' = false /\
    high_scores sh' = high_scores sh.
Proof.
  intros [Hxs Hys]. unfold Snake.init_snake.
  change (Z.max 4 (Z.quot Snake.SNAKE_GRID_W 2)) with 10.
  change (Z.max 4 (Z.quot Snake.SNAKE_GRID_H 2)) with 15.
  set (s1 := Snake.set_last_move now
               (Snake.set_dir 0 (Snake.set_growth 4 300 s))).
  destruct (SnakePlay.init_body_arrays s1 eq_refl) as (Hx & Hy & _).
  set (s2 := Snake.init_body 10 15 s1) in *.
  unfold Snake.SNAKE_MAX_LENGTH in *.
  assert (Hhx : get (Snake.snake_x s2) 0 = 10).
  { rewrite Hx. rewrite !SnakePlay.get_put_same by lia.
    apply ArcadeFacts.get_put_eq.
    cbn [Snake.snake_x s1 Snake.set_last_move Snake.set_dir
         Snake.set_growth]. lia. }
  assert (Hhy : get (Snake.snake_y s2) 0 = 15).
  { rewrite Hy. rewrite !SnakePlay.get_put_same by lia.
    apply ArcadeFacts.get_put_eq.
    cbn [Snake.snake_y s1 Snake.set_last_move Snake.set_dir
         Snake.set_growth]. lia. }
  destruct (SnakePlay.init_food_two_rounds fuel
              (rng_seed (set_game_over false (set_game_score 0 sh))) s2
              Hhx Hhy) as (st' & fx & fy & Hfood & _).
  rewrite Hfood. cbn [mbind option_bind].
  eexists _, _. split; [reflexivity |]. repeat split; reflexivity.
Qed.

Lemma init_asteroids_fresh sh st :
  game_score (fst (Asteroids.init_asteroids sh st)) = 0 /\
  game_over (fst (Asteroids.init_asteroids sh st)) = false /\
  high_scores (fst (Asteroids.init_asteroids sh st)) = high_scores sh.
Proof.
  unfold Asteroids.init_asteroids. cbv zeta.
  destruct (foldl _ _ _) as [s l]. repeat split; reflexivity.
Qed.

Lemma init_tetris_fresh now sh t :
  game_score (fst (Tetris.init_tetris now sh t)) = 0 /\
  game_over (fst (Tetris.init_tetris now sh t)) = false /\
  high_scores (fst (Tetris.init_tetris now sh t)) = high_scores sh.
Proof.
  unfold Tetris.init_tetris.
  destruct (Rng.rng1 7 _) as [cur s1]. destruct (Rng.rng1 7 s1) as [next s2].
  repeat split; reflexivity.
Qed.

Lemma set_games_same (w : World) :
  set_asteroids (shared w, asteroids w) w = w /\
  set_tetris (shared w, tetris w) w = w /\
  set_snake (shared w, snake w) w = w /\
  set_breakout (shared w, breakout w) w = w.
Proof. destruct w. repeat split; reflexivity. Qed.

(** X28. After the end of a game nothing moves until the next touch:
    with [game_over] set, the advance of the selected game leaves the
    whole state as it is, and a touch anywhere on the arcade screen
    starts a new game of the same kind with score 0; the table of high
    scores survives the restart. *)
Theorem game_over_waits_for_touch (lm : Asteroids.Libm) (fuel : nat)
    (now tx ty : Z) (w : World) :
  game_over (shared w) = true ->
  current_game (nav w) <> GAME_MENU ->
  Snake.arrays_wf (snake w) ->
  advance_game lm fuel now w = Some w /\
  exists w',
    touch_arcade lm (S (S fuel)) now tx ty w = Some w' /\
    game_over (shared w') = false /\ game_score (shared w') = 0 /\
    high_scores (shared w') = high_scores (shared w) /\
    nav w' = nav w.
Proof.
  intros Hover Hgame Hwf.
  destruct (set_games_same w) as (Ha & Ht & Hs & Hb).
  unfold advance_game, touch_arcade.
  destruct (current_game (nav w)); [congruence | | | |].
  - unfold Asteroids.update_asteroids, Asteroids.touch_asteroids.
    rewrite Hover. cbn [orb]. rewrite Ha. split; [reflexivity |].
    eexists. split; [reflexivity |].
    pose proof (init_asteroids_fresh (shared w)
                  (Asteroids.set_level 1 (asteroids w))) as Hnew.
    destruct (Asteroids.init_asteroids _ _) as [sh' st'].
    cbn [shared set_asteroids fst snd nav] in *.
    destruct Hnew as (Hscore & Hrun & Htab). repeat split; assumption.
  - unfold Tetris.update_tetris, Tetris.touch_tetris. rewrite Hover.
    cbn [mbind option_bind]. rewrite Ht. split; [reflexivity |].
    eexists. split; [reflexivity |].
    pose proof (init_tetris_fresh now (shared w) (tetris w)) as Hnew.
    destruct (Tetris.init_tetris _ _ _) as [sh' t'].
    cbn [shared set_tetris fst snd nav] in *.
    destruct Hnew as (Hscore & Hrun & Htab). repeat split; assumption.
  - unfold Snake.update_snake, Snake.touch_snake. rewrite Hover.
    cbn [mbind option_bind]. rewrite Hs. split; [reflexivity |].
    destruct (init_snake_returns fuel now (shared w) (snake w) Hwf)
      as (sh' & s' & Hinit & Hscore & Hrun & Htab).
    rewrite Hinit. cbn [mbind option_bind].
    eexists. split; [reflexivity |].
    cbn [shared set_snake fst snd nav]. repeat split; assumption.
  - unfold Breakout.update_breakout, Breakout.touch_breakout.
    rewrite Hover. rewrite Hb. split; [reflexivity |].
    eexists. split; [reflexivity |]. repeat split; reflexivity.
Qed.

Lemma game_over_waits_for_touch_witness :
  advance_game Asteroids.sample_libm 0 5000 finished_world
    = Some finished_world /\
  exists w',
    touch_arcade Asteroids.sample_libm 2 5000 100 100 finished_world
      = Some w' /\
    game_over (shared w') = false /\ game_score (shared w') = 0.
Proof.
  destruct (game_over_waits_for_touch Asteroids.sample_libm 0 5000 100 100
              finished_world) as (Hstay & w' & Htouch & Hrun & Hscore & _).
  - reflexivity.
  - vm_compute. discriminate.
  - split; reflexivity.
  - split; [exact Hstay |]. exists w'.
    split; [exact Htouch |]. split; [exact Hrun | exact Hscore].
Defined.

Lemma screen_eqb_same a : screen_eqb a a = true.
Proof. now destruct a. Qed.




End WatchNav.
(** ** The day of the week *)

Module CalendarFacts.
Import Calendar.

(** On dates of the calendar the truncating operators of
    [zellers_dow] are floor division and remainder. *)
Lemma zellers_dow_mod d m y :
  0 <= d -> 1 <= m <= 12 -> 1 <= y ->
  zellers_dow d m y =
    (let m1 := if m <? 3 then m + 12 else m in
     let y1 := if m <? 3 then y - 1 else y in
     (d + (13 * (m1 + 1)) / 5 + y1 mod 100 + y1 mod 100 / 4 + y1 / 100 / 4
      + 5 * (y1 / 100) + 6) mod 7).
Proof.
  intros Hd Hm Hy. unfold zellers_dow. cbv zeta.
  set (m1 := if m <? 3 then m + 12 else m).
  set (y1 := if m <? 3 then y - 1 else y).
  assert (Hy1 : 0 <= y1) by (subst y1; destruct (m <? 3); lia).
  assert (Hm1 : 0 <= m1) by (subst m1; destruct (m <? 3); lia).
  clearbody m1 y1.
  rewrite (Z.rem_mod_nonneg y1 100), (Z.quot_div_nonneg y1 100) by lia.
  assert (0 <= y1 mod 100 < 100) by (apply Z.mod_pos_bound; lia).
  assert (0 <= y1 / 100) by (apply Z.div_pos; lia).
  rewrite (Z.quot_div_nonneg (y1 mod 100) 4), (Z.quot_div_nonneg (y1 / 100) 4),
    (Z.quot_div_nonneg (13 * (m1 + 1)) 5) by lia.
  assert (0 <= y1 mod 100 / 4) by (apply Z.div_pos; lia).
  assert (0 <= y1 / 100 / 4) by (apply Z.div_pos; lia).
  assert (0 <= 13 * (m1 + 1) / 5) by (apply Z.div_pos; lia).
  set (S := d + 13 * (m1 + 1) / 5 + y1 mod 100 + y1 mod 100 / 4
            + y1 / 100 / 4 + 5 * (y1 / 100)).
  rewrite (Z.rem_mod_nonneg S 7) by (subst S; lia).
  pose proof (Z.mod_pos_bound S 7 eq_refl).
  rewrite Z.rem_mod_nonneg by lia.
  rewrite Z.add_mod_idemp_l by lia. reflexivity.
Qed.

Lemma days_in_month_range m y : 28 <= days_in_month m y <= 31.
Proof.
  unfold days_in_month.
  destruct (m =? 2); [destruct (leap_year y); lia |].
  destruct (_ || _); lia.
Qed.

Lemma next_day_valid d m y :
  valid_date d m y ->
  valid_date (next_day d m y).1.1 (next_day d m y).1.2 (next_day d m y).2.
Proof.
  intros (Hy & Hm & Hd). unfold next_day, valid_date.
  destruct (Z.ltb_spec d (days_in_month m y)); cbn [fst snd]; [lia |].
  destruct (Z.ltb_spec m 12); cbn [fst snd].
  - pose proof (days_in_month_range (m + 1) y). lia.
  - pose proof (days_in_month_range 1 (y + 1)). lia.
Qed.

Lemma next_weekday d m y :
  valid_date d m y ->
  zellers_dow (next_day d m y).1.1 (next_day d m y).1.2 (next_day d m y).2
    = (zellers_dow d m y + 1) mod 7.
Proof.
  intros (Hy & Hm & Hd).
  assert (Hin : m ∈ seqZ 1 12) by (apply elem_of_seqZ; lia).
  unfold next_day.
  destruct (Z.ltb_spec d (days_in_month m y)) as [Hlt | Hge]; cbn [fst snd].
  - rewrite !zellers_dow_mod by lia. cbv zeta.
    destruct (m <? 3); Z.to_euclidean_division_equations; lia.
  - assert (d = days_in_month m y) as -> by lia. clear Hge Hd.
    let l := eval vm_compute in (seqZ 1 12) in
    change (seqZ 1 12) with l in Hin.
    repeat (apply elem_of_cons in Hin as [-> | Hin]);
      [.. | now apply elem_of_nil in Hin];
      cbn [Z.ltb Z.compare Pos.compare Pos.compare_cont fst snd];
      rewrite !zellers_dow_mod
        by (unfold days_in_month; cbn; try destruct (leap_year y); lia);
      unfold days_in_month; cbn -[Z.div Z.modulo leap_year Z.mul Z.add];
      repeat match goal with
             | |- context [?a <? ?b] =>
                 let v := eval vm_compute in (a <? b) in
                 change (a <? b) with v
             end;
      cbv iota;
      try (destruct (leap_year y) eqn:Hleap; unfold leap_year in Hleap);
      Z.to_euclidean_division_equations; lia.
Qed.

(** X30. [zellers_dow] is the weekday of the Gregorian calendar: on
    every date from 1 January of year 1 on it lies in 0..6, the day
    after a date (also across the end of a month, of February in leap
    and in common years, and of the year) gets the next weekday, and
    the date the watch boots with, 23 October 2025, is a Thursday
    (4, with 0 for Sunday). *)
Theorem weekday_follows_calendar (d m y : Z) :
  valid_date d m y ->
  0 <= zellers_dow d m y <= 6 /\
  valid_date (next_day d m y).1.1 (next_day d m y).1.2 (next_day d m y).2 /\
  zellers_dow (next_day d m y).1.1 (next_day d m y).1.2 (next_day d m y).2
    = (zellers_dow d m y + 1) mod 7 /\
  zellers_dow 23 10 2025 = 4.
Proof.
  intros Hvalid. split; [| split; [| split]].
  - destruct Hvalid as (Hy & Hm & Hd).
    rewrite zellers_dow_mod by lia. cbv zeta.
    match goal with
    | |- 0 <= ?a mod 7 <= 6 => pose proof (Z.mod_pos_bound a 7 eq_refl); lia
    end.
  - now apply next_day_valid.
  - now apply next_weekday.
  - reflexivity.
Qed.

Lemma weekday_follows_calendar_witness :
  next_day 29 2 2024 = (1, 3, 2024) /\
  zellers_dow 29 2 2024 = 4 /\ zellers_dow 1 3 2024 = 5 /\
  next_day 31 12 2025 = (1, 1, 2026) /\
  zellers_dow 1 1 2026 = (zellers_dow 31 12 2025 + 1) mod 7.
Proof.
  split; [reflexivity |]. split; [reflexivity |]. split; [reflexivity |].
  split; [reflexivity |].
  destruct (weekday_follows_calendar 31 12 2025) as (_ & _ & Hnext & _).
  - unfold valid_date. vm_compute. repeat split; discriminate.
  - exact Hnext.
Defined.

End CalendarFacts.

